(** * CommunityTouristAssistant: moderation, trust ledger, anti-spam, nearby places

    A shallow embedding of the moderation and trust-scoring code of the
    application, and the properties of it that were checked.

    Conventions of the embedding.
    - Database tables whose scan order or insertion order matters (places,
      reviews, reports, the moderation log) are lists of rows in primary-key
      order; the contribution table, which is only ever read by user, is a
      finite map keyed by the user's primary key.
    - A model instance is a record; attribute assignment builds a new record.
      [save(update_fields=...)] copies the listed columns of the instance
      into the stored row.
    - Code that reads and writes the database lives in the monad [M]: a
      computation takes the store and either returns a value with the new
      store or raises a Python exception, leaving the store as it was at the
      time of the raise (autocommit).
    - Python [int] is [Z]; a [DecimalField] with six decimal places is the
      integer number of millionths; Python [float] in the distance
      computation is read as a real number, and in the similarity test as a
      binary64 float. *)

From Stdlib Require Import ZArith List Bool String Ascii Lia Reals Lra Floats.
From stdpp Require Import base gmap.
Import ListNotations.

Set Warnings "-inexact-float,-register-all".

Local Open Scope string_scope.
Local Open Scope Z_scope.
Local Open Scope list_scope.

(** ** Users and requests *)

(** The primary key of a [django.contrib.auth] user. *)
Definition user_id := Z.

(** ** accounts/models.py *)

Module Contribution.

Record t := mk {
  places_added : Z;
  reviews_added : Z;
  points : Z;
  upheld_reports_count : Z;
  review_restriction_active : bool
}.

(** The field defaults of the model: what [get_or_create] inserts. *)
Definition default : t := mk 0 0 0 0 false.

(** The columns a [save(update_fields=[...])] can name. *)
Inductive Field :=
| F_places_added | F_reviews_added | F_points
| F_upheld_reports_count | F_review_restriction_active.

Definition Field_eqb (a b : Field) : bool :=
  match a, b with
  | F_places_added, F_places_added
  | F_reviews_added, F_reviews_added
  | F_points, F_points
  | F_upheld_reports_count, F_upheld_reports_count
  | F_review_restriction_active, F_review_restriction_active => true
  | _, _ => false
  end.

Definition listed (f : Field) (fields : list Field) : bool :=
  existsb (Field_eqb f) fields.

(** [UPDATE ... SET] of the listed columns: each listed column takes the
    instance's value, every other column keeps the stored one. *)
Definition update_columns (fields : list Field) (instance row : t) : t :=
  {| places_added :=
       if listed F_places_added fields then places_added instance else places_added row;
     reviews_added :=
       if listed F_reviews_added fields then reviews_added instance else reviews_added row;
     points :=
       if listed F_points fields then points instance else points row;
     upheld_reports_count :=
       if listed F_upheld_reports_count fields
       then upheld_reports_count instance else upheld_reports_count row;
     review_restriction_active :=
       if listed F_review_restriction_active fields
       then review_restriction_active instance else review_restriction_active row |}.

(** Attribute assignments on an instance. *)
Definition set_places_added (v : Z) (c : t) : t :=
  mk v (reviews_added c) (points c) (upheld_reports_count c) (review_restriction_active c).
Definition set_reviews_added (v : Z) (c : t) : t :=
  mk (places_added c) v (points c) (upheld_reports_count c) (review_restriction_active c).
Definition set_points (v : Z) (c : t) : t :=
  mk (places_added c) (reviews_added c) v (upheld_reports_count c) (review_restriction_active c).
Definition set_upheld_reports_count (v : Z) (c : t) : t :=
  mk (places_added c) (reviews_added c) (points c) v (review_restriction_active c).
Definition set_review_restriction_active (v : bool) (c : t) : t :=
  mk (places_added c) (reviews_added c) (points c) (upheld_reports_count c) v.

Definition TRUSTED_THRESHOLD : Z := 120.

Definition LEVELS : list (Z * string * string) :=
  [ (0, "New Explorer", "secondary");
    (50, "Local Contributor", "info");
    (120, "Trusted Guide", "success");
    (250, "Community Champion", "warning") ].

Definition is_trusted (self : t) : bool :=
  TRUSTED_THRESHOLD <=? points self.

(** The [for ... if ... else: break] loop shared by [level_name] and
    [level_badge_class]: [current] is the value assigned so far, [pick]
    selects the component of the row that the loop assigns. *)
Fixpoint scan_levels {A : Type} (pick : Z * string * string -> A)
    (pts : Z) (levels : list (Z * string * string)) (current : A) : A :=
  match levels with
  | [] => current
  | row :: rest =>
      if fst (fst row) <=? pts
      then scan_levels pick pts rest (pick row)
      else current
  end.

Definition row_name (row : Z * string * string) : string := snd (fst row).
Definition row_badge (row : Z * string * string) : string := snd row.

(** [LEVELS[0]]: the table is a non-empty literal, so the index is in
    range; Python would raise [IndexError] on an empty table. *)
Definition first_level : Z * string * string :=
  nth 0 LEVELS (0, "", "").

Definition level_name (self : t) : string :=
  scan_levels row_name (points self) LEVELS (row_name first_level).

Definition level_badge_class (self : t) : string :=
  scan_levels row_badge (points self) LEVELS (row_badge first_level).

Fixpoint next_level_row (pts : Z) (levels : list (Z * string * string))
    : option (Z * string * string) :=
  match levels with
  | [] => None
  | row :: rest =>
      if pts <? fst (fst row) then Some row else next_level_row pts rest
  end.

Definition next_level_name (self : t) : option string :=
  option_map row_name (next_level_row (points self) LEVELS).

Definition points_to_next_level (self : t) : Z :=
  match next_level_row (points self) LEVELS with
  | Some row => fst (fst row) - points self
  | None => 0
  end.

(** The position of a level name in [LEVELS]; the order of the tiers.
    A name that is not in the table gets the length of the table. *)
Fixpoint rank_in (levels : list (Z * string * string)) (name : string) : nat :=
  match levels with
  | [] => 0%nat
  | row :: rest =>
      if String.eqb (row_name row) name then 0%nat else S (rank_in rest name)
  end.

Definition level_rank (name : string) : nat := rank_in LEVELS name.

(** A row of the table is the highest threshold at or below [pts]. *)
Definition highest_threshold_at_or_below
    (levels : list (Z * string * string)) (pts : Z)
    (row : Z * string * string) : Prop :=
  In row levels /\ fst (fst row) <= pts /\
  forall other, In other levels -> fst (fst other) <= pts ->
                fst (fst other) <= fst (fst row).

End Contribution.

(** ** places/models.py: the Place model *)

Module Place.

Inductive ModerationStatus := PENDING | APPROVED | REJECTED.

Definition ModerationStatus_eqb (a b : ModerationStatus) : bool :=
  match a, b with
  | PENDING, PENDING | APPROVED, APPROVED | REJECTED, REJECTED => true
  | _, _ => false
  end.

(** The concrete class of a polymorphic place: the base model or one of
    its four subtypes. The subtype tables only add descriptive columns
    (period, cuisine, ...), which no code below reads. *)
Inductive Class := PlaceBase | HeritagePlace | FoodPlace | ActivityPlace | BeachPlace.

Definition Class_eqb (a b : Class) : bool :=
  match a, b with
  | PlaceBase, PlaceBase | HeritagePlace, HeritagePlace | FoodPlace, FoodPlace
  | ActivityPlace, ActivityPlace | BeachPlace, BeachPlace => true
  | _, _ => false
  end.

(** [latitude] and [longitude] are [DecimalField(max_digits=9,
    decimal_places=6)]: the value is the number of millionths of a degree.
    [archived_at] and the opening times are instants as integers.
    [_previous_moderation_status] is the attribute the pre-save handler
    puts on the instance; it is not a column, and [None] also stands for
    the attribute being absent ([getattr(..., None)]). *)
Record t := mk {
  pk : option Z;
  class : Class;
  name : string;
  opening_days : string;
  opening_time : option Z;
  closing_time : option Z;
  latitude : option Z;
  longitude : option Z;
  created_by : option user_id;
  archived_by : option user_id;
  is_approved : bool;
  is_archived : bool;
  archived_at : option Z;
  moderation_status : ModerationStatus;
  _previous_moderation_status : option ModerationStatus
}.

Inductive Field :=
| F_name | F_opening_days | F_opening_time | F_closing_time
| F_latitude | F_longitude | F_created_by | F_archived_by
| F_is_approved | F_is_archived | F_archived_at | F_moderation_status.

Definition Field_eqb (a b : Field) : bool :=
  match a, b with
  | F_name, F_name | F_opening_days, F_opening_days
  | F_opening_time, F_opening_time | F_closing_time, F_closing_time
  | F_latitude, F_latitude | F_longitude, F_longitude
  | F_created_by, F_created_by | F_archived_by, F_archived_by
  | F_is_approved, F_is_approved | F_is_archived, F_is_archived
  | F_archived_at, F_archived_at | F_moderation_status, F_moderation_status => true
  | _, _ => false
  end.

Definition listed (f : Field) (fields : list Field) : bool :=
  existsb (Field_eqb f) fields.

Definition all_fields : list Field :=
  [F_name; F_opening_days; F_opening_time; F_closing_time; F_latitude;
   F_longitude; F_created_by; F_archived_by; F_is_approved; F_is_archived;
   F_archived_at; F_moderation_status].

(** [UPDATE ... SET] of the listed columns of the stored row. *)
Definition update_columns (fields : list Field) (instance row : t) : t :=
  {| pk := pk row;
     class := class row;
     name := if listed F_name fields then name instance else name row;
     opening_days :=
       if listed F_opening_days fields then opening_days instance else opening_days row;
     opening_time :=
       if listed F_opening_time fields then opening_time instance else opening_time row;
     closing_time :=
       if listed F_closing_time fields then closing_time instance else closing_time row;
     latitude := if listed F_latitude fields then latitude instance else latitude row;
     longitude := if listed F_longitude fields then longitude instance else longitude row;
     created_by :=
       if listed F_created_by fields then created_by instance else created_by row;
     archived_by :=
       if listed F_archived_by fields then archived_by instance else archived_by row;
     is_approved :=
       if listed F_is_approved fields then is_approved instance else is_approved row;
     is_archived :=
       if listed F_is_archived fields then is_archived instance else is_archived row;
     archived_at :=
       if listed F_archived_at fields then archived_at instance else archived_at row;
     moderation_status :=
       if listed F_moderation_status fields
       then moderation_status instance else moderation_status row;
     _previous_moderation_status := None |}.

(** The row an [INSERT] of the instance writes, under primary key [k]. *)
Definition as_row (k : Z) (instance : t) : t :=
  {| pk := Some k;
     class := class instance;
     name := name instance;
     opening_days := opening_days instance;
     opening_time := opening_time instance;
     closing_time := closing_time instance;
     latitude := latitude instance;
     longitude := longitude instance;
     created_by := created_by instance;
     archived_by := archived_by instance;
     is_approved := is_approved instance;
     is_archived := is_archived instance;
     archived_at := archived_at instance;
     moderation_status := moderation_status instance;
     _previous_moderation_status := None |}.

(** Attribute assignments on an instance. *)
Definition set_pk (v : option Z) (p : t) : t :=
  mk v (class p) (name p) (opening_days p) (opening_time p) (closing_time p)
     (latitude p) (longitude p) (created_by p) (archived_by p) (is_approved p)
     (is_archived p) (archived_at p) (moderation_status p)
     (_previous_moderation_status p).

Definition set_opening_hours (days : string) (o c : option Z) (p : t) : t :=
  mk (pk p) (class p) (name p) days o c
     (latitude p) (longitude p) (created_by p) (archived_by p) (is_approved p)
     (is_archived p) (archived_at p) (moderation_status p)
     (_previous_moderation_status p).

Definition set_archived_by (v : option user_id) (p : t) : t :=
  mk (pk p) (class p) (name p) (opening_days p) (opening_time p) (closing_time p)
     (latitude p) (longitude p) (created_by p) v (is_approved p)
     (is_archived p) (archived_at p) (moderation_status p)
     (_previous_moderation_status p).

Definition set_is_approved (v : bool) (p : t) : t :=
  mk (pk p) (class p) (name p) (opening_days p) (opening_time p) (closing_time p)
     (latitude p) (longitude p) (created_by p) (archived_by p) v
     (is_archived p) (archived_at p) (moderation_status p)
     (_previous_moderation_status p).

Definition set_is_archived (v : bool) (p : t) : t :=
  mk (pk p) (class p) (name p) (opening_days p) (opening_time p) (closing_time p)
     (latitude p) (longitude p) (created_by p) (archived_by p) (is_approved p)
     v (archived_at p) (moderation_status p)
     (_previous_moderation_status p).

Definition set_archived_at (v : option Z) (p : t) : t :=
  mk (pk p) (class p) (name p) (opening_days p) (opening_time p) (closing_time p)
     (latitude p) (longitude p) (created_by p) (archived_by p) (is_approved p)
     (is_archived p) v (moderation_status p)
     (_previous_moderation_status p).

Definition set_moderation_status (v : ModerationStatus) (p : t) : t :=
  mk (pk p) (class p) (name p) (opening_days p) (opening_time p) (closing_time p)
     (latitude p) (longitude p) (created_by p) (archived_by p) (is_approved p)
     (is_archived p) (archived_at p) v
     (_previous_moderation_status p).

Definition set_previous_moderation_status (v : option ModerationStatus) (p : t) : t :=
  mk (pk p) (class p) (name p) (opening_days p) (opening_time p) (closing_time p)
     (latitude p) (longitude p) (created_by p) (archived_by p) (is_approved p)
     (is_archived p) (archived_at p) (moderation_status p) v.

(** [pk=k] as a row filter. *)
Definition has_pk (k : Z) (row : t) : bool :=
  match pk row with Some k' => k' =? k | None => false end.

End Place.

(** ** reviews/models.py *)

Module Review.

(** [place] is the primary key of the reviewed place; [user] is [None]
    for a guest review. *)
Record t := mk {
  pk : option Z;
  place : Z;
  user : option user_id;
  text : string;
  rating : Z;
  is_approved : bool;
  reported : bool;
  report_reason : string;
  moderation_penalty_applied : bool;
  is_archived : bool;
  archived_at : option Z;
  archived_by : option user_id;
  created_at : Z
}.

Inductive Field :=
| F_place | F_user | F_text | F_rating | F_is_approved | F_reported
| F_report_reason | F_moderation_penalty_applied | F_is_archived
| F_archived_at | F_archived_by.

Definition Field_eqb (a b : Field) : bool :=
  match a, b with
  | F_place, F_place | F_user, F_user | F_text, F_text | F_rating, F_rating
  | F_is_approved, F_is_approved | F_reported, F_reported
  | F_report_reason, F_report_reason
  | F_moderation_penalty_applied, F_moderation_penalty_applied
  | F_is_archived, F_is_archived | F_archived_at, F_archived_at
  | F_archived_by, F_archived_by => true
  | _, _ => false
  end.

Definition listed (f : Field) (fields : list Field) : bool :=
  existsb (Field_eqb f) fields.

Definition all_fields : list Field :=
  [F_place; F_user; F_text; F_rating; F_is_approved; F_reported;
   F_report_reason; F_moderation_penalty_applied; F_is_archived;
   F_archived_at; F_archived_by].

(** [UPDATE ... SET] of the listed columns of the stored row;
    [created_at] is [auto_now_add] and is written on insert only. *)
Definition update_columns (fields : list Field) (instance row : t) : t :=
  {| pk := pk row;
     place := if listed F_place fields then place instance else place row;
     user := if listed F_user fields then user instance else user row;
     text := if listed F_text fields then text instance else text row;
     rating := if listed F_rating fields then rating instance else rating row;
     is_approved :=
       if listed F_is_approved fields then is_approved instance else is_approved row;
     reported := if listed F_reported fields then reported instance else reported row;
     report_reason :=
       if listed F_report_reason fields then report_reason instance else report_reason row;
     moderation_penalty_applied :=
       if listed F_moderation_penalty_applied fields
       then moderation_penalty_applied instance else moderation_penalty_applied row;
     is_archived :=
       if listed F_is_archived fields then is_archived instance else is_archived row;
     archived_at :=
       if listed F_archived_at fields then archived_at instance else archived_at row;
     archived_by :=
       if listed F_archived_by fields then archived_by instance else archived_by row;
     created_at := created_at row |}.

(** The row an [INSERT] writes at time [now] under primary key [k]. *)
Definition as_row (k now : Z) (r : t) : t :=
  mk (Some k) (place r) (user r) (text r) (rating r) (is_approved r) (reported r)
     (report_reason r) (moderation_penalty_applied r) (is_archived r)
     (archived_at r) (archived_by r) now.

Definition set_is_approved (v : bool) (r : t) : t :=
  mk (pk r) (place r) (user r) (text r) (rating r) v (reported r)
     (report_reason r) (moderation_penalty_applied r) (is_archived r)
     (archived_at r) (archived_by r) (created_at r).

Definition set_reported (v : bool) (r : t) : t :=
  mk (pk r) (place r) (user r) (text r) (rating r) (is_approved r) v
     (report_reason r) (moderation_penalty_applied r) (is_archived r)
     (archived_at r) (archived_by r) (created_at r).

Definition set_report_reason (v : string) (r : t) : t :=
  mk (pk r) (place r) (user r) (text r) (rating r) (is_approved r) (reported r)
     v (moderation_penalty_applied r) (is_archived r)
     (archived_at r) (archived_by r) (created_at r).

Definition set_moderation_penalty_applied (v : bool) (r : t) : t :=
  mk (pk r) (place r) (user r) (text r) (rating r) (is_approved r) (reported r)
     (report_reason r) v (is_archived r)
     (archived_at r) (archived_by r) (created_at r).

Definition set_is_archived (v : bool) (r : t) : t :=
  mk (pk r) (place r) (user r) (text r) (rating r) (is_approved r) (reported r)
     (report_reason r) (moderation_penalty_applied r) v
     (archived_at r) (archived_by r) (created_at r).

Definition set_archived_at (v : option Z) (r : t) : t :=
  mk (pk r) (place r) (user r) (text r) (rating r) (is_approved r) (reported r)
     (report_reason r) (moderation_penalty_applied r) (is_archived r)
     v (archived_by r) (created_at r).

Definition set_archived_by (v : option user_id) (r : t) : t :=
  mk (pk r) (place r) (user r) (text r) (rating r) (is_approved r) (reported r)
     (report_reason r) (moderation_penalty_applied r) (is_archived r)
     (archived_at r) v (created_at r).

Definition has_pk (k : Z) (row : t) : bool :=
  match pk row with Some k' => k' =? k | None => false end.

End Review.

Module ReviewReport.

Inductive Status := PENDING | UPHELD | DISMISSED.

Definition Status_eqb (a b : Status) : bool :=
  match a, b with
  | PENDING, PENDING | UPHELD, UPHELD | DISMISSED, DISMISSED => true
  | _, _ => false
  end.

(** [review] is the primary key of the reported review. *)
Record t := mk {
  review : Z;
  reporter : user_id;
  reason : string;
  status : Status
}.

Definition set_status (v : Status) (r : t) : t :=
  mk (review r) (reporter r) (reason r) v.

End ReviewReport.

Module ModerationLog.

Inductive Action :=
| PLACE_APPROVED | PLACE_REJECTED | PLACE_ARCHIVED | PLACE_RESTORED
| REVIEW_UPHELD | REVIEW_DISMISSED | REVIEW_ARCHIVED | REVIEW_RESTORED.

(** The content type of the generic foreign key [target]. *)
Inductive ContentType := CT_Place (c : Place.Class) | CT_Review.

Record t := mk {
  actor : option user_id;
  action : Action;
  content_type : ContentType;
  object_id : Z;
  notes : string
}.

End ModerationLog.

(** ** The database *)

(** The tables, and the wall clock that [timezone.now()] and
    [auto_now_add] read. *)
Record Store := mkStore {
  contributions : gmap Z Contribution.t;
  places : list Place.t;
  reviews : list Review.t;
  reports : list ReviewReport.t;
  moderation_log : list ModerationLog.t;
  clock : Z
}.

Definition empty_store : Store := mkStore ∅ [] [] [] [] 0.

Definition with_contributions (c : gmap Z Contribution.t) (s : Store) : Store :=
  mkStore c (places s) (reviews s) (reports s) (moderation_log s) (clock s).
Definition with_places (p : list Place.t) (s : Store) : Store :=
  mkStore (contributions s) p (reviews s) (reports s) (moderation_log s) (clock s).
Definition with_reviews (r : list Review.t) (s : Store) : Store :=
  mkStore (contributions s) (places s) r (reports s) (moderation_log s) (clock s).
Definition with_reports (r : list ReviewReport.t) (s : Store) : Store :=
  mkStore (contributions s) (places s) (reviews s) r (moderation_log s) (clock s).
Definition with_moderation_log (l : list ModerationLog.t) (s : Store) : Store :=
  mkStore (contributions s) (places s) (reviews s) (reports s) l (clock s).
Definition with_clock (t : Z) (s : Store) : Store :=
  mkStore (contributions s) (places s) (reviews s) (reports s) (moderation_log s) t.

(** ** Database code: state and exceptions *)

Inductive exn := DatabaseError | ValueError | IntegrityError.

Inductive result (A : Type) :=
| Returned (a : A) (s : Store)
| Raised (e : exn) (s : Store).
Arguments Returned {A} a s.
Arguments Raised {A} e s.

Definition M (A : Type) : Type := Store -> result A.

Definition ret {A} (a : A) : M A := fun s => Returned a s.
Definition raise {A} (e : exn) : M A := fun s => Raised e s.
Definition bind {A B} (m : M A) (k : A -> M B) : M B :=
  fun s => match m s with
           | Returned a s' => k a s'
           | Raised e s' => Raised e s'
           end.
Definition gets {A} (f : Store -> A) : M A := fun s => Returned (f s) s.
Definition modify (f : Store -> Store) : M unit := fun s => Returned tt (f s).

(** [try: m  except e: handler]. *)
Definition try_except {A} (m : M A) (catches : exn -> bool) (handler : M A) : M A :=
  fun s => match m s with
           | Returned a s' => Returned a s'
           | Raised e s' => if catches e then handler s' else Raised e s'
           end.

Notation "'let*' x ':=' m 'in' k" := (bind m (fun x => k))
  (at level 10, x pattern, m at level 200, k at level 200).

(** [for x in l: body(x)]. *)
Fixpoint for_each {A} (l : list A) (body : A -> M unit) : M unit :=
  match l with
  | [] => ret tt
  | x :: rest => let* _ := body x in for_each rest body
  end.

(** The store a computation leaves behind, whether it returned or raised. *)
Definition final {A} (r : result A) : Store :=
  match r with Returned _ s => s | Raised _ s => s end.

Definition returned {A} (r : result A) : option A :=
  match r with Returned a _ => Some a | Raised _ _ => None end.

(** The next value of an auto-increment primary key. *)
Definition next_pk (pks : list (option Z)) : Z :=
  1 + fold_right (fun k acc => match k with Some k => Z.max k acc | None => acc end) 0 pks.

(** [timezone.now()]. *)
Definition timezone_now : M Z := gets clock.

(** ** The Contribution manager *)

Module ContributionObjects.

(** [Contribution.objects.get_or_create(user=u)]: the stored row, or a
    freshly inserted row of field defaults. *)
Definition get_or_create (u : user_id) : M Contribution.t :=
  fun s =>
    match contributions s !! u with
    | Some c => Returned c s
    | None =>
        Returned Contribution.default
          (with_contributions (<[u := Contribution.default]> (contributions s)) s)
    end.

(** [contribution.save(update_fields=fields)] for the contribution of
    user [u]. A forced update that matches no row raises. *)
Definition save (fields : list Contribution.Field) (u : user_id)
    (self : Contribution.t) : M unit :=
  fun s =>
    match contributions s !! u with
    | Some row =>
        Returned tt
          (with_contributions
             (<[u := Contribution.update_columns fields self row]> (contributions s)) s)
    | None => Raised DatabaseError s
    end.

End ContributionObjects.

(** ** reviews/moderation.py *)

Module reviews_moderation.

(** [ModerationLog.objects.create(...)]. The actor of an admin request is
    an authenticated user, so [getattr(actor, "is_authenticated", False)]
    holds and the actor is recorded. A target without primary key cannot
    be referenced: [object_id] is not nullable. *)
Definition log_moderation_action (actor : user_id) (action : ModerationLog.Action)
    (target_type : ModerationLog.ContentType) (target_pk : option Z)
    (notes : string) : M unit :=
  match target_pk with
  | None => raise IntegrityError
  | Some k =>
      modify (fun s =>
        with_moderation_log
          (moderation_log s ++ [ModerationLog.mk (Some actor) action target_type k notes]) s)
  end.

End reviews_moderation.

(** ** places/signals.py *)

Module places_signals.

(** [Place.objects.filter(pk=k).values_list("moderation_status",
    flat=True).first()]. *)
Definition stored_moderation_status (k : Z) : M (option Place.ModerationStatus) :=
  gets (fun s => option_map Place.moderation_status (find (Place.has_pk k) (places s))).

(** [if instance.pk:] a primary key of [None] or [0] is falsy. *)
Definition pk_truthy (k : option Z) : option Z :=
  match k with
  | Some k => if k =? 0 then None else Some k
  | None => None
  end.

Definition _set_previous_status (instance : Place.t) : M Place.t :=
  let* previous_status :=
    match pk_truthy (Place.pk instance) with
    | Some k => stored_moderation_status k
    | None => ret None
    end in
  ret (Place.set_previous_moderation_status previous_status instance).

Definition is_approved_status (st : option Place.ModerationStatus) : bool :=
  match st with
  | Some st => Place.ModerationStatus_eqb st Place.APPROVED
  | None => false
  end.

Definition _award_points_if_newly_approved (instance : Place.t) : M unit :=
  let previous_status := Place._previous_moderation_status instance in
  if is_approved_status previous_status then ret tt
  else if negb (Place.ModerationStatus_eqb (Place.moderation_status instance) Place.APPROVED)
  then ret tt
  else
    match Place.created_by instance with
    | None => ret tt
    | Some u =>
        let* contribution := ContributionObjects.get_or_create u in
        let contribution :=
          Contribution.set_places_added (Contribution.places_added contribution + 1)
            contribution in
        let contribution :=
          Contribution.set_points (Contribution.points contribution + 50) contribution in
        ContributionObjects.save [Contribution.F_places_added; Contribution.F_points]
          u contribution
    end.

Definition _store_previous_status (instance : Place.t) : M Place.t :=
  _set_previous_status instance.

Definition _award_points_on_approval (instance : Place.t) : M unit :=
  _award_points_if_newly_approved instance.

(** The module-level loop [for _sender in (...): _connect_place_signals(_sender)]
    connects both handlers once for each of the five classes. *)
Definition connected_senders : list Place.Class :=
  [Place.PlaceBase; Place.HeritagePlace; Place.FoodPlace; Place.ActivityPlace;
   Place.BeachPlace].

(** [pre_save.send(sender, instance)]: every handler connected for exactly
    this sender runs on the instance. *)
Fixpoint pre_save_send (senders : list Place.Class) (sender : Place.Class)
    (instance : Place.t) : M Place.t :=
  match senders with
  | [] => ret instance
  | c :: rest =>
      if Place.Class_eqb c sender
      then let* instance := _store_previous_status instance in
           pre_save_send rest sender instance
      else pre_save_send rest sender instance
  end.

Fixpoint post_save_send (senders : list Place.Class) (sender : Place.Class)
    (instance : Place.t) : M unit :=
  match senders with
  | [] => ret tt
  | c :: rest =>
      if Place.Class_eqb c sender
      then let* _ := _award_points_on_approval instance in
           post_save_send rest sender instance
      else post_save_send rest sender instance
  end.

End places_signals.

(** ** places/models.py: Place.save *)

Module places_models.

(** The write of [Model.save]: a forced update of the listed columns
    needs a primary key and an existing row; a plain save updates the row
    with the instance's primary key or inserts a new one. *)
Definition _save_table (update_fields : option (list Place.Field))
    (self : Place.t) : M Place.t :=
  fun s =>
    let write (fields : list Place.Field) (k : Z) :=
      with_places
        (map (fun row => if Place.has_pk k row
                         then Place.update_columns fields self row else row)
             (places s)) s in
    match update_fields, Place.pk self with
    | Some _, None => Raised ValueError s
    | Some fields, Some k =>
        if existsb (Place.has_pk k) (places s)
        then Returned self (write fields k)
        else Raised DatabaseError s
    | None, Some k =>
        if existsb (Place.has_pk k) (places s)
        then Returned self (write Place.all_fields k)
        else Returned self (with_places (places s ++ [Place.as_row k self]) s)
    | None, None =>
        let k := next_pk (map Place.pk (places s)) in
        Returned (Place.set_pk (Some k) self)
                 (with_places (places s ++ [Place.as_row k self]) s)
    end.

(** [Model.save]: an empty [update_fields] list returns at once;
    otherwise pre-save signal, write, post-save signal. *)
Definition Model_save (update_fields : option (list Place.Field))
    (self : Place.t) : M Place.t :=
  match update_fields with
  | Some [] => ret self
  | _ =>
      let* self :=
        places_signals.pre_save_send places_signals.connected_senders
          (Place.class self) self in
      let* self := _save_table update_fields self in
      let* _ :=
        places_signals.post_save_send places_signals.connected_senders
          (Place.class self) self in
      ret self
  end.

(** [Place.save]: the override reads the stored status (and does not use
    it), recomputes [is_approved] from [moderation_status], and saves. *)
Definition save (update_fields : option (list Place.Field)) (self : Place.t)
    : M Place.t :=
  let* _previous_status :=
    match places_signals.pk_truthy (Place.pk self) with
    | Some k => places_signals.stored_moderation_status k
    | None => ret None
    end in
  let self :=
    Place.set_is_approved
      (Place.ModerationStatus_eqb (Place.moderation_status self) Place.APPROVED) self in
  Model_save update_fields self.

End places_models.

(** ** places/admin.py

    An admin action receives the requesting user (an authenticated staff
    user) and a queryset, here the row filter it stands for. Iterating a
    queryset evaluates it once, before the first pass of the loop. *)

Module places_admin.

Import reviews_moderation.

Definition target_type (place : Place.t) : ModerationLog.ContentType :=
  ModerationLog.CT_Place (Place.class place).

Definition approve_places (request_user : user_id) (queryset : Place.t -> bool)
    : M unit :=
  let* selected :=
    gets (fun s =>
      List.filter (fun p => queryset p &&
                negb (Place.ModerationStatus_eqb (Place.moderation_status p) Place.APPROVED))
             (places s)) in
  for_each selected (fun place =>
    let place := Place.set_moderation_status Place.APPROVED place in
    let* place :=
      places_models.save (Some [Place.F_moderation_status; Place.F_is_approved]) place in
    log_moderation_action request_user ModerationLog.PLACE_APPROVED
      (target_type place) (Place.pk place) "Approved from Place admin action.").

Definition reject_places (request_user : user_id) (queryset : Place.t -> bool)
    : M unit :=
  let* selected := gets (fun s => List.filter queryset (places s)) in
  for_each selected (fun place =>
    let place := Place.set_moderation_status Place.REJECTED place in
    let place := Place.set_is_approved false place in
    let* place :=
      places_models.save (Some [Place.F_moderation_status; Place.F_is_approved]) place in
    log_moderation_action request_user ModerationLog.PLACE_REJECTED
      (target_type place) (Place.pk place) "Rejected from Place admin action.").

Definition archive_places (request_user : user_id) (queryset : Place.t -> bool)
    : M unit :=
  let* now := timezone_now in
  let* selected :=
    gets (fun s => List.filter (fun p => queryset p && negb (Place.is_archived p)) (places s)) in
  for_each selected (fun place =>
    let place := Place.set_is_archived true place in
    let place := Place.set_archived_at (Some now) place in
    let place := Place.set_archived_by (Some request_user) place in
    let place := Place.set_is_approved false place in
    let* place :=
      places_models.save
        (Some [Place.F_is_archived; Place.F_archived_at; Place.F_archived_by;
               Place.F_is_approved]) place in
    log_moderation_action request_user ModerationLog.PLACE_ARCHIVED
      (target_type place) (Place.pk place) "Archived via Place admin.").

Definition restore_places (request_user : user_id) (queryset : Place.t -> bool)
    : M unit :=
  let* selected :=
    gets (fun s => List.filter (fun p => queryset p && Place.is_archived p) (places s)) in
  for_each selected (fun place =>
    let place := Place.set_is_archived false place in
    let place := Place.set_archived_at None place in
    let place := Place.set_archived_by None place in
    let* place :=
      places_models.save
        (Some [Place.F_is_archived; Place.F_archived_at; Place.F_archived_by]) place in
    log_moderation_action request_user ModerationLog.PLACE_RESTORED
      (target_type place) (Place.pk place) "Restored via Place admin.").

(** [PlaceAdmin.delete_model]: deleting from the detail page archives. *)
Definition delete_model (request_user : user_id) (obj : Place.t) : M unit :=
  let obj := Place.set_is_archived true obj in
  let* now := timezone_now in
  let obj := Place.set_archived_at (Some now) obj in
  let obj := Place.set_archived_by (Some request_user) obj in
  let obj := Place.set_is_approved false obj in
  let* obj :=
    places_models.save
      (Some [Place.F_is_archived; Place.F_archived_at; Place.F_archived_by;
             Place.F_is_approved]) obj in
  log_moderation_action request_user ModerationLog.PLACE_ARCHIVED
    (target_type obj) (Place.pk obj) "Archived via single delete in admin.".

Definition delete_queryset (request_user : user_id) (queryset : Place.t -> bool)
    : M unit :=
  archive_places request_user queryset.

(** The add and change forms of [PlaceAdmin] use the framework's
    [save_model], a plain [obj.save()]. *)
Definition save_model (obj : Place.t) : M Place.t :=
  places_models.save None obj.

End places_admin.

(** ** places/forms.py: PlaceOpeningHoursForm.save *)

Module places_forms.

Definition PlaceOpeningHoursForm_save (instance : Place.t)
    (opening_days : string) (opening_time closing_time : option Z) (commit : bool)
    : M Place.t :=
  let instance := Place.set_opening_hours opening_days opening_time closing_time instance in
  if commit
  then places_models.save
         (Some [Place.F_opening_days; Place.F_opening_time; Place.F_closing_time]) instance
  else ret instance.

End places_forms.

(** ** accounts/signals.py and the Review model's save *)

Module accounts_signals.

(** [post_save] of [User]. *)
Definition create_contribution (instance : user_id) (created : bool) : M unit :=
  if created
  then let* _ := ContributionObjects.get_or_create instance in ret tt
  else ret tt.

(** [post_save] of [Review]. *)
Definition award_points_for_review (instance : Review.t) (created : bool) : M unit :=
  match created, Review.user instance with
  | true, Some u =>
      let* contribution := ContributionObjects.get_or_create u in
      let contribution :=
        Contribution.set_reviews_added (Contribution.reviews_added contribution + 1)
          contribution in
      let contribution :=
        Contribution.set_points (Contribution.points contribution + 10) contribution in
      ContributionObjects.save [Contribution.F_reviews_added; Contribution.F_points]
        u contribution
  | _, _ => ret tt
  end.

End accounts_signals.

Module reviews_models.

Definition opt_Z_eqb (a b : option Z) : bool :=
  match a, b with
  | Some x, Some y => x =? y
  | None, None => true
  | _, _ => false
  end.

(** The constraint [one_review_per_user_per_place]: among non-archived
    rows, (place, user) is unique. A null user never conflicts. *)
Definition violates_unique (rows : list Review.t) (row : Review.t) : bool :=
  match Review.user row with
  | None => false
  | Some u =>
      negb (Review.is_archived row) &&
      existsb (fun other =>
                 negb (opt_Z_eqb (Review.pk other) (Review.pk row)) &&
                 negb (Review.is_archived other) &&
                 (Review.place other =? Review.place row) &&
                 opt_Z_eqb (Review.user other) (Some u))
              rows
  end.

(** The columns the constraint's index covers; a write that leaves them
    alone cannot violate it. *)
Definition touches_constraint (fields : list Review.Field) : bool :=
  Review.listed Review.F_place fields || Review.listed Review.F_user fields
  || Review.listed Review.F_is_archived fields.

Definition update_rows (fields : list Review.Field) (k : Z) (self : Review.t)
    (rows : list Review.t) : list Review.t :=
  map (fun r => if Review.has_pk k r then Review.update_columns fields self r else r) rows.

(** [UPDATE] of the listed columns of the row with primary key [k];
    [None] when no row matches. *)
Definition update (fields : list Review.Field) (k : Z) (self : Review.t)
    : M (option (Review.t * bool)) :=
  fun s =>
    match find (Review.has_pk k) (reviews s) with
    | None => Returned None s
    | Some row =>
        if touches_constraint fields
           && violates_unique (reviews s) (Review.update_columns fields self row)
        then Raised IntegrityError s
        else Returned (Some (self, false))
                      (with_reviews (update_rows fields k self (reviews s)) s)
    end.

(** [INSERT] under primary key [k], at the current time. *)
Definition insert (k : Z) (self : Review.t) : M (Review.t * bool) :=
  fun s =>
    let row := Review.as_row k (clock s) self in
    if violates_unique (reviews s) row
    then Raised IntegrityError s
    else Returned (row, true) (with_reviews (reviews s ++ [row]) s).

Definition _save_table (update_fields : option (list Review.Field))
    (self : Review.t) : M (Review.t * bool) :=
  match update_fields, Review.pk self with
  | Some _, None => raise ValueError
  | Some fields, Some k =>
      let* updated := update fields k self in
      match updated with
      | Some saved => ret saved
      | None => raise DatabaseError
      end
  | None, Some k =>
      let* updated := update Review.all_fields k self in
      match updated with
      | Some saved => ret saved
      | None => insert k self
      end
  | None, None =>
      let* k := gets (fun s => next_pk (map Review.pk (reviews s))) in
      insert k self
  end.

(** [Review.save], the framework's [Model.save] with the [post_save]
    handler of accounts/signals.py. *)
Definition save (update_fields : option (list Review.Field)) (self : Review.t)
    : M Review.t :=
  match update_fields with
  | Some [] => ret self
  | _ =>
      let* saved := _save_table update_fields self in
      let* _ := accounts_signals.award_points_for_review (fst saved) (snd saved) in
      ret (fst saved)
  end.

End reviews_models.

(** ** reviews/admin.py *)

Module reviews_admin.

Import reviews_moderation.

(** [review.reports.filter(status=PENDING).update(status=new_status)]. *)
Definition update_pending_reports (review : Review.t) (new_status : ReviewReport.Status)
    : M unit :=
  modify (fun s =>
    with_reports
      (map (fun rep =>
              if reviews_models.opt_Z_eqb (Some (ReviewReport.review rep)) (Review.pk review)
                 && ReviewReport.Status_eqb (ReviewReport.status rep) ReviewReport.PENDING
              then ReviewReport.set_status new_status rep
              else rep)
           (reports s)) s).

(** The body of the loop of [uphold_reported_reviews]. *)
Definition uphold_review (request_user : user_id) (review : Review.t) : M unit :=
  let* _ := update_pending_reports review ReviewReport.UPHELD in
  let review := Review.set_is_approved false review in
  let review := Review.set_reported false review in
  let* review :=
    match Review.user review with
    | Some u =>
        if negb (Review.moderation_penalty_applied review)
        then
          let* contribution := ContributionObjects.get_or_create u in
          let contribution :=
            Contribution.set_upheld_reports_count
              (Contribution.upheld_reports_count contribution + 1) contribution in
          let contribution :=
            Contribution.set_points (Z.max 0 (Contribution.points contribution - 30))
              contribution in
          let contribution :=
            if 3 <=? Contribution.upheld_reports_count contribution
            then Contribution.set_review_restriction_active true contribution
            else contribution in
          let* _ :=
            ContributionObjects.save
              [Contribution.F_upheld_reports_count; Contribution.F_points;
               Contribution.F_review_restriction_active] u contribution in
          ret (Review.set_moderation_penalty_applied true review)
        else ret review
    | None => ret review
    end in
  let* _ :=
    reviews_models.save
      (Some [Review.F_is_approved; Review.F_reported; Review.F_moderation_penalty_applied])
      review in
  log_moderation_action request_user ModerationLog.REVIEW_UPHELD
    ModerationLog.CT_Review (Review.pk review) "Upheld reported review in admin.".

Definition reported_and_live (queryset : Review.t -> bool) (r : Review.t) : bool :=
  queryset r && Review.reported r && negb (Review.is_archived r).

Definition uphold_reported_reviews (request_user : user_id)
    (queryset : Review.t -> bool) : M unit :=
  let* selected := gets (fun s => List.filter (reported_and_live queryset) (reviews s)) in
  for_each selected (uphold_review request_user).

Definition dismiss_reported_reviews (request_user : user_id)
    (queryset : Review.t -> bool) : M unit :=
  let* selected := gets (fun s => List.filter (reported_and_live queryset) (reviews s)) in
  for_each selected (fun review =>
    let* _ := update_pending_reports review ReviewReport.DISMISSED in
    let review := Review.set_reported false review in
    let* _ := reviews_models.save (Some [Review.F_reported]) review in
    log_moderation_action request_user ModerationLog.REVIEW_DISMISSED
      ModerationLog.CT_Review (Review.pk review) "Dismissed reported review in admin.").

Definition archive_fields : list Review.Field :=
  [Review.F_is_archived; Review.F_archived_at; Review.F_archived_by;
   Review.F_is_approved; Review.F_reported].

Definition archive_reviews (request_user : user_id) (queryset : Review.t -> bool)
    : M unit :=
  let* now := timezone_now in
  let* selected :=
    gets (fun s => List.filter (fun r => queryset r && negb (Review.is_archived r)) (reviews s)) in
  for_each selected (fun review =>
    let review := Review.set_is_archived true review in
    let review := Review.set_archived_at (Some now) review in
    let review := Review.set_archived_by (Some request_user) review in
    let review := Review.set_is_approved false review in
    let review := Review.set_reported false review in
    let* _ := reviews_models.save (Some archive_fields) review in
    log_moderation_action request_user ModerationLog.REVIEW_ARCHIVED
      ModerationLog.CT_Review (Review.pk review) "Archived review via admin.").

Definition restore_reviews (request_user : user_id) (queryset : Review.t -> bool)
    : M unit :=
  let* selected :=
    gets (fun s => List.filter (fun r => queryset r && Review.is_archived r) (reviews s)) in
  for_each selected (fun review =>
    let review := Review.set_is_archived false review in
    let review := Review.set_archived_at None review in
    let review := Review.set_archived_by None review in
    let* _ :=
      reviews_models.save
        (Some [Review.F_is_archived; Review.F_archived_at; Review.F_archived_by]) review in
    log_moderation_action request_user ModerationLog.REVIEW_RESTORED
      ModerationLog.CT_Review (Review.pk review) "Restored archived review via admin.").

Definition delete_model (request_user : user_id) (obj : Review.t) : M unit :=
  let obj := Review.set_is_archived true obj in
  let* now := timezone_now in
  let obj := Review.set_archived_at (Some now) obj in
  let obj := Review.set_archived_by (Some request_user) obj in
  let obj := Review.set_is_approved false obj in
  let obj := Review.set_reported false obj in
  let* _ := reviews_models.save (Some archive_fields) obj in
  log_moderation_action request_user ModerationLog.REVIEW_ARCHIVED
    ModerationLog.CT_Review (Review.pk obj) "Archived via single delete in admin.".

Definition delete_queryset (request_user : user_id) (queryset : Review.t -> bool)
    : M unit :=
  archive_reviews request_user queryset.

(** [ReviewReportAdmin.mark_upheld] and [mark_dismissed]:
    [queryset.update(status=...)]. *)
Definition mark_reports (queryset : ReviewReport.t -> bool)
    (new_status : ReviewReport.Status) : M unit :=
  modify (fun s =>
    with_reports
      (map (fun rep => if queryset rep then ReviewReport.set_status new_status rep else rep)
           (reports s)) s).

Definition mark_upheld (queryset : ReviewReport.t -> bool) : M unit :=
  mark_reports queryset ReviewReport.UPHELD.

Definition mark_dismissed (queryset : ReviewReport.t -> bool) : M unit :=
  mark_reports queryset ReviewReport.DISMISSED.

End reviews_admin.

(** ** reviews/views.py: the parts that write to the database *)

Module reviews_views.

(** [_save_review]: the form's instance gets its place and, for a
    signed-in user, its author, and is saved; a uniqueness violation is
    caught and turned into a message. The result tells whether the review
    was stored. *)
Definition _save_review (request_user : option user_id) (place_pk : Z)
    (review : Review.t) : M bool :=
  let review :=
    Review.mk (Review.pk review) place_pk
      (match request_user with Some u => Some u | None => Review.user review end)
      (Review.text review) (Review.rating review) (Review.is_approved review)
      (Review.reported review) (Review.report_reason review)
      (Review.moderation_penalty_applied review) (Review.is_archived review)
      (Review.archived_at review) (Review.archived_by review) (Review.created_at review) in
  try_except
    (let* _ := reviews_models.save None review in ret true)
    (fun e => match e with IntegrityError => true | _ => false end)
    (ret false).

(** The instance [ReviewForm.save(commit=False)] builds: the form's text
    and rating, every other field at its default. *)
Definition form_instance (text : string) (rating : Z) : Review.t :=
  Review.mk None 0 None text rating true false "" false false None None 0.

(** [ReportReviewView.post] past the rate limit: the review must exist and
    not be archived, the reporter must not be its author, and must not
    have reported it before. *)
Definition report_review (request_user : user_id) (review_id : Z) (reason : string)
    : M bool :=
  let* found :=
    gets (fun s =>
      find (fun r => Review.has_pk review_id r && negb (Review.is_archived r)) (reviews s)) in
  match found with
  | None => ret false
  | Some review =>
      if reviews_models.opt_Z_eqb (Review.user review) (Some request_user)
      then ret false
      else
        let* existing :=
          gets (fun s =>
            find (fun rep => (ReviewReport.review rep =? review_id) &&
                             (ReviewReport.reporter rep =? request_user))
                 (reports s)) in
        match existing with
        | Some _ => ret false
        | None =>
            let report :=
              ReviewReport.mk review_id request_user (String.substring 0 255 reason)
                ReviewReport.PENDING in
            let* _ := modify (fun s => with_reports (reports s ++ [report]) s) in
            let review := Review.set_reported true review in
            let review := Review.set_report_reason (ReviewReport.reason report) review in
            let* _ :=
              reviews_models.save (Some [Review.F_reported; Review.F_report_reason]) review in
            ret true
        end
  end.

End reviews_views.

(** ** places/views.py: AddPlaceView.post, the part that writes *)

Module places_views_submit.

(** The view builds an unsaved instance of the chosen class from the
    form, with the signed-in user as creator and status PENDING, and saves
    it when geocoding gave both coordinates. *)
Definition add_place (request_user : user_id) (form : Place.t)
    (geocoded : option Z * option Z) : M bool :=
  let place :=
    Place.mk None (Place.class form) (Place.name form) (Place.opening_days form)
      (Place.opening_time form) (Place.closing_time form) None None
      (Some request_user) None false false None Place.PENDING None in
  match geocoded with
  | (Some lat, Some lng) =>
      let place :=
        Place.mk (Place.pk place) (Place.class place) (Place.name place)
          (Place.opening_days place) (Place.opening_time place) (Place.closing_time place)
          (Some lat) (Some lng) (Place.created_by place) (Place.archived_by place)
          (Place.is_approved place) (Place.is_archived place) (Place.archived_at place)
          (Place.moderation_status place) (Place._previous_moderation_status place) in
      let* _ := places_models.save None place in
      ret true
  | _ => ret false
  end.

End places_views_submit.

(** ** reviews/spam.py

    A text is a Python [str] whose code points are below 256; the character
    classes are those of Python's [re] and [str] on that range. *)

Module reviews_spam.

Definition code (c : ascii) : nat := nat_of_ascii c.

Definition between (lo hi n : nat) : bool := (lo <=? n)%nat && (n <=? hi)%nat.

(** [\s] and [str.isspace]: tab to carriage return, the four separators
    1C-1F, space, NEL and the no-break space. *)
Definition is_space (c : ascii) : bool :=
  let n := code c in
  between 9 13 n || between 28 31 n || (n =? 32)%nat || (n =? 133)%nat || (n =? 160)%nat.

(** [\w]: alphanumeric ([str.isalnum]) or underscore. *)
Definition is_word (c : ascii) : bool :=
  let n := code c in
  between 48 57 n || between 65 90 n || between 97 122 n || (n =? 95)%nat
  || (n =? 170)%nat || (n =? 178)%nat || (n =? 179)%nat || (n =? 181)%nat
  || (n =? 185)%nat || (n =? 186)%nat || between 188 190 n
  || between 192 214 n || between 216 246 n || between 248 255 n.

(** [str.lower] on one character. *)
Definition lower_char (c : ascii) : ascii :=
  let n := code c in
  if between 65 90 n || (between 192 222 n && negb (n =? 215)%nat)
  then ascii_of_nat (n + 32)
  else c.

Fixpoint lower (s : string) : string :=
  match s with
  | EmptyString => EmptyString
  | String c rest => String (lower_char c) (lower rest)
  end.

(** [re.sub(r"[^\w\s]", "", s)]. *)
Fixpoint remove_punctuation (s : string) : string :=
  match s with
  | EmptyString => EmptyString
  | String c rest =>
      if is_word c || is_space c
      then String c (remove_punctuation rest)
      else remove_punctuation rest
  end.

(** [re.sub(r"\s+", " ", s)]: [in_run] tells that the previous character
    was whitespace, already replaced. *)
Fixpoint collapse_whitespace (in_run : bool) (s : string) : string :=
  match s with
  | EmptyString => EmptyString
  | String c rest =>
      if is_space c
      then if in_run then collapse_whitespace true rest
           else String " " (collapse_whitespace true rest)
      else String c (collapse_whitespace false rest)
  end.

Fixpoint lstrip (s : string) : string :=
  match s with
  | EmptyString => EmptyString
  | String c rest => if is_space c then lstrip rest else s
  end.

Fixpoint rstrip (s : string) : string :=
  match s with
  | EmptyString => EmptyString
  | String c rest =>
      match rstrip rest with
      | EmptyString => if is_space c then EmptyString else String c EmptyString
      | kept => String c kept
      end
  end.

Definition strip (s : string) : string := rstrip (lstrip s).

Definition normalize_text (text : string) : string :=
  strip (collapse_whitespace false (remove_punctuation (lower text))).

(** [text__iexact]: equality up to the case of ASCII letters, as the
    default database backend compares. *)
Definition ascii_fold (c : ascii) : ascii :=
  if between 65 90 (code c) then ascii_of_nat (code c + 32) else c.

Fixpoint iexact (a b : string) : bool :=
  match a, b with
  | EmptyString, EmptyString => true
  | String x a', String y b' => Ascii.eqb (ascii_fold x) (ascii_fold y) && iexact a' b'
  | _, _ => false
  end.

Definition is_empty (s : string) : bool :=
  match s with EmptyString => true | _ => false end.

(** [order_by("-created_at")]: newest first; rows of equal time keep
    their table order. *)
Fixpoint insert_newest_first (r : Review.t) (sorted : list Review.t) : list Review.t :=
  match sorted with
  | [] => [r]
  | x :: rest =>
      if Review.created_at x <=? Review.created_at r
      then r :: x :: rest
      else x :: insert_newest_first r rest
  end.

Definition newest_first (rows : list Review.t) : list Review.t :=
  fold_right insert_newest_first [] rows.

(** [Review.objects.filter(place=place, is_archived=False)]. *)
Definition live_reviews (s : Store) (place : Z) : list Review.t :=
  List.filter (fun r => (Review.place r =? place) && negb (Review.is_archived r)) (reviews s).

(** The texts the similarity loop iterates over. *)
Definition recent_texts (s : Store) (place : Z) : list string :=
  firstn 50 (map Review.text (newest_first (live_reviews s place))).

Definition exact_duplicate_exists (s : Store) (place : Z) (text : string) : bool :=
  existsb (fun r => iexact (Review.text r) text) (live_reviews s place).

Section Similarity.

(** [SequenceMatcher(None, a, b).ratio()] of the standard library's
    difflib, a binary64 float. *)
Variable ratio : string -> string -> float.

Definition too_similar (candidate existing_normalized : string) : bool :=
  let similarity := ratio candidate existing_normalized in
  (25 <=? String.length candidate)%nat
  && (25 <=? String.length existing_normalized)%nat
  && PrimFloat.leb 0.85%float similarity.

Fixpoint similarity_loop (candidate : string) (texts : list string) : bool :=
  match texts with
  | [] => false
  | existing :: rest =>
      let existing_normalized := normalize_text existing in
      if is_empty existing_normalized
      then similarity_loop candidate rest
      else if too_similar candidate existing_normalized
           then true
           else similarity_loop candidate rest
  end.

Definition is_duplicate_or_similar_review (s : Store) (place : Z) (text : string)
    : bool :=
  let candidate := normalize_text text in
  if is_empty candidate then false
  else if exact_duplicate_exists s place text then true
  else similarity_loop candidate (recent_texts s place).

End Similarity.

End reviews_spam.

(** ** places/utils.py *)

Module places_utils.

(** A decoded JSON document, as Python values: [JNull] is [None], an
    object is a [dict] in key order. *)
Inductive json :=
| JNull
| JBool (b : bool)
| JInt (n : Z)
| JFloat (f : float)
| JStr (s : string)
| JArr (items : list json)
| JObj (members : list (string * json)).

(** What [requests.get] hands back: a response with its status code and
    its body, [None] when the body is not JSON; or no response at all
    (connection error, timeout). *)
Record Response := mkResponse {
  status_code : Z;
  body : option json
}.

Inductive Exchange := NoResponse | Responded (r : Response).

Inductive pyexn :=
| RequestException | JSONDecodeError | AttributeError | KeyError | TypeError.

Inductive outcome :=
| Return (latitude longitude : json)
| Raise (e : pyexn).

(** [d.get(key)]: the value or [None]. *)
Fixpoint dict_get (members : list (string * json)) (key : string) : json :=
  match members with
  | [] => JNull
  | (k, v) :: rest => if String.eqb k key then v else dict_get rest key
  end.

(** [d[key]]. *)
Fixpoint dict_item (members : list (string * json)) (key : string) : option json :=
  match members with
  | [] => None
  | (k, v) :: rest => if String.eqb k key then Some v else dict_item rest key
  end.

(** [v != 200]. *)
Definition not_equal_200 (v : json) : bool :=
  match v with
  | JInt n => negb (n =? 200)
  | JFloat f => negb (PrimFloat.eqb f 200%float)
  | _ => true
  end.

(** [not v]. *)
Definition falsy (v : json) : bool :=
  match v with
  | JNull => true
  | JBool b => negb b
  | JInt n => n =? 0
  | JFloat f => PrimFloat.eqb f 0%float
  | JStr s => match s with EmptyString => true | _ => false end
  | JArr items => match items with [] => true | _ => false end
  | JObj members => match members with [] => true | _ => false end
  end.

Definition url_for (location_text : string) : string :=
  String.append "https://api.postcodes.io/postcodes/" location_text.

Section Geocode.

(** [requests.get(url, timeout=5)]: the network. *)
Variable requests_get : string -> Exchange.

Definition geocode_location (location_text : string) : outcome :=
  let url := url_for location_text in
  match requests_get url with
  | NoResponse => Raise RequestException
  | Responded response =>
      if negb (status_code response =? 200) then Return JNull JNull
      else
        match body response with
        | None => Raise JSONDecodeError
        | Some (JObj data) =>
            if not_equal_200 (dict_get data "status") then Return JNull JNull
            else
              let result := dict_get data "result" in
              if falsy result then Return JNull JNull
              else
                match result with
                | JObj members =>
                    match dict_item members "latitude", dict_item members "longitude" with
                    | Some latitude, Some longitude => Return latitude longitude
                    | _, _ => Raise KeyError
                    end
                | _ => Raise TypeError
                end
        | Some _ => Raise AttributeError
        end
  end.

End Geocode.

End places_utils.

(** ** places/views.py: nearby places

    Python floats are read as real numbers here, [math.sin], [cos], [asin]
    and [sqrt] as the real functions, and [float(decimal)] as exact. *)

Module places_views.

Local Open Scope R_scope.

Definition NEARBY_RADIUS_KM : Z := 12.
Definition NEARBY_LIMIT : Z := 8.

Definition radians (degrees : R) : R := degrees * (PI / 180).

Definition _haversine_km (lat1 lon1 lat2 lon2 : R) : R :=
  let lat1_rad := radians lat1 in
  let lon1_rad := radians lon1 in
  let lat2_rad := radians lat2 in
  let lon2_rad := radians lon2 in
  let delta_lat := lat2_rad - lat1_rad in
  let delta_lon := lon2_rad - lon1_rad in
  let a := (sin (delta_lat / 2)) ^ 2
           + cos lat1_rad * cos lat2_rad * (sin (delta_lon / 2)) ^ 2 in
  let c := 2 * asin (R_sqrt.sqrt a) in
  6371 * c.

(** [float(d)] of a decimal with six places, stored as millionths. *)
Definition float_of_decimal (d : Z) : R := IZR d / 1000000.

(** Rounding to the nearest integer, ties to the even one. *)
Definition round_half_even (y : R) : Z :=
  let below := Int_part y in
  let rest := frac_part y in
  if Rlt_dec rest (1 / 2) then below
  else if Rlt_dec (1 / 2) rest then (below + 1)%Z
  else if Z.even below then below else (below + 1)%Z.

(** [round(x, 1)]. *)
Definition round1 (x : R) : R := IZR (round_half_even (x * 10)) / 10.

Definition Rleb (x y : R) : bool := if Rle_dec x y then true else false.

(** [list.sort(key=lambda item: item.distance_km)]: a stable sort; an item
    is a candidate with the [distance_km] attribute put on it. *)
Fixpoint insert_by_distance (item : Place.t * R) (sorted : list (Place.t * R))
    : list (Place.t * R) :=
  match sorted with
  | [] => [item]
  | x :: rest =>
      if Rleb (snd item) (snd x)
      then item :: x :: rest
      else x :: insert_by_distance item rest
  end.

Definition sort_by_distance (items : list (Place.t * R)) : list (Place.t * R) :=
  fold_right insert_by_distance [] items.

(** [l[:limit]]: a negative limit counts from the end. *)
Definition slice_to {A} (limit : Z) (l : list A) : list A :=
  if (0 <=? limit)%Z then firstn (Z.to_nat limit) l
  else firstn (length l - Z.to_nat (- limit)) l.

Definition same_pk (a b : option Z) : bool :=
  match a, b with
  | Some x, Some y => (x =? y)%Z
  | _, _ => false
  end.

Definition has_value {A} (o : option A) : bool :=
  match o with Some _ => true | None => false end.

(** [Place.objects.filter(is_approved=True, is_archived=False,
    latitude__isnull=False, longitude__isnull=False).exclude(pk=place.pk)];
    the annotations and the prefetch only serve the template. *)
Definition nearby_candidates (s : Store) (place : Place.t) : list Place.t :=
  List.filter (fun c => Place.is_approved c && negb (Place.is_archived c)
                   && has_value (Place.latitude c) && has_value (Place.longitude c)
                   && negb (same_pk (Place.pk c) (Place.pk place)))
         (places s).

(** The distance from the reference point to a candidate; the query has
    kept only candidates with both coordinates. *)
Definition coordinate (o : option Z) : R :=
  match o with Some d => float_of_decimal d | None => 0 end.

Definition distance_to (place_lat place_lon : R) (candidate : Place.t) : R :=
  _haversine_km place_lat place_lon
    (coordinate (Place.latitude candidate)) (coordinate (Place.longitude candidate)).

(** The loop that keeps the candidates within the radius. *)
Fixpoint within_radius (place_lat place_lon : R) (radius_km : Z)
    (candidates : list Place.t) : list (Place.t * R) :=
  match candidates with
  | [] => []
  | candidate :: rest =>
      let distance_km := distance_to place_lat place_lon candidate in
      if Rleb distance_km (IZR radius_km)
      then (candidate, round1 distance_km) :: within_radius place_lat place_lon radius_km rest
      else within_radius place_lat place_lon radius_km rest
  end.

Definition _get_nearby_places (s : Store) (place : Place.t)
    (radius_km : Z) (limit : Z) : list (Place.t * R) :=
  match Place.latitude place, Place.longitude place with
  | Some latitude, Some longitude =>
      let place_lat := float_of_decimal latitude in
      let place_lon := float_of_decimal longitude in
      let nearby_with_distance :=
        within_radius place_lat place_lon radius_km (nearby_candidates s place) in
      slice_to limit (sort_by_distance nearby_with_distance)
  | _, _ => []
  end.

(** A list of results is in ascending order of a key. *)
Fixpoint ascending_by {A} (key : A -> R) (l : list A) : Prop :=
  match l with
  | [] => True
  | x :: rest => (forall y, In y rest -> key x <= key y) /\ ascending_by key rest
  end.

End places_views.

(** ** The operations of the subsystem

    The entry points of the moderation and contribution workflow, each as
    one operation: the sign-up signal and the contribution lookup, place
    submission, the place admin (save, its four actions, delete), the
    opening-hours edit, review submission and reporting, the review admin
    (save, its four actions, delete) and the two actions of the report
    admin. A history is a sequence of these from the empty database.

    Two entry points that delete rows are not among them.
    [DeleteAccountView.post] calls [user.delete()], which removes the
    user's contribution, reviews, reports and likes (CASCADE) and sets
    [created_by], [archived_by] and the log's [actor] to NULL where they
    name the user (SET_NULL). The admin of [ModerationLog] disables add and
    change but not delete. What is proved over operations or over reachable
    databases is proved of the operations listed here. *)

Inductive Operation :=
| Tick (t : Z)
| UserCreated (u : user_id)
| ContributionLookup (u : user_id)
| AddPlace (request_user : user_id) (form : Place.t) (geocoded : option Z * option Z)
| AdminSavePlace (obj : Place.t)
| ApprovePlaces (request_user : user_id) (queryset : Place.t -> bool)
| RejectPlaces (request_user : user_id) (queryset : Place.t -> bool)
| ArchivePlaces (request_user : user_id) (queryset : Place.t -> bool)
| RestorePlaces (request_user : user_id) (queryset : Place.t -> bool)
| AdminDeletePlace (request_user : user_id) (k : Z)
| AdminDeletePlaces (request_user : user_id) (queryset : Place.t -> bool)
| EditOpeningHours (k : Z) (opening_days : string) (opening_time closing_time : option Z)
| SubmitReview (request_user : option user_id) (place_pk : Z) (text : string) (rating : Z)
| AdminSaveReview (obj : Review.t)
| ReportReview (request_user : user_id) (review_id : Z) (reason : string)
| UpholdReviews (request_user : user_id) (queryset : Review.t -> bool)
| DismissReviews (request_user : user_id) (queryset : Review.t -> bool)
| ArchiveReviews (request_user : user_id) (queryset : Review.t -> bool)
| RestoreReviews (request_user : user_id) (queryset : Review.t -> bool)
| AdminDeleteReview (request_user : user_id) (k : Z)
| AdminDeleteReviews (request_user : user_id) (queryset : Review.t -> bool)
| MarkReportsUpheld (queryset : ReviewReport.t -> bool)
| MarkReportsDismissed (queryset : ReviewReport.t -> bool).

Definition discard {A} (m : M A) : M unit := let* _ := m in ret tt.

Definition run_op (op : Operation) : M unit :=
  match op with
  | Tick t => modify (with_clock t)
  | UserCreated u => accounts_signals.create_contribution u true
  | ContributionLookup u => discard (ContributionObjects.get_or_create u)
  | AddPlace request_user form geocoded =>
      discard (places_views_submit.add_place request_user form geocoded)
  | AdminSavePlace obj => discard (places_admin.save_model obj)
  | ApprovePlaces request_user queryset => places_admin.approve_places request_user queryset
  | RejectPlaces request_user queryset => places_admin.reject_places request_user queryset
  | ArchivePlaces request_user queryset => places_admin.archive_places request_user queryset
  | RestorePlaces request_user queryset => places_admin.restore_places request_user queryset
  | AdminDeletePlace request_user k =>
      let* found := gets (fun s => find (Place.has_pk k) (places s)) in
      match found with
      | Some obj => places_admin.delete_model request_user obj
      | None => ret tt
      end
  | AdminDeletePlaces request_user queryset =>
      places_admin.delete_queryset request_user queryset
  | EditOpeningHours k opening_days opening_time closing_time =>
      let* found :=
        gets (fun s =>
          find (fun p => Place.has_pk k p && Place.is_approved p && negb (Place.is_archived p))
               (places s)) in
      match found with
      | Some place =>
          discard (places_forms.PlaceOpeningHoursForm_save place opening_days
                     opening_time closing_time true)
      | None => ret tt
      end
  | SubmitReview request_user place_pk text rating =>
      discard (reviews_views._save_review request_user place_pk
                 (reviews_views.form_instance text rating))
  | AdminSaveReview obj => discard (reviews_models.save None obj)
  | ReportReview request_user review_id reason =>
      discard (reviews_views.report_review request_user review_id reason)
  | UpholdReviews request_user queryset =>
      reviews_admin.uphold_reported_reviews request_user queryset
  | DismissReviews request_user queryset =>
      reviews_admin.dismiss_reported_reviews request_user queryset
  | ArchiveReviews request_user queryset =>
      reviews_admin.archive_reviews request_user queryset
  | RestoreReviews request_user queryset =>
      reviews_admin.restore_reviews request_user queryset
  | AdminDeleteReview request_user k =>
      let* found := gets (fun s => find (Review.has_pk k) (reviews s)) in
      match found with
      | Some obj => reviews_admin.delete_model request_user obj
      | None => ret tt
      end
  | AdminDeleteReviews request_user queryset =>
      reviews_admin.delete_queryset request_user queryset
  | MarkReportsUpheld queryset => reviews_admin.mark_upheld queryset
  | MarkReportsDismissed queryset => reviews_admin.mark_dismissed queryset
  end.

(** The database after an operation, whether it completed or raised. *)
Definition apply_op (op : Operation) (s : Store) : Store := final (run_op op s).

Definition apply_ops (ops : list Operation) (s : Store) : Store :=
  fold_left (fun s op => apply_op op s) ops s.

Inductive reachable : Store -> Prop :=
| reachable_empty : reachable empty_store
| reachable_step s op : reachable s -> reachable (apply_op op s).

(** ** Specification-side notions *)

(** The stored flag of a place agrees with its stored status. *)
Definition in_sync (row : Place.t) : Prop :=
  Place.is_approved row
  = Place.ModerationStatus_eqb (Place.moderation_status row) Place.APPROVED.

(** The contribution of a user, a missing row counting as the defaults
    that [get_or_create] would insert. *)
Definition contribution_of (s : Store) (u : user_id) : Contribution.t :=
  default Contribution.default (contributions s !! u).

(** The user is barred from posting reviews. *)
Definition restricted (s : Store) (u : user_id) : Prop :=
  exists c, contributions s !! u = Some c /\ Contribution.review_restriction_active c = true.

(** The status stored for an instance before it is saved. *)
Definition previously_stored_status (s : Store) (instance : Place.t)
    : option Place.ModerationStatus :=
  match places_signals.pk_truthy (Place.pk instance) with
  | Some k => option_map Place.moderation_status (find (Place.has_pk k) (places s))
  | None => None
  end.

(** Hoare triples for database code: from a store satisfying [P], the
    computation returns a value and store satisfying [Q], or raises in a
    store satisfying [E]. *)
Definition hoare {A} (P : Store -> Prop) (m : M A)
    (Q : A -> Store -> Prop) (E : Store -> Prop) : Prop :=
  forall s, P s ->
    match m s with
    | Returned a s' => Q a s'
    | Raised _ s' => E s'
    end.

(** The computation keeps [I] true, whatever its outcome. *)
Definition preserves {A} (I : Store -> Prop) (m : M A) : Prop :=
  hoare I m (fun _ => I) I.

(** The computation leaves a component of the store as it was, whatever
    its outcome. *)
Definition keeps {X A} (proj : Store -> X) (m : M A) : Prop :=
  forall s, proj (final (m s)) = proj s.

(** The three ledger transitions: what the code assigns to a contribution
    when a place is newly approved, when a review is created, and when a
    report against the user's review is upheld. *)
Definition place_award (c : Contribution.t) : Contribution.t :=
  Contribution.mk (Contribution.places_added c + 1) (Contribution.reviews_added c)
    (Contribution.points c + 50) (Contribution.upheld_reports_count c)
    (Contribution.review_restriction_active c).

Definition review_award (c : Contribution.t) : Contribution.t :=
  Contribution.mk (Contribution.places_added c) (Contribution.reviews_added c + 1)
    (Contribution.points c + 10) (Contribution.upheld_reports_count c)
    (Contribution.review_restriction_active c).

Definition upheld_penalty (c : Contribution.t) : Contribution.t :=
  Contribution.mk (Contribution.places_added c) (Contribution.reviews_added c)
    (Z.max 0 (Contribution.points c - 30)) (Contribution.upheld_reports_count c + 1)
    (if 3 <=? Contribution.upheld_reports_count c + 1
     then true else Contribution.review_restriction_active c).

Inductive ledger_update : Contribution.t -> Contribution.t -> Prop :=
| ledger_place_award c : ledger_update c (place_award c)
| ledger_review_award c : ledger_update c (review_award c)
| ledger_upheld_penalty c : ledger_update c (upheld_penalty c).

(** Rows of the place table that share a primary key are one and the same
    row, and every stored flag agrees with its status. *)
Definition rows_agree_on_pk (rows : list Place.t) : Prop :=
  forall r1 r2, In r1 rows -> In r2 rows -> Place.pk r1 = Place.pk r2 -> r1 = r2.

Definition rows_consistent (rows : list Place.t) : Prop :=
  (forall row, In row rows -> in_sync row) /\ rows_agree_on_pk rows.

Definition places_consistent (s : Store) : Prop := rows_consistent (places s).

(** What [Place.save] passes on to [Model.save]. *)
Definition resynchronized (self : Place.t) : Place.t :=
  Place.set_is_approved
    (Place.ModerationStatus_eqb (Place.moderation_status self) Place.APPROVED) self.

(** The columns a save writes on update: the listed ones, or all. *)
Definition written_fields (update_fields : option (list Place.Field)) : list Place.Field :=
  match update_fields with Some fields => fields | None => Place.all_fields end.

Definition update_place_rows (fields : list Place.Field) (k : Z) (instance : Place.t)
    (rows : list Place.t) : list Place.t :=
  map (fun row => if Place.has_pk k row
                  then Place.update_columns fields instance row else row) rows.

(** The columns a save may write without breaking the agreement of flag and
    status: the flag together with the status, or neither; the flag alone
    when the instance carries the stored status. *)
Definition write_keeps_sync (update_fields : option (list Place.Field)) (self : Place.t)
    (rows : list Place.t) : Prop :=
  match update_fields with
  | None => True
  | Some fields =>
      (Place.listed Place.F_moderation_status fields = true ->
       Place.listed Place.F_is_approved fields = true)
      /\ (Place.listed Place.F_is_approved fields = true ->
          Place.listed Place.F_moderation_status fields = false ->
          forall row, In row rows -> Place.pk row = Place.pk self ->
                      Place.moderation_status row = Place.moderation_status self)
  end.

(** The instances a loop has still to process carry the status stored
    under their primary key. *)
Definition carry_stored_status (instances : list Place.t) (s : Store) : Prop :=
  forall p, In p instances ->
  forall row, In row (places s) -> Place.pk row = Place.pk p ->
              Place.moderation_status row = Place.moderation_status p.


(** The instance the loop body of [uphold_reported_reviews] saves, the
    ledger after its penalty step, and the columns it writes. *)
Definition upheld_instance (review : Review.t) : Review.t :=
  let hidden := Review.set_reported false (Review.set_is_approved false review) in
  match Review.user review with
  | Some _ =>
      if negb (Review.moderation_penalty_applied review)
      then Review.set_moderation_penalty_applied true hidden
      else hidden
  | None => hidden
  end.

Definition upheld_ledger (review : Review.t) (s : Store) : gmap Z Contribution.t :=
  match Review.user review with
  | Some u =>
      if negb (Review.moderation_penalty_applied review)
      then <[u := upheld_penalty (contribution_of s u)]> (contributions s)
      else contributions s
  | None => contributions s
  end.

Definition uphold_fields : list Review.Field :=
  [Review.F_is_approved; Review.F_reported; Review.F_moderation_penalty_applied].

(** ** Further notions used by the properties *)

(** The user has a review of the place that is not archived: what the
    constraint [one_review_per_user_per_place] forbids a second of. *)
Definition has_live_review (s : Store) (u : user_id) (place_pk : Z) : bool :=
  existsb (fun r => negb (Review.is_archived r) && (Review.place r =? place_pk)
                    && reviews_models.opt_Z_eqb (Review.user r) (Some u))
          (reviews s).

(** No stored place has the primary key 0, which [if instance.pk:] takes
    for a missing one. *)
Definition no_zero_pk (rows : list Place.t) : Prop :=
  forall row, In row rows -> Place.pk row <> Some 0.

(** The database after the post-save handler of a place has run on the
    saved instance. *)
Definition after_place_award (instance : Place.t) (s : Store) : Store :=
  if places_signals.is_approved_status (Place._previous_moderation_status instance)
  then s
  else if negb (Place.ModerationStatus_eqb (Place.moderation_status instance) Place.APPROVED)
  then s
  else match Place.created_by instance with
       | None => s
       | Some u =>
           with_contributions
             (<[u := place_award (contribution_of s u)]> (contributions s)) s
       end.

(** The instance [Place.save] hands to the database: the pre-save handler
    has put the stored status on it and the flag is recomputed. *)
Definition saved_instance (s : Store) (self : Place.t) : Place.t :=
  Place.set_previous_moderation_status (previously_stored_status s self)
    (resynchronized self).

(** The rows [approve_places] selects from a queryset. *)
Definition approvable (queryset : Place.t -> bool) (p : Place.t) : bool :=
  queryset p && negb (Place.ModerationStatus_eqb (Place.moderation_status p) Place.APPROVED).

(** The pair a report is unique on, and the existing report
    [get_or_create(review=..., reporter=...)] looks for. *)
Definition report_key (rep : ReviewReport.t) : Z * user_id :=
  (ReviewReport.review rep, ReviewReport.reporter rep).

Definition existing_report (s : Store) (review_id : Z) (reporter : user_id)
    : option ReviewReport.t :=
  find (fun rep => (ReviewReport.review rep =? review_id) &&
                   (ReviewReport.reporter rep =? reporter)) (reports s).

(** What the report table holds apart from the statuses. *)
Definition report_facts (s : Store) : list (Z * user_id * string) :=
  map (fun rep => (report_key rep, ReviewReport.reason rep)) (reports s).

(** Reports are unique on (review, reporter) and their reasons fit the
    column. *)
Definition reports_well_formed (facts : list (Z * user_id * string)) : Prop :=
  List.NoDup (map fst facts) /\ forall fact, In fact facts -> (String.length (snd fact) <= 255)%nat.

(** The computation only appends to the moderation log, whatever its
    outcome. *)
Definition appends_to_log {A} (m : M A) : Prop :=
  forall s, exists entries,
    moderation_log (final (m s)) = moderation_log s ++ entries.

(** The review table has a primary key on every row, no primary key
    twice, and at most one review that is not archived for a place and a
    signed-in user. *)
Definition reviews_well_formed (rows : list Review.t) : Prop :=
  (forall r, In r rows -> Review.pk r <> None)
  /\ List.NoDup (map Review.pk rows)
  /\ forall r1 r2 u,
       In r1 rows -> In r2 rows ->
       Review.is_archived r1 = false -> Review.is_archived r2 = false ->
       Review.place r1 = Review.place r2 ->
       Review.user r1 = Some u -> Review.user r2 = Some u ->
       Review.pk r1 = Review.pk r2.

(** A text in normal form: lower-case word characters and single spaces;
    [after_space] tells that the character before was a space. *)
Fixpoint tidy (after_space : bool) (text : string) : bool :=
  match text with
  | EmptyString => true
  | String c rest =>
      if reviews_spam.is_space c
      then Ascii.eqb c " " && negb after_space && tidy true rest
      else reviews_spam.is_word c && Ascii.eqb (reviews_spam.lower_char c) c
           && tidy false rest
  end.

(** ** accounts/models.py: Contribution.level_progress_percent *)

Module ContributionProgress.

(** The loop [for threshold, ... in LEVELS: if points >= threshold:
    current_threshold = threshold; elif next_threshold is None:
    next_threshold = threshold; break]. *)
Fixpoint scan_thresholds (pts : Z) (levels : list (Z * string * string))
    (current_threshold : Z) : Z * option Z :=
  match levels with
  | [] => (current_threshold, None)
  | row :: rest =>
      let threshold := fst (fst row) in
      if threshold <=? pts
      then scan_thresholds pts rest threshold
      else (current_threshold, Some threshold)
  end.

(** The binary64 float of a Python int; exact below 2^53 in absolute
    value, which covers every operand the method converts: they are
    differences of entries of [LEVELS] and the points between them. *)
Definition float_of_int (z : Z) : float :=
  if z <? 0
  then PrimFloat.opp (PrimFloat.of_uint63 (Uint63.of_Z (- z)))
  else PrimFloat.of_uint63 (Uint63.of_Z z).

(** [int(x)] of a float: truncation towards zero; [None] stands for the
    [OverflowError] or [ValueError] Python raises on an infinity or NaN. *)
Definition int_of_float (x : float) : option Z :=
  match Prim2SF x with
  | S754_zero _ => Some 0
  | S754_finite sign m e =>
      let magnitude := if 0 <=? e then Z.pos m * 2 ^ e else Z.pos m / 2 ^ (- e) in
      Some (if sign then - magnitude else magnitude)
  | S754_infinity _ => None
  | S754_nan => None
  end.

Definition level_progress_percent (self : Contribution.t) : option Z :=
  let points := Contribution.points self in
  let (current_threshold, next_threshold) :=
    scan_thresholds points Contribution.LEVELS 0 in
  match next_threshold with
  | None => Some 100
  | Some next_threshold =>
      let span := next_threshold - current_threshold in
      if span <=? 0 then Some 100
      else int_of_float
             (PrimFloat.mul
                (PrimFloat.div (float_of_int (points - current_threshold))
                   (float_of_int span))
                (float_of_int 100))
  end.

(** The percentage in exact integer arithmetic, rounded down. *)
Definition exact_progress_percent (self : Contribution.t) : Z :=
  let points := Contribution.points self in
  match scan_thresholds points Contribution.LEVELS 0 with
  | (current_threshold, Some next_threshold) =>
      100 * (points - current_threshold) / (next_threshold - current_threshold)
  | (_, None) => 100
  end.

End ContributionProgress.

(** ** The session

    The keys of [request.session] that the review code reads and writes,
    each with the type of value the code stores under it; [None] is a key
    that is absent. *)

From Stdlib Require Import DecimalString.

Module Session.

Record t := mk {
  review_captcha_required : option bool;
  review_captcha_answer : option string;
  review_captcha_question : option string;
  guest_reviewed_places : option (list Z)
}.

Definition empty : t := mk None None None None.

Definition set_review_captcha_required (v : option bool) (session : t) : t :=
  mk v (review_captcha_answer session) (review_captcha_question session)
     (guest_reviewed_places session).

Definition set_review_captcha_answer (v : option string) (session : t) : t :=
  mk (review_captcha_required session) v (review_captcha_question session)
     (guest_reviewed_places session).

Definition set_review_captcha_question (v : option string) (session : t) : t :=
  mk (review_captcha_required session) (review_captcha_answer session) v
     (guest_reviewed_places session).

Definition set_guest_reviewed_places (v : option (list Z)) (session : t) : t :=
  mk (review_captcha_required session) (review_captcha_answer session)
     (review_captcha_question session) v.

End Session.

(** ** reviews/spam.py: the session CAPTCHA *)

Module reviews_captcha.

(** [str(n)] of an int. *)
Definition str (n : Z) : string := NilZero.string_of_int (Z.to_int n).

(** [get_or_create_captcha]; [randint] holds the two draws
    [random.randint(2, 9)] and [random.randint(1, 8)], used when a new
    question is made. *)
Definition get_or_create_captcha (randint : Z * Z) (session : Session.t)
    : (bool * string) * Session.t :=
  let required :=
    match Session.review_captcha_required session with Some b => b | None => false end in
  if negb required then ((false, ""), session)
  else
    match Session.review_captcha_question session with
    | Some (String c rest) => ((true, String c rest), session)
    | _ =>
        let (a, b) := randint in
        let session := Session.set_review_captcha_answer (Some (str (a + b))) session in
        let question := ("What is " ++ str a ++ " + " ++ str b ++ "?")%string in
        let session := Session.set_review_captcha_question (Some question) session in
        ((true, question), session)
    end.

Definition require_captcha (session : Session.t) : Session.t :=
  let session := Session.set_review_captcha_required (Some true) session in
  let session := Session.set_review_captcha_question None session in
  Session.set_review_captcha_answer None session.

Definition validate_captcha (session : Session.t) (submitted_answer : string)
    : bool * Session.t :=
  let expected :=
    reviews_spam.strip
      (match Session.review_captcha_answer session with Some a => a | None => "" end) in
  if negb (reviews_spam.is_empty expected)
     && String.eqb (reviews_spam.strip submitted_answer) expected
  then
    let session := Session.set_review_captcha_required (Some false) session in
    let session := Session.set_review_captcha_question None session in
    (true, Session.set_review_captcha_answer None session)
  else (false, session).

End reviews_captcha.

(** ** reviews/views.py: AddReviewView.post

    The messages put on the request are left out; the response tells which
    branch answered. The cleaned data of a valid form is an input. *)

Module reviews_views_post.

Inductive restriction := Restricted | AlreadyReviewed | GuestLimit | TooSimilar.

Inductive response :=
| NotFound
| RateLimited
| CaptchaFailed
| Refused (why : restriction)
| DuplicateOnSave
| Submitted
| FormErrors.

Record cleaned_data := mk_cleaned {
  text : string;
  rating : Z;
  captcha_answer : string
}.

(** [place.id in reviewed_places] *)
Definition contains (place_id : Z) (reviewed_places : list Z) : bool :=
  existsb (Z.eqb place_id) reviewed_places.

Definition guest_list (session : Session.t) : list Z :=
  match Session.guest_reviewed_places session with Some l => l | None => [] end.

Section Views.

Variable ratio : string -> string -> float.

Definition _enforce_review_restrictions (request_user : option user_id)
    (session : Session.t) (place_pk : Z) (review_text : string)
    : M (option restriction) :=
  let* refused :=
    match request_user with
    | Some u =>
        let* contribution := ContributionObjects.get_or_create u in
        if Contribution.review_restriction_active contribution
        then ret (Some Restricted)
        else
          let* exists_ :=
            gets (fun s =>
              existsb (fun r => (Review.place r =? place_pk)
                                && reviews_models.opt_Z_eqb (Review.user r) (Some u)
                                && negb (Review.is_archived r)) (reviews s)) in
          if exists_ then ret (Some AlreadyReviewed) else ret None
    | None =>
        let reviewed_places := guest_list session in
        if contains place_pk reviewed_places then ret (Some GuestLimit) else ret None
    end in
  match refused with
  | Some why => ret (Some why)
  | None =>
      let* similar :=
        gets (fun s =>
          reviews_spam.is_duplicate_or_similar_review ratio s place_pk review_text) in
      if similar then ret (Some TooSimilar) else ret None
  end.

(** [_save_review] with its session part: a guest's place is appended to
    the session list after a successful save. *)
Definition _save_review (request_user : option user_id) (session : Session.t)
    (place_pk : Z) (form : cleaned_data) : M (response * Session.t) :=
  let* saved :=
    reviews_views._save_review request_user place_pk
      (reviews_views.form_instance (text form) (rating form)) in
  if negb saved then ret (DuplicateOnSave, session)
  else
    match request_user with
    | Some _ => ret (Submitted, session)
    | None =>
        let reviewed_places := guest_list session in
        if negb (contains place_pk reviewed_places)
        then ret (Submitted,
                  Session.set_guest_reviewed_places (Some (reviewed_places ++ [place_pk]))
                    session)
        else ret (Submitted, session)
    end.

(** [AddReviewView.post]; [limited] is [request.limited], set by the rate
    limiter, and [form] the cleaned data when [form.is_valid()]. *)
Definition post (limited : bool) (randint : Z * Z) (request_user : option user_id)
    (session : Session.t) (place_id : Z) (form : option cleaned_data)
    : M (response * Session.t) :=
  let* place :=
    gets (fun s =>
      find (fun p => Place.has_pk place_id p && negb (Place.is_archived p)) (places s)) in
  match place with
  | None => ret (NotFound, session)
  | Some _ =>
      if limited
      then ret (RateLimited, reviews_captcha.require_captcha session)
      else
        let '((captcha_required, _captcha_question), session) :=
          reviews_captcha.get_or_create_captcha randint session in
        match form with
        | None => ret (FormErrors, session)
        | Some form =>
            let '(valid_answer, checked_session) :=
              if captcha_required
              then reviews_captcha.validate_captcha session (captcha_answer form)
              else (true, session) in
            if captcha_required && negb valid_answer
            then ret (CaptchaFailed, checked_session)
            else
              let session := checked_session in
              let* restriction_response :=
                _enforce_review_restrictions request_user session place_id (text form) in
              match restriction_response with
              | Some why => ret (Refused why, session)
              | None => _save_review request_user session place_id form
              end
        end
  end.

End Views.

End reviews_views_post.

(** ** places/views.py: PlaceDetailView._enforce_review_restrictions *)

Module places_views_reviews.

Import reviews_views_post.

Section Views.

Variable ratio : string -> string -> float.

Definition _enforce_review_restrictions (request_user : option user_id)
    (session : Session.t) (place_pk : Z) (review_text : string)
    : M (option restriction) :=
  let* refused :=
    match request_user with
    | Some u =>
        let* contribution := ContributionObjects.get_or_create u in
        if Contribution.review_restriction_active contribution
        then ret (Some Restricted)
        else
          let* exists_ :=
            gets (fun s =>
              existsb (fun r => (Review.place r =? place_pk)
                                && reviews_models.opt_Z_eqb (Review.user r) (Some u))
                      (reviews s)) in
          if exists_ then ret (Some AlreadyReviewed) else ret None
    | None =>
        let reviewed_places := guest_list session in
        if contains place_pk reviewed_places then ret (Some GuestLimit) else ret None
    end in
  match refused with
  | Some why => ret (Some why)
  | None =>
      let* similar :=
        gets (fun s =>
          reviews_spam.is_duplicate_or_similar_review ratio s place_pk review_text) in
      if similar then ret (Some TooSimilar) else ret None
  end.

End Views.

End places_views_reviews.

(** ** places/models.py: opening days and hours

    A time of day is an integer, as in [Place.t]; the category of a place,
    a column [Place.t] does not carry, is passed beside the place. *)

Module places_hours.

(** [s.split(sep)] for a separator of one character. *)
Fixpoint split (sep : ascii) (s : string) : list string :=
  match s with
  | EmptyString => [EmptyString]
  | String c rest =>
      if Ascii.eqb c sep then EmptyString :: split sep rest
      else match split sep rest with
           | head :: tail => String c head :: tail
           | [] => [String c EmptyString]
           end
  end.

(** [sep.join(parts)]. *)
Fixpoint join (sep : string) (parts : list string) : string :=
  match parts with
  | [] => EmptyString
  | [part] => part
  | part :: rest => (part ++ sep ++ join sep rest)%string
  end.

(** [s.replace(" ", "")]. *)
Fixpoint remove_spaces (s : string) : string :=
  match s with
  | EmptyString => EmptyString
  | String c rest =>
      if Ascii.eqb c " " then remove_spaces rest else String c (remove_spaces rest)
  end.

(** ["-" in part]. *)
Fixpoint contains_char (c : ascii) (s : string) : bool :=
  match s with
  | EmptyString => false
  | String x rest => Ascii.eqb x c || contains_char c rest
  end.

(** [part.split("-", 1)] of a part that contains the separator: the text
    before its first occurrence and the text after it. *)
Fixpoint split_once (sep : ascii) (s : string) : string * string :=
  match s with
  | EmptyString => (EmptyString, EmptyString)
  | String c rest =>
      if Ascii.eqb c sep then (EmptyString, rest)
      else let (before, after) := split_once sep rest in (String c before, after)
  end.

(** [range(a, b)]. *)
Definition range (a b : Z) : list Z :=
  map (fun i => a + Z.of_nat i) (seq 0 (Z.to_nat (b - a))).

Definition token_to_day : list (string * Z) :=
  [("mon", 0); ("tue", 1); ("wed", 2); ("thu", 3); ("fri", 4); ("sat", 5); ("sun", 6)].

(** [dict.get(key)]. *)
Fixpoint get (d : list (string * Z)) (key : string) : option Z :=
  match d with
  | [] => None
  | (k, v) :: rest => if String.eqb k key then Some v else get rest key
  end.

Definition _parse_day_token (token : string) : option Z :=
  get token_to_day (String.substring 0 3 (reviews_spam.lower (reviews_spam.strip token))).

(** One pass of the loop over the parts; [allowed_days] lists the days the
    set holds, in the order they were added. *)
Definition add_part (allowed_days : list Z) (part : string) : list Z :=
  if contains_char "-" part
  then
    let (start_raw, end_raw) := split_once "-" part in
    match _parse_day_token start_raw, _parse_day_token end_raw with
    | Some start_day, Some end_day =>
        if start_day <=? end_day
        then allowed_days ++ range start_day (end_day + 1)
        else (allowed_days ++ range start_day 7) ++ range 0 (end_day + 1)
    | _, _ => allowed_days
    end
  else
    match _parse_day_token part with
    | Some day => allowed_days ++ [day]
    | None => allowed_days
    end.

Definition _is_open_today_by_days (self : Place.t) (weekday : Z) : bool :=
  if reviews_spam.is_empty (Place.opening_days self) then true
  else
    let raw := remove_spaces (reviews_spam.lower (Place.opening_days self)) in
    if String.eqb raw "mon-sun" || String.eqb raw "daily" || String.eqb raw "everyday"
    then true
    else
      let allowed_days := fold_left add_part (split "," raw) [] in
      match allowed_days with
      | [] => true
      | _ => existsb (Z.eqb weekday) allowed_days
      end.

Definition has_opening_hours (self : Place.t) : bool :=
  match Place.opening_time self, Place.closing_time self with
  | Some _, Some _ => true
  | _, _ => false
  end.

Definition supports_opening_hours (category : string) : bool :=
  negb (String.eqb category "beach").

(** [is_open_now]; [weekday] and [now_time] are those of
    [timezone.localtime()]. [None] is Python's [None]. *)
Definition is_open_now (category : string) (self : Place.t) (weekday now_time : Z)
    : option bool :=
  if negb (supports_opening_hours category) || negb (has_opening_hours self) then None
  else
    match Place.opening_time self, Place.closing_time self with
    | Some opening_time, Some closing_time =>
        if negb (_is_open_today_by_days self weekday) then Some false
        else if opening_time <=? closing_time
             then Some ((opening_time <=? now_time) && (now_time <=? closing_time))
             else Some ((opening_time <=? now_time) || (now_time <=? closing_time))
    | _, _ => None
    end.

End places_hours.

(** ** places/forms.py: the opening hours a form hands on *)

Module places_forms_hours.

Definition DAY_CHOICES : list (string * string) :=
  [("mon", "Mon"); ("tue", "Tue"); ("wed", "Wed"); ("thu", "Thu"); ("fri", "Fri");
   ("sat", "Sat"); ("sun", "Sun")].

Inductive cleaned (A : Type) :=
| Cleaned (data : A)
| ValidationError
| StrptimeValueError.
Arguments Cleaned {A} data.
Arguments ValidationError {A}.
Arguments StrptimeValueError {A}.

Section Clean.

(** [datetime.strptime(value, "%H:%M").time()], [None] when it raises
    [ValueError]. *)
Variable strptime_time : string -> option Z.

Definition _parse_time_value (value : string) : cleaned (option Z) :=
  if reviews_spam.is_empty value then Cleaned None
  else match strptime_time value with
       | Some t => Cleaned (Some t)
       | None => StrptimeValueError
       end.

(** [PlaceOpeningHoursForm.clean], from the cleaned fields to the three
    values it adds to the cleaned data. *)
Definition PlaceOpeningHoursForm_clean (days : list string)
    (opening_time_raw closing_time_raw : string)
    : cleaned (string * option Z * option Z) :=
  let has_hours_input :=
    negb (match days with [] => true | _ => false end)
    || negb (reviews_spam.is_empty opening_time_raw)
    || negb (reviews_spam.is_empty closing_time_raw) in
  if has_hours_input
     && (reviews_spam.is_empty opening_time_raw || reviews_spam.is_empty closing_time_raw)
  then ValidationError
  else
    let opening_days := places_hours.join "," days in
    match _parse_time_value opening_time_raw with
    | Cleaned opening_time =>
        match _parse_time_value closing_time_raw with
        | Cleaned closing_time => Cleaned (opening_days, opening_time, closing_time)
        | ValidationError => ValidationError
        | StrptimeValueError => StrptimeValueError
        end
    | ValidationError => ValidationError
    | StrptimeValueError => StrptimeValueError
    end.

End Clean.

(** [PlaceOpeningHoursForm.__init__]: the initial value of the day
    checkboxes; [None] when the instance is not saved or has no opening
    days, and the initial value is left as it is. *)
Definition initial_opening_days_list (instance : Place.t) : option (list string) :=
  match places_signals.pk_truthy (Place.pk instance) with
  | None => None
  | Some _ =>
      if reviews_spam.is_empty (Place.opening_days instance) then None
      else Some (List.filter (fun d => negb (reviews_spam.is_empty d))
                   (places_hours.split "," (Place.opening_days instance)))
  end.

End places_forms_hours.

(** A value the day checkboxes can submit. *)
Definition is_day_value (d : string) : Prop :=
  In d (map fst places_forms_hours.DAY_CHOICES).

(** ** places/views.py: ToggleLikeView.post

    The table of likes is kept beside the database of the moderation
    code, which does not read it. *)

Module places_likes.

Record PlaceLike := mk {
  user : user_id;
  place : Z;
  created_at : Z
}.

(** [PlaceLike.objects.filter(place=place, user=request.user)] as a row
    filter. *)
Definition like_qs (request_user : user_id) (place_pk : Z) (like : PlaceLike) : bool :=
  (place like =? place_pk) && (user like =? request_user).

(** [place.likes_count]. *)
Definition likes_count (likes : list PlaceLike) (place_pk : Z) : Z :=
  Z.of_nat (length (List.filter (fun like => place like =? place_pk) likes)).

(** [ToggleLikeView.post]: [None] is the 404 of [get_object_or_404];
    otherwise the [liked] and [likes_count] of the JSON answer and the
    table of likes afterwards. *)
Definition post (s : Store) (likes : list PlaceLike) (request_user : user_id) (pk : Z)
    : option (bool * Z * list PlaceLike) :=
  match find (fun p => Place.has_pk pk p && Place.is_approved p
                       && negb (Place.is_archived p)) (places s) with
  | None => None
  | Some _ =>
      if existsb (like_qs request_user pk) likes
      then
        let likes := List.filter (fun like => negb (like_qs request_user pk like)) likes in
        Some (false, likes_count likes pk, likes)
      else
        let likes := likes ++ [mk request_user pk (clock s)] in
        Some (true, likes_count likes pk, likes)
  end.

End places_likes.

(** ** places/migrations/0009_place_moderation_status.py *)

Module places_migration_0009.

(** [backfill_moderation_status]: two [update]s in a row on the place
    table, whose rows have the new column at its default. *)
Definition backfill_moderation_status (rows : list Place.t) : list Place.t :=
  let rows :=
    map (fun p => if Place.is_approved p
                  then Place.set_moderation_status Place.APPROVED p else p) rows in
  map (fun p => if negb (Place.is_approved p)
                then Place.set_moderation_status Place.PENDING p else p) rows.

End places_migration_0009.

(** ** places/views.py: query parameters of the review list and the search *)

Module places_views_params.

Section Params.

(** Python's [int] on a string; [None] when it raises [ValueError]. *)
Variable int : string -> option Z.

Definition ALLOWED_PER_PAGE : list Z := [5; 10; 20].

(** [per_page_raw or default]. *)
Definition or_default (raw : option string) (default : string) : string :=
  match raw with
  | Some (String c rest) => String c rest
  | _ => default
  end.

(** [PlaceDetailView._parse_per_page]. *)
Definition PlaceDetailView_parse_per_page (per_page_raw : option string) : Z :=
  let per_page :=
    match int (or_default per_page_raw "5") with
    | Some n => n
    | None => 5
    end in
  if existsb (Z.eqb per_page) ALLOWED_PER_PAGE then per_page else 5.

(** [SearchPlacesView._parse_per_page]. *)
Definition SearchPlacesView_parse_per_page (per_page_raw : option string) : Z :=
  let per_page :=
    match int (or_default per_page_raw "12") with
    | Some n => n
    | None => 12
    end in
  if existsb (Z.eqb per_page) [6; 12; 24] then per_page else 12.

(** [PlaceDetailView._apply_rating_filter] on the reviews a queryset
    stands for. *)
Definition _apply_rating_filter (reviews_qs : list Review.t)
    (rating_filter_raw : option string) : list Review.t * option Z :=
  match rating_filter_raw with
  | Some (String c rest) =>
      match int (String c rest) with
      | Some parsed =>
          if (1 <=? parsed) && (parsed <=? 5)
          then (List.filter (fun r => Review.rating r =? parsed) reviews_qs, Some parsed)
          else (reviews_qs, None)
      | None => (reviews_qs, None)
      end
  | _ => (reviews_qs, None)
  end.

End Params.

End places_views_params.

(** ** places/views.py: SearchPlacesView._apply_open_now_filter

    A place comes with its category; [weekday] and [now_time] are those of
    the [timezone.localtime()] that [is_open_now] reads, taken as the same
    for every place of one search. *)

Module places_views_search.

Definition _apply_open_now_filter (places : list (string * Place.t))
    (open_now : option string) (weekday now_time : Z) : list (string * Place.t) :=
  let wanted :=
    match open_now with
    | Some value => String.eqb value "1"
    | None => false
    end in
  if negb wanted then places
  else
    let places :=
      List.filter (fun place =>
                negb (String.eqb (fst place) "beach")
                && places_views.has_value (Place.opening_time (snd place))
                && places_views.has_value (Place.closing_time (snd place))) places in
    List.filter (fun place =>
              match places_hours.is_open_now (fst place) (snd place) weekday now_time with
              | Some true => true
              | _ => false
              end) places.

End places_views_search.

(** * Properties *)

(** ** Contribution levels *)

Lemma level_name_by_range (c : Contribution.t) :
  let pts := Contribution.points c in
  (pts < 0 /\ Contribution.level_name c = "New Explorer")
  \/ (0 <= pts < 50 /\ Contribution.level_name c = "New Explorer")
  \/ (50 <= pts < 120 /\ Contribution.level_name c = "Local Contributor")
  \/ (120 <= pts < 250 /\ Contribution.level_name c = "Trusted Guide")
  \/ (250 <= pts /\ Contribution.level_name c = "Community Champion").
Proof.
  unfold Contribution.level_name, Contribution.LEVELS.
  cbn [Contribution.scan_levels fst snd].
  destruct (Z.leb_spec 0 (Contribution.points c));
    [|left; split; [lia|reflexivity]].
  destruct (Z.leb_spec 50 (Contribution.points c));
    [|right; left; split; [lia|reflexivity]].
  destruct (Z.leb_spec 120 (Contribution.points c));
    [|right; right; left; split; [lia|reflexivity]].
  destruct (Z.leb_spec 250 (Contribution.points c));
    [|right; right; right; left; split; [lia|reflexivity]].
  right; right; right; right; split; [lia|reflexivity].
Qed.

Lemma LEVELS_rows (row : Z * string * string) :
  In row Contribution.LEVELS ->
  row = (0, "New Explorer", "secondary") \/ row = (50, "Local Contributor", "info")
  \/ row = (120, "Trusted Guide", "success")
  \/ row = (250, "Community Champion", "warning").
Proof.
  unfold Contribution.LEVELS. cbn [In].
  intros [H | [H | [H | [H | []]]]]; subst; auto.
Qed.

Ltac levels_row_bound :=
  let other := fresh "other" in
  let Hin := fresh "Hin" in
  let Hle := fresh "Hle" in
  intros other Hin Hle;
  apply LEVELS_rows in Hin;
  destruct Hin as [-> | [-> | [-> | ->]]]; cbn [fst snd] in *; lia.

(** C7, as the code has it: for a points value of at least 0, [level_name]
    is the name of the row of LEVELS with the highest threshold at or below
    the points; below 0, where no threshold qualifies, it is the first row's
    name; and the level never goes down when the points go up. *)
Theorem level_name_highest_threshold_and_monotone (c : Contribution.t) :
  (0 <= Contribution.points c ->
   exists row,
     Contribution.highest_threshold_at_or_below Contribution.LEVELS
       (Contribution.points c) row
     /\ Contribution.level_name c = Contribution.row_name row)
  /\ (Contribution.points c < 0 -> Contribution.level_name c = "New Explorer")
  /\ (forall c2 : Contribution.t,
        Contribution.points c <= Contribution.points c2 ->
        (Contribution.level_rank (Contribution.level_name c)
         <= Contribution.level_rank (Contribution.level_name c2))%nat).
Proof.
  pose proof (level_name_by_range c) as Hc. cbv zeta in Hc.
  split; [|split].
  - intros Hpos.
    destruct Hc as [[? _] | [[? ->] | [[? ->] | [[? ->] | [? ->]]]]]; [lia | | | |].
    + exists (0, "New Explorer", "secondary").
      repeat split; [cbn; auto | cbn; lia | levels_row_bound].
    + exists (50, "Local Contributor", "info").
      repeat split; [cbn; auto | cbn; lia | levels_row_bound].
    + exists (120, "Trusted Guide", "success").
      repeat split; [cbn; auto | cbn; lia | levels_row_bound].
    + exists (250, "Community Champion", "warning").
      repeat split; [cbn; auto 10 | cbn; lia | levels_row_bound].
  - intros Hneg.
    destruct Hc as [[_ ->] | [[? _] | [[? _] | [[? _] | [? _]]]]]; [reflexivity|lia..].
  - intros c2 Hle.
    pose proof (level_name_by_range c2) as Hc2. cbv zeta in Hc2.
    destruct Hc as [[? ->] | [[? ->] | [[? ->] | [[? ->] | [? ->]]]]];
      destruct Hc2 as [[? ->] | [[? ->] | [[? ->] | [[? ->] | [? ->]]]]];
      try lia; vm_compute; lia.
Qed.

Lemma level_name_highest_threshold_and_monotone_witness :
  (exists row,
     Contribution.highest_threshold_at_or_below Contribution.LEVELS 130 row
     /\ Contribution.level_name (Contribution.mk 0 0 130 0 false) = Contribution.row_name row)
  /\ Contribution.level_name (Contribution.mk 0 0 (-20) 0 false) = "New Explorer"
  /\ (Contribution.level_rank (Contribution.level_name (Contribution.mk 0 0 130 0 false))
      <= Contribution.level_rank (Contribution.level_name (Contribution.mk 0 0 1000 0 false)))%nat.
Proof.
  split; [|split].
  - apply (level_name_highest_threshold_and_monotone (Contribution.mk 0 0 130 0 false)).
    cbn. lia.
  - apply (level_name_highest_threshold_and_monotone (Contribution.mk 0 0 (-20) 0 false)).
    cbn. lia.
  - apply (level_name_highest_threshold_and_monotone (Contribution.mk 0 0 130 0 false)).
    cbn. lia.
Defined.

(** C7 as stated fails below the first threshold: with -20 points (the
    value the repository's own test stores) no row of LEVELS has a threshold
    at or below the points, yet [level_name] answers. *)
Lemma level_name_negative_points_counterexample :
  ~ (forall c : Contribution.t,
       exists row,
         Contribution.highest_threshold_at_or_below Contribution.LEVELS
           (Contribution.points c) row
         /\ Contribution.level_name c = Contribution.row_name row).
Proof.
  intros H. destruct (H (Contribution.mk 0 0 (-20) 0 false)) as (row & (Hin & Hle & _) & _).
  apply LEVELS_rows in Hin.
  destruct Hin as [-> | [-> | [-> | ->]]]; cbn in Hle; lia.
Qed.

(** ** Geocoding *)

Section GeocodeFacts.

Import places_utils.

Variable requests_get : string -> Exchange.
Variable location_text : string.

(** The failures the function tests for give [(None, None)]. *)
Lemma geocode_location_non_200 (response : Response) :
  requests_get (url_for location_text) = Responded response ->
  status_code response <> 200 ->
  geocode_location requests_get location_text = Return JNull JNull.
Proof.
  intros Hget Hcode. unfold geocode_location. rewrite Hget.
  destruct (Z.eqb_spec (status_code response) 200); [contradiction | reflexivity].
Qed.

Lemma geocode_location_payload_status (data : list (string * json)) :
  requests_get (url_for location_text) = Responded (mkResponse 200 (Some (JObj data))) ->
  not_equal_200 (dict_get data "status") = true ->
  geocode_location requests_get location_text = Return JNull JNull.
Proof.
  intros Hget Hstatus. unfold geocode_location. rewrite Hget. cbn.
  rewrite Hstatus. reflexivity.
Qed.

Lemma geocode_location_no_result (data : list (string * json)) :
  requests_get (url_for location_text) = Responded (mkResponse 200 (Some (JObj data))) ->
  not_equal_200 (dict_get data "status") = false ->
  falsy (dict_get data "result") = true ->
  geocode_location requests_get location_text = Return JNull JNull.
Proof.
  intros Hget Hstatus Hres. unfold geocode_location. rewrite Hget. cbn.
  rewrite Hstatus, Hres. reflexivity.
Qed.

Lemma geocode_location_success (data members : list (string * json))
    (latitude longitude : json) :
  requests_get (url_for location_text) = Responded (mkResponse 200 (Some (JObj data))) ->
  not_equal_200 (dict_get data "status") = false ->
  dict_get data "result" = JObj members ->
  dict_item members "latitude" = Some latitude ->
  dict_item members "longitude" = Some longitude ->
  geocode_location requests_get location_text = Return latitude longitude.
Proof.
  intros Hget Hstatus Hres Hlat Hlon. unfold geocode_location. rewrite Hget. cbn.
  rewrite Hstatus, Hres.
  destruct members as [|m members]; [discriminate|].
  cbn [falsy]. rewrite Hlat, Hlon. reflexivity.
Qed.

End GeocodeFacts.

(** C9 at its failing inputs: with HTTP status 200, a body that is not JSON,
    a JSON body that is not an object, and a result without the latitude key
    each make [geocode_location] raise instead of returning (None, None), as
    does a request that gets no response. *)
Theorem geocode_location_malformed_payload_raises :
  places_utils.geocode_location
    (fun _ => places_utils.Responded (places_utils.mkResponse 200 None)) "TR1 1AA"
  = places_utils.Raise places_utils.JSONDecodeError
  /\ places_utils.geocode_location
       (fun _ => places_utils.Responded
                   (places_utils.mkResponse 200 (Some (places_utils.JArr []))))
       "TR1 1AA"
     = places_utils.Raise places_utils.AttributeError
  /\ places_utils.geocode_location
       (fun _ => places_utils.Responded
          (places_utils.mkResponse 200
             (Some (places_utils.JObj
                [("status", places_utils.JInt 200);
                 ("result", places_utils.JObj
                    [("longitude", places_utils.JFloat (-5.2)%float)])]))))
       "TR1 1AA"
     = places_utils.Raise places_utils.KeyError
  /\ places_utils.geocode_location (fun _ => places_utils.NoResponse) "TR1 1AA"
     = places_utils.Raise places_utils.RequestException.
Proof. repeat split. Qed.

(** ** Duplicate and similar reviews *)

Section SpamFacts.

Import reviews_spam.

Lemma is_empty_true (s : string) : is_empty s = true <-> s = EmptyString.
Proof. destruct s; cbn; split; congruence. Qed.

Lemma exact_duplicate_exists_iff (s : Store) (place : Z) (text : string) :
  exact_duplicate_exists s place text = true <->
  exists r, In r (reviews s) /\ Review.place r = place
            /\ Review.is_archived r = false /\ iexact (Review.text r) text = true.
Proof.
  unfold exact_duplicate_exists, live_reviews. rewrite existsb_exists. split.
  - intros (r & Hin & Hex). apply filter_In in Hin as (Hin & Hf).
    apply andb_true_iff in Hf as (Hp & Ha).
    exists r. repeat split; auto; [lia | now destruct (Review.is_archived r)].
  - intros (r & Hin & Hp & Ha & Hex). exists r. split; [|exact Hex].
    apply filter_In. split; [exact Hin|].
    rewrite Ha. cbn. rewrite andb_true_r. lia.
Qed.

Variable ratio : string -> string -> float.

Lemma similarity_loop_true_iff (candidate : string) (texts : list string) :
  similarity_loop ratio candidate texts = true <->
  exists existing, In existing texts /\
    (25 <= String.length candidate)%nat /\
    (25 <= String.length (normalize_text existing))%nat /\
    PrimFloat.leb 0.85%float (ratio candidate (normalize_text existing)) = true.
Proof.
  induction texts as [|existing rest IH]; cbn [similarity_loop In].
  - split; [discriminate | intros (? & [] & _)].
  - destruct (is_empty (normalize_text existing)) eqn:He.
    + rewrite IH. apply is_empty_true in He. split.
      * intros (e & Hin & H). exists e. auto.
      * intros (e & [<- | Hin] & H1 & H2 & H3); [|exists e; auto].
        rewrite He in H2. cbn in H2. lia.
    + destruct (too_similar ratio candidate (normalize_text existing)) eqn:Hs.
      * split; [intros _|reflexivity]. exists existing.
        unfold too_similar in Hs.
        apply andb_true_iff in Hs as (Hs & H3).
        apply andb_true_iff in Hs as (H1 & H2).
        repeat split; auto; now apply Nat.leb_le.
      * rewrite IH. split.
        -- intros (e & Hin & H). exists e. auto.
        -- intros (e & [<- | Hin] & H1 & H2 & H3); [|exists e; auto].
           unfold too_similar in Hs.
           apply Nat.leb_le in H1, H2. rewrite H1, H2, H3 in Hs. discriminate.
Qed.

End SpamFacts.

(** C6, as the code has it: a text whose normalized form is empty is never
    a duplicate; for any other text a non-archived review of the place
    whose text equals it up to the case of the letters A to Z (the match of
    [text__iexact], which folds no other letter) gives true; and when there
    is no such match the answer is true exactly when one of the 50 most
    recent non-archived reviews of the place has a normalized text of at
    least 25 characters, the normalized candidate has at least 25
    characters, and their similarity ratio is at least 0.85. *)
Theorem is_duplicate_or_similar_review_spec
    (ratio : string -> string -> float) (s : Store) (place : Z) (text : string) :
  let candidate := reviews_spam.normalize_text text in
  let exact_match :=
    exists r, In r (reviews s) /\ Review.place r = place
              /\ Review.is_archived r = false
              /\ reviews_spam.iexact (Review.text r) text = true in
  (candidate = EmptyString ->
   reviews_spam.is_duplicate_or_similar_review ratio s place text = false)
  /\ (candidate <> EmptyString -> exact_match ->
      reviews_spam.is_duplicate_or_similar_review ratio s place text = true)
  /\ (~ exact_match ->
      (reviews_spam.is_duplicate_or_similar_review ratio s place text = true <->
       exists existing,
         In existing (reviews_spam.recent_texts s place)
         /\ (25 <= String.length candidate)%nat
         /\ (25 <= String.length (reviews_spam.normalize_text existing))%nat
         /\ PrimFloat.leb 0.85%float
              (ratio candidate (reviews_spam.normalize_text existing)) = true)).
Proof.
  cbv zeta. unfold reviews_spam.is_duplicate_or_similar_review.
  split; [|split].
  - intros ->. reflexivity.
  - intros Hne Hex. apply exact_duplicate_exists_iff in Hex.
    destruct (reviews_spam.is_empty _) eqn:He;
      [apply is_empty_true in He; contradiction|].
    now rewrite Hex.
  - intros Hno.
    destruct (reviews_spam.exact_duplicate_exists s place text) eqn:Hex;
      [apply exact_duplicate_exists_iff in Hex; contradiction|].
    destruct (reviews_spam.is_empty _) eqn:He.
    + apply is_empty_true in He. rewrite He. split; [discriminate|].
      intros (e & _ & H & _). cbn in H. lia.
    + apply similarity_loop_true_iff.
Qed.

(** The repository's test of [normalize_text]. *)
Example normalize_text_basic :
  reviews_spam.normalize_text " Hello,  WORLD!! " = "hello world".
Proof. reflexivity. Qed.

(** C6 as stated fails twice. On a text that is only punctuation: the
    place has the non-archived review "?!", the same text is submitted, and
    the guard on the empty normalized form answers false before the
    exact-match query runs. And on a letter outside A to Z: the place has
    the review "caf" followed by e-acute (code point 233), the submitted
    text is its upper-case form, "CAF" followed by E-acute (code point
    201); the two are equal when lower-cased, but [text__iexact] does not
    fold that letter and the texts are too short for the similarity test. *)
Lemma is_duplicate_exact_match_counterexample :
  ~ (forall (ratio : string -> string -> float) (s : Store) (place : Z) (text : string),
       (exists r, In r (reviews s) /\ Review.place r = place
                  /\ Review.is_archived r = false
                  /\ reviews_spam.iexact (Review.text r) text = true) ->
       reviews_spam.is_duplicate_or_similar_review ratio s place text = true)
  /\ ~ (forall (ratio : string -> string -> float) (s : Store) (place : Z) (text : string),
          reviews_spam.normalize_text text <> EmptyString ->
          (exists r, In r (reviews s) /\ Review.place r = place
                     /\ Review.is_archived r = false
                     /\ reviews_spam.lower (Review.text r) = reviews_spam.lower text) ->
          reviews_spam.is_duplicate_or_similar_review ratio s place text = true).
Proof.
  split.
  - intros H.
    pose (r := Review.mk (Some 1) 1 (Some 2) "?!" 4 true false "" false false None None 10).
    specialize (H (fun _ _ => 1%float) (with_reviews [r] empty_store) 1 "?!").
    assert (Hdup : reviews_spam.is_duplicate_or_similar_review (fun _ _ => 1%float)
                     (with_reviews [r] empty_store) 1 "?!" = false) by reflexivity.
    rewrite H in Hdup; [discriminate|].
    exists r. repeat split. cbn. auto.
  - intros H.
    pose (stored := String "c" (String "a" (String "f" (String "233" EmptyString)))).
    pose (submitted := String "C" (String "A" (String "F" (String "201" EmptyString)))).
    pose (r := Review.mk (Some 1) 1 (Some 2) stored 4 true false "" false false None None 10).
    specialize (H (fun _ _ => 1%float) (with_reviews [r] empty_store) 1 submitted).
    assert (Hdup : reviews_spam.is_duplicate_or_similar_review (fun _ _ => 1%float)
                     (with_reviews [r] empty_store) 1 submitted = false)
      by (vm_compute; reflexivity).
    rewrite H in Hdup; [discriminate | |].
    + intros Hempty. vm_compute in Hempty. discriminate Hempty.
    + exists r. split; [left; reflexivity|]. split; [reflexivity|].
      split; [reflexivity|]. vm_compute. reflexivity.
Qed.

(** ** Archiving and restoring places *)

(** C1 at its failing input: an approved heritage place, archived at time
    1000 by moderator 9. The archive fields are recorded, but the stored
    [is_approved] stays true, because [Place.save] recomputes it from the
    unchanged status; restoring then yields a visible place again without a
    new approval. *)
Theorem archive_of_approved_place_keeps_is_approved :
  let place :=
    Place.mk (Some 1) Place.HeritagePlace "Harbor Walk" "" None None
      (Some 50100000) (Some (-5100000)) (Some 2) None true false None
      Place.APPROVED None in
  let archived :=
    Place.mk (Some 1) Place.HeritagePlace "Harbor Walk" "" None None
      (Some 50100000) (Some (-5100000)) (Some 2) (Some 9) true true (Some 1000)
      Place.APPROVED None in
  let s0 := with_clock 1000 (with_places [place] empty_store) in
  let s1 := final (places_admin.archive_places 9 (fun _ => true) s0) in
  let s2 := final (places_admin.restore_places 9 (fun _ => true) s1) in
  places s1 = [archived] /\ places s2 = [place].
Proof. cbv zeta. split; reflexivity. Qed.

Lemma is_duplicate_or_similar_review_spec_witness :
  let ratio := fun a b : string => if String.eqb a b then 1%float else 0%float in
  let s :=
    with_reviews
      [Review.mk (Some 1) 1 (Some 2) "Nice Walk" 4 true false "" false false None None 10;
       Review.mk (Some 2) 1 (Some 3) "Lovely walk along the harbour at sunset!" 5 true false
         "" false false None None 11]
      empty_store in
  reviews_spam.is_duplicate_or_similar_review ratio s 1 "nice walk" = true
  /\ reviews_spam.is_duplicate_or_similar_review ratio s 1
       "Lovely walk, along the harbour at sunset" = true
  /\ reviews_spam.is_duplicate_or_similar_review ratio s 1 "Windy" = false
  /\ reviews_spam.is_duplicate_or_similar_review ratio s 1 "?!" = false.
Proof.
  cbv zeta.
  set (ratio := fun a b : string => if String.eqb a b then 1%float else 0%float).
  set (s := with_reviews _ empty_store).
  assert (Hno : forall text,
            forallb (fun r => negb (reviews_spam.iexact (Review.text r) text)) (reviews s)
            = true ->
            ~ exists r, In r (reviews s) /\ Review.place r = 1
                        /\ Review.is_archived r = false
                        /\ reviews_spam.iexact (Review.text r) text = true).
  { intros text Hall (r & Hin & _ & _ & Hex).
    rewrite forallb_forall in Hall. specialize (Hall r Hin).
    rewrite Hex in Hall. discriminate Hall. }
  split; [|split; [|split]].
  - destruct (is_duplicate_or_similar_review_spec ratio s 1 "nice walk") as (_ & Hexact & _).
    apply Hexact.
    + intros H. vm_compute in H. discriminate H.
    + eexists. split; [left; reflexivity|]. repeat split.
  - destruct (is_duplicate_or_similar_review_spec ratio s 1
                "Lovely walk, along the harbour at sunset") as (_ & _ & Hsimilar).
    apply (Hsimilar (Hno "Lovely walk, along the harbour at sunset" eq_refl)).
    exists "Lovely walk along the harbour at sunset!".
    split; [vm_compute; left; reflexivity|].
    split; [vm_compute; lia|]. split; [vm_compute; lia|]. vm_compute. reflexivity.
  - destruct (is_duplicate_or_similar_review_spec ratio s 1 "Windy") as (_ & _ & Hshort).
    pose proof (Hshort (Hno "Windy" eq_refl)) as Hiff.
    destruct (reviews_spam.is_duplicate_or_similar_review ratio s 1 "Windy");
      [|reflexivity].
    destruct (proj1 Hiff eq_refl) as (existing & _ & Hlen & _).
    vm_compute in Hlen. lia.
  - destruct (is_duplicate_or_similar_review_spec ratio s 1 "?!") as (Hempty & _).
    apply Hempty. reflexivity.
Defined.

(** ** Reasoning about database code *)

Section HoareRules.

Context {A B : Type}.

Lemma hoare_ret (P : Store -> Prop) (a : A) (Q : A -> Store -> Prop) (E : Store -> Prop) :
  (forall s, P s -> Q a s) -> hoare P (ret a) Q E.
Proof. intros H s Hs. cbn. auto. Qed.

Lemma hoare_raise (P : Store -> Prop) (e : exn) (Q : A -> Store -> Prop)
    (E : Store -> Prop) :
  (forall s, P s -> E s) -> hoare P (raise e) Q E.
Proof. intros H s Hs. cbn. auto. Qed.

Lemma hoare_gets (P : Store -> Prop) (f : Store -> A) (Q : A -> Store -> Prop)
    (E : Store -> Prop) :
  (forall s, P s -> Q (f s) s) -> hoare P (gets f) Q E.
Proof. intros H s Hs. cbn. auto. Qed.

Lemma hoare_bind (P : Store -> Prop) (m : M A) (k : A -> M B)
    (Q : A -> Store -> Prop) (R : B -> Store -> Prop) (E : Store -> Prop) :
  hoare P m Q E -> (forall a, hoare (Q a) (k a) R E) -> hoare P (bind m k) R E.
Proof.
  intros Hm Hk s Hs. unfold bind. specialize (Hm s Hs).
  destruct (m s) as [a s' | e s']; [apply Hk; exact Hm | exact Hm].
Qed.

Lemma hoare_conseq (P P' : Store -> Prop) (m : M A) (Q Q' : A -> Store -> Prop)
    (E E' : Store -> Prop) :
  hoare P' m Q' E' -> (forall s, P s -> P' s) -> (forall a s, Q' a s -> Q a s) ->
  (forall s, E' s -> E s) -> hoare P m Q E.
Proof.
  intros Hm HP HQ HE s Hs. specialize (Hm s (HP s Hs)).
  destruct (m s); auto.
Qed.

Lemma hoare_try_except (P : Store -> Prop) (m handler : M A) (catches : exn -> bool)
    (Q : A -> Store -> Prop) (E E' : Store -> Prop) :
  hoare P m Q E' -> hoare E' handler Q E -> (forall s, E' s -> E s) ->
  hoare P (try_except m catches handler) Q E.
Proof.
  intros Hm Hh HE s Hs. unfold try_except. specialize (Hm s Hs).
  destruct (m s) as [a s' | e s']; [exact Hm|].
  destruct (catches e); [apply Hh; exact Hm | auto].
Qed.

Lemma hoare_for_each (Inv : list A -> Store -> Prop) (E : Store -> Prop)
    (body : A -> M unit) (l : list A) :
  (forall x rest, hoare (Inv (x :: rest)) (body x) (fun _ => Inv rest) E) ->
  hoare (Inv l) (for_each l body) (fun _ => Inv []) E.
Proof.
  intros Hbody. induction l as [|x rest IH]; cbn [for_each].
  - intros s Hs. exact Hs.
  - intros s Hs. unfold bind. specialize (Hbody x rest s Hs).
    destruct (body x s) as [[] s' | e s']; [apply IH; exact Hbody | exact Hbody].
Qed.

End HoareRules.

Lemma hoare_modify (P : Store -> Prop) (f : Store -> Store)
    (Q : unit -> Store -> Prop) (E : Store -> Prop) :
  (forall s, P s -> Q tt (f s)) -> hoare P (modify f) Q E.
Proof. intros H s Hs. cbn. auto. Qed.

Section PreservesRules.

Context {A B : Type}.
Variable I : Store -> Prop.

Lemma preserves_ret (a : A) : preserves I (ret a).
Proof. apply hoare_ret. auto. Qed.

Lemma preserves_raise (e : exn) : preserves I (raise (A := A) e).
Proof. apply hoare_raise. auto. Qed.

Lemma preserves_gets (f : Store -> A) : preserves I (gets f).
Proof. apply hoare_gets. auto. Qed.

Lemma preserves_bind (m : M A) (k : A -> M B) :
  preserves I m -> (forall a, preserves I (k a)) -> preserves I (bind m k).
Proof. intros Hm Hk. eapply hoare_bind; [exact Hm | exact Hk]. Qed.

Lemma preserves_for_each (body : A -> M unit) (l : list A) :
  (forall x, preserves I (body x)) -> preserves I (for_each l body).
Proof.
  intros Hbody. apply (hoare_for_each (fun _ => I)). intros x rest. apply Hbody.
Qed.

Lemma preserves_try_except (m handler : M A) (catches : exn -> bool) :
  preserves I m -> preserves I handler -> preserves I (try_except m catches handler).
Proof. intros Hm Hh. eapply hoare_try_except; eauto. Qed.

Lemma preserves_final (m : M A) (s : Store) : preserves I m -> I s -> I (final (m s)).
Proof. intros Hm Hs. specialize (Hm s Hs). destruct (m s); exact Hm. Qed.

End PreservesRules.

Lemma preserves_modify (I : Store -> Prop) (f : Store -> Store) :
  (forall s, I s -> I (f s)) -> preserves I (modify f).
Proof. intros H. apply hoare_modify. exact H. Qed.

Lemma preserves_discard {A} (I : Store -> Prop) (m : M A) :
  preserves I m -> preserves I (discard m).
Proof. intros H. apply preserves_bind; [exact H | intros; apply preserves_ret]. Qed.

(** A computation that leaves a component alone preserves whatever depends
    on that component only. *)
Lemma keeps_preserves {X A} (proj : Store -> X) (I : Store -> Prop) (m : M A) :
  (forall s s', proj s' = proj s -> I s -> I s') -> keeps proj m -> preserves I m.
Proof.
  intros Honly Hkeeps s Hs. specialize (Hkeeps s).
  destruct (m s) as [a s' | e s']; cbn in Hkeeps; eauto.
Qed.

Section KeepsRules.

Context {X A B : Type}.
Variable proj : Store -> X.

Lemma keeps_ret (a : A) : keeps proj (ret a).
Proof. intros s. reflexivity. Qed.

Lemma keeps_raise (e : exn) : keeps proj (raise (A := A) e).
Proof. intros s. reflexivity. Qed.

Lemma keeps_gets (f : Store -> A) : keeps proj (gets f).
Proof. intros s. reflexivity. Qed.

Lemma keeps_bind (m : M A) (k : A -> M B) :
  keeps proj m -> (forall a, keeps proj (k a)) -> keeps proj (bind m k).
Proof.
  intros Hm Hk s. unfold bind. specialize (Hm s).
  destruct (m s) as [a s' | e s']; cbn in *; [|exact Hm].
  rewrite <- Hm. apply Hk.
Qed.

Lemma keeps_try_except (m handler : M A) (catches : exn -> bool) :
  keeps proj m -> keeps proj handler -> keeps proj (try_except m catches handler).
Proof.
  intros Hm Hh s. unfold try_except. specialize (Hm s).
  destruct (m s) as [a s' | e s']; cbn in *; [exact Hm|].
  destruct (catches e); cbn; [|exact Hm].
  rewrite <- Hm. apply Hh.
Qed.

End KeepsRules.

Lemma keeps_for_each {X A} (proj : Store -> X) (body : A -> M unit) (l : list A) :
  (forall x, keeps proj (body x)) -> keeps proj (for_each l body).
Proof.
  intros Hbody. induction l as [|x rest IH]; cbn [for_each].
  - apply keeps_ret.
  - apply keeps_bind; auto.
Qed.

Lemma keeps_modify {X} (proj : Store -> X) (f : Store -> Store) :
  (forall s, proj (f s) = proj s) -> keeps proj (modify f).
Proof. intros H s. cbn. apply H. Qed.

Lemma keeps_discard {X A} (proj : Store -> X) (m : M A) :
  keeps proj m -> keeps proj (discard m).
Proof. intros H. apply keeps_bind; [exact H | intros; apply keeps_ret]. Qed.

(** ** Which tables each piece of code writes *)

Ltac keeps_step :=
  match goal with
  | |- keeps _ (bind _ _) => apply keeps_bind; [|intros ?]
  | |- keeps _ (ret _) => apply keeps_ret
  | |- keeps _ (raise _) => apply keeps_raise
  | |- keeps _ (gets _) => apply keeps_gets
  | |- keeps _ timezone_now => apply keeps_gets
  | |- keeps _ (for_each _ _) => apply keeps_for_each; intros ?
  | |- keeps _ (try_except _ _ _) => apply keeps_try_except
  | |- keeps _ (discard _) => apply keeps_discard
  | |- keeps _ (modify _) => apply keeps_modify; intros ?; reflexivity
  | |- keeps _ (match ?x with _ => _ end) => destruct x
  end.

(** A leaf written as a function of the store: split on every test the
    code makes and compare the stores. *)
Ltac keeps_leaf :=
  let s := fresh "s" in
  intros s; cbv beta delta [bind ret raise gets modify] iota;
  repeat match goal with
         | |- context [match ?x with _ => _ end] => destruct x
         end;
  reflexivity.

Lemma log_keeps_contributions actor action target_type target_pk notes :
  keeps contributions
    (reviews_moderation.log_moderation_action actor action target_type target_pk notes).
Proof. unfold reviews_moderation.log_moderation_action. repeat keeps_step. Qed.

Lemma log_keeps_places actor action target_type target_pk notes :
  keeps places
    (reviews_moderation.log_moderation_action actor action target_type target_pk notes).
Proof. unfold reviews_moderation.log_moderation_action. repeat keeps_step. Qed.

Lemma log_keeps_reviews actor action target_type target_pk notes :
  keeps reviews
    (reviews_moderation.log_moderation_action actor action target_type target_pk notes).
Proof. unfold reviews_moderation.log_moderation_action. repeat keeps_step. Qed.

Lemma get_or_create_keeps_places u : keeps places (ContributionObjects.get_or_create u).
Proof. unfold ContributionObjects.get_or_create. keeps_leaf. Qed.

Lemma get_or_create_keeps_reviews u : keeps reviews (ContributionObjects.get_or_create u).
Proof. unfold ContributionObjects.get_or_create. keeps_leaf. Qed.

Lemma contribution_save_keeps_places fields u c :
  keeps places (ContributionObjects.save fields u c).
Proof. unfold ContributionObjects.save. keeps_leaf. Qed.

Lemma contribution_save_keeps_reviews fields u c :
  keeps reviews (ContributionObjects.save fields u c).
Proof. unfold ContributionObjects.save. keeps_leaf. Qed.

Lemma place_save_table_keeps_contributions update_fields self :
  keeps contributions (places_models._save_table update_fields self).
Proof. unfold places_models._save_table. keeps_leaf. Qed.

Lemma place_save_table_keeps_reviews update_fields self :
  keeps reviews (places_models._save_table update_fields self).
Proof. unfold places_models._save_table. keeps_leaf. Qed.

Lemma set_previous_status_keeps {X} (proj : Store -> X) instance :
  keeps proj (places_signals._set_previous_status instance).
Proof.
  unfold places_signals._set_previous_status, places_signals.stored_moderation_status.
  repeat keeps_step.
Qed.

Lemma pre_save_send_keeps {X} (proj : Store -> X) senders sender instance :
  keeps proj (places_signals.pre_save_send senders sender instance).
Proof.
  revert instance. induction senders as [|c rest IH]; intros instance;
    cbn [places_signals.pre_save_send].
  - apply keeps_ret.
  - destruct (Place.Class_eqb c sender); [|apply IH].
    apply keeps_bind; [apply set_previous_status_keeps | intros; apply IH].
Qed.

Lemma place_award_keeps_places instance :
  keeps places (places_signals._award_points_if_newly_approved instance).
Proof.
  unfold places_signals._award_points_if_newly_approved.
  repeat keeps_step;
    auto using get_or_create_keeps_places, contribution_save_keeps_places.
Qed.

Lemma place_award_keeps_reviews instance :
  keeps reviews (places_signals._award_points_if_newly_approved instance).
Proof.
  unfold places_signals._award_points_if_newly_approved.
  repeat keeps_step;
    auto using get_or_create_keeps_reviews, contribution_save_keeps_reviews.
Qed.

Lemma post_save_send_keeps {X} (proj : Store -> X) senders sender instance :
  keeps proj (places_signals._award_points_if_newly_approved instance) ->
  keeps proj (places_signals.post_save_send senders sender instance).
Proof.
  intros Haward. induction senders as [|c rest IH]; cbn [places_signals.post_save_send].
  - apply keeps_ret.
  - destruct (Place.Class_eqb c sender); [|apply IH].
    apply keeps_bind; [exact Haward | intros; apply IH].
Qed.

Lemma place_save_keeps_reviews update_fields self :
  keeps reviews (places_models.save update_fields self).
Proof.
  unfold places_models.save, places_models.Model_save,
    places_signals.stored_moderation_status.
  repeat keeps_step;
    auto using pre_save_send_keeps, place_save_table_keeps_reviews,
      post_save_send_keeps, place_award_keeps_reviews.
Qed.

Lemma review_award_keeps_places instance created :
  keeps places (accounts_signals.award_points_for_review instance created).
Proof.
  unfold accounts_signals.award_points_for_review.
  repeat keeps_step;
    auto using get_or_create_keeps_places, contribution_save_keeps_places.
Qed.

Lemma review_update_keeps_contributions fields k self :
  keeps contributions (reviews_models.update fields k self).
Proof. unfold reviews_models.update. keeps_leaf. Qed.

Lemma review_update_keeps_places fields k self :
  keeps places (reviews_models.update fields k self).
Proof. unfold reviews_models.update. keeps_leaf. Qed.

Lemma review_insert_keeps_contributions k self :
  keeps contributions (reviews_models.insert k self).
Proof. unfold reviews_models.insert. keeps_leaf. Qed.

Lemma review_insert_keeps_places k self :
  keeps places (reviews_models.insert k self).
Proof. unfold reviews_models.insert. keeps_leaf. Qed.

Lemma review_save_table_keeps_contributions update_fields self :
  keeps contributions (reviews_models._save_table update_fields self).
Proof.
  unfold reviews_models._save_table.
  repeat keeps_step;
    auto using review_update_keeps_contributions, review_insert_keeps_contributions.
Qed.

Lemma review_save_table_keeps_places update_fields self :
  keeps places (reviews_models._save_table update_fields self).
Proof.
  unfold reviews_models._save_table.
  repeat keeps_step;
    auto using review_update_keeps_places, review_insert_keeps_places.
Qed.

Lemma review_save_keeps_places update_fields self :
  keeps places (reviews_models.save update_fields self).
Proof.
  unfold reviews_models.save.
  repeat keeps_step;
    auto using review_save_table_keeps_places, review_award_keeps_places.
Qed.

(** ** Place saves and the agreement of flag and status *)

Lemma set_previous_status_result instance s :
  exists v,
    places_signals._set_previous_status instance s
    = Returned (Place.set_previous_moderation_status v instance) s.
Proof.
  unfold places_signals._set_previous_status, places_signals.stored_moderation_status.
  destruct (places_signals.pk_truthy (Place.pk instance)); cbn; eauto.
Qed.

Lemma pre_save_send_result senders sender instance s :
  exists v,
    places_signals.pre_save_send senders sender instance s
    = Returned (Place.set_previous_moderation_status v instance) s.
Proof.
  revert instance. induction senders as [|c rest IH]; intros instance;
    cbn [places_signals.pre_save_send].
  - exists (Place._previous_moderation_status instance). destruct instance; reflexivity.
  - destruct (Place.Class_eqb c sender); [|apply IH].
    unfold bind, places_signals._store_previous_status.
    destruct (set_previous_status_result instance s) as (v1 & ->).
    destruct (IH (Place.set_previous_moderation_status v1 instance)) as (v & ->).
    exists v. reflexivity.
Qed.

Lemma next_pk_above (pks : list (option Z)) (k : Z) :
  In (Some k) pks -> k < next_pk pks.
Proof.
  unfold next_pk. induction pks as [|p rest IH]; cbn [In fold_right]; [tauto|].
  intros [-> | Hin]; [lia|]. specialize (IH Hin). destruct p; lia.
Qed.

Lemma next_pk_fresh (rows : list Place.t) :
  existsb (Place.has_pk (next_pk (map Place.pk rows))) rows = false.
Proof.
  destruct (existsb _ rows) eqn:He; [|reflexivity].
  apply existsb_exists in He as (row & Hin & Hpk).
  unfold Place.has_pk in Hpk. destruct (Place.pk row) as [k|] eqn:Hk; [|discriminate].
  apply Z.eqb_eq in Hpk. subst k.
  assert (In (Some (next_pk (map Place.pk rows))) (map Place.pk rows)) as Habove.
  { rewrite <- Hk. apply in_map. exact Hin. }
  apply next_pk_above in Habove. lia.
Qed.

Lemma set_pk_same self k : Place.pk self = Some k -> Place.set_pk (Some k) self = self.
Proof. destruct self; cbn. intros ->. reflexivity. Qed.

Lemma place_save_table_result update_fields self s :
  match places_models._save_table update_fields self s with
  | Raised _ s' => s' = s
  | Returned self' s' =>
      (exists k, Place.pk self = Some k /\ self' = self /\
         s' = with_places
                (update_place_rows (written_fields update_fields) k self (places s)) s)
      \/ (exists k, update_fields = None /\ existsb (Place.has_pk k) (places s) = false /\
            self' = Place.set_pk (Some k) self /\
            s' = with_places (places s ++ [Place.as_row k self]) s)
  end.
Proof.
  unfold places_models._save_table.
  destruct update_fields as [fields|], (Place.pk self) as [k|] eqn:Hpk; try reflexivity.
  - destruct (existsb (Place.has_pk k) (places s)) eqn:He; [|reflexivity].
    left. exists k. auto.
  - destruct (existsb (Place.has_pk k) (places s)) eqn:He.
    + left. exists k. auto.
    + right. exists k. rewrite (set_pk_same self k Hpk). auto.
  - right. exists (next_pk (map Place.pk (places s))).
    split; [reflexivity|]. split; [apply next_pk_fresh|]. split; reflexivity.
Qed.

Lemma place_save_signals_places update_fields self1 s :
  exists v,
    places (final ((let* self0 := places_signals.pre_save_send
                                    places_signals.connected_senders
                                    (Place.class self1) self1 in
                    let* self2 := places_models._save_table update_fields self0 in
                    let* _ := places_signals.post_save_send
                                places_signals.connected_senders
                                (Place.class self2) self2 in
                    ret self2) s))
    = places (final (places_models._save_table update_fields
                       (Place.set_previous_moderation_status v self1) s)).
Proof.
  destruct (pre_save_send_result places_signals.connected_senders (Place.class self1)
              self1 s) as (v & Hpre).
  exists v. unfold bind at 1. rewrite Hpre. unfold bind at 1.
  destruct (places_models._save_table update_fields
              (Place.set_previous_moderation_status v self1) s) as [self2 s2 | e s2];
    [|reflexivity].
  apply (keeps_bind places); [|intros; apply keeps_ret].
  apply post_save_send_keeps, place_award_keeps_places.
Qed.

Lemma place_save_places update_fields self s :
  let s' := final (places_models.save update_fields self s) in
  places s' = places s
  \/ (exists k, Place.pk self = Some k /\
        places s' = update_place_rows (written_fields update_fields) k
                      (resynchronized self) (places s))
  \/ (exists k, update_fields = None /\ existsb (Place.has_pk k) (places s) = false /\
        places s' = places s ++ [Place.as_row k (resynchronized self)]).
Proof.
  cbv zeta. unfold places_models.save.
  assert (Hread : forall k : M Place.t,
            bind (match places_signals.pk_truthy (Place.pk self) with
                  | Some k0 => places_signals.stored_moderation_status k0
                  | None => ret None
                  end) (fun _ => k) s = k s).
  { intros k. unfold bind, places_signals.stored_moderation_status.
    destruct (places_signals.pk_truthy (Place.pk self)); reflexivity. }
  rewrite Hread. clear Hread. fold (resynchronized self).
  unfold places_models.Model_save.
  destruct update_fields as [[|f fields]|]; [left; reflexivity | |].
  all: match goal with
       | |- context [places_models._save_table ?uf] =>
           destruct (place_save_signals_places uf (resynchronized self) s) as (v & ->);
           pose proof (place_save_table_result uf
                         (Place.set_previous_moderation_status v (resynchronized self)) s)
             as Hres;
           destruct (places_models._save_table uf
                       (Place.set_previous_moderation_status v (resynchronized self)) s)
             as [self2 s2 | e s2]
       end.
  all: try (subst s2; left; reflexivity).
  all: destruct Hres as [(k & Hk & _ & ->) | (k & Hnone & Hfresh & _ & ->)].
  all: try discriminate Hnone.
  - right; left. exists k. split; [exact Hk | reflexivity].
  - right; left. exists k. split; [exact Hk | reflexivity].
  - right; right. exists k. auto.
Qed.

Lemma hoare_final {A} (P Q : Store -> Prop) (m : M A) :
  (forall s, P s -> Q (final (m s))) -> hoare P m (fun _ => Q) Q.
Proof. intros H s Hs. specialize (H s Hs). destruct (m s); exact H. Qed.

Lemma resynchronized_in_sync self : in_sync (resynchronized self).
Proof. reflexivity. Qed.

Lemma update_columns_pk fields instance row :
  Place.pk (Place.update_columns fields instance row) = Place.pk row.
Proof. reflexivity. Qed.

Lemma in_update_place_rows fields k instance rows row' :
  In row' (update_place_rows fields k instance rows) ->
  exists row, In row rows /\ Place.pk row' = Place.pk row /\
    ((Place.has_pk k row = true /\ row' = Place.update_columns fields instance row)
     \/ (Place.has_pk k row = false /\ row' = row)).
Proof.
  unfold update_place_rows. intros Hin. apply in_map_iff in Hin as (row & <- & Hin).
  exists row. split; [exact Hin|].
  destruct (Place.has_pk k row); auto.
Qed.

Lemma has_pk_same_pk k r1 r2 :
  Place.pk r1 = Place.pk r2 -> Place.has_pk k r1 = Place.has_pk k r2.
Proof. unfold Place.has_pk. intros ->. reflexivity. Qed.

Lemma update_rows_consistent fields k instance rows :
  rows_consistent rows -> in_sync instance ->
  (Place.listed Place.F_moderation_status fields = true ->
   Place.listed Place.F_is_approved fields = true) ->
  (Place.listed Place.F_is_approved fields = true ->
   Place.listed Place.F_moderation_status fields = false ->
   forall row, In row rows -> Place.has_pk k row = true ->
               Place.moderation_status row = Place.moderation_status instance) ->
  rows_consistent (update_place_rows fields k instance rows).
Proof.
  intros [Hsync Hagree] Hinst Hboth Honly. split.
  - intros row' Hin. apply in_update_place_rows in Hin as (row & Hin & _ & Hcase).
    destruct Hcase as [[Hk ->] | [_ ->]]; [|auto].
    specialize (Hsync row Hin). specialize (Honly) .
    unfold in_sync in *. cbn [Place.update_columns Place.is_approved Place.moderation_status].
    destruct (Place.listed Place.F_is_approved fields) eqn:Ha,
             (Place.listed Place.F_moderation_status fields) eqn:Hs; auto.
    + rewrite (Honly eq_refl eq_refl row Hin Hk). exact Hinst.
    + specialize (Hboth eq_refl). discriminate.
  - intros r1' r2' H1 H2 Hpk.
    apply in_update_place_rows in H1 as (r1 & Hin1 & Hpk1 & Hc1).
    apply in_update_place_rows in H2 as (r2 & Hin2 & Hpk2 & Hc2).
    assert (r1 = r2) as <- by (apply Hagree; congruence).
    destruct Hc1 as [[Hk1 ->] | [Hk1 ->]], Hc2 as [[Hk2 ->] | [Hk2 ->]];
      congruence.
Qed.

Lemma append_row_consistent k instance rows :
  rows_consistent rows -> in_sync instance ->
  existsb (Place.has_pk k) rows = false ->
  rows_consistent (rows ++ [Place.as_row k instance]).
Proof.
  intros [Hsync Hagree] Hinst Hfresh.
  assert (Hno : forall row, In row rows -> Place.pk row <> Some k).
  { intros row Hin Hpk.
    assert (existsb (Place.has_pk k) rows = true) as Hex; [|congruence].
    apply existsb_exists. exists row. split; [exact Hin|].
    unfold Place.has_pk. rewrite Hpk. apply Z.eqb_refl. }
  split.
  - intros row Hin. apply in_app_or in Hin as [Hin | [<- | []]]; [auto|].
    exact Hinst.
  - intros r1 r2 H1 H2 Hpk.
    apply in_app_or in H1 as [H1 | [<- | []]];
      apply in_app_or in H2 as [H2 | [<- | []]]; auto.
    + exfalso. apply (Hno r1 H1). rewrite Hpk. reflexivity.
    + exfalso. apply (Hno r2 H2). rewrite <- Hpk. reflexivity.
Qed.

Lemma place_save_consistent update_fields self s :
  rows_consistent (places s) -> write_keeps_sync update_fields self (places s) ->
  rows_consistent (places (final (places_models.save update_fields self s))).
Proof.
  intros Hcons Hwrite.
  destruct (place_save_places update_fields self s)
    as [-> | [(k & Hk & ->) | (k & -> & Hfresh & ->)]]; [exact Hcons | |].
  - apply update_rows_consistent; [exact Hcons | apply resynchronized_in_sync | |].
    + destruct update_fields as [fields|]; [apply Hwrite | reflexivity].
    + destruct update_fields as [fields|]; [|discriminate].
      cbn [written_fields]. destruct Hwrite as [_ Honly].
      intros Ha Hs row Hin Hpk. cbn. apply (Honly Ha Hs row Hin).
      unfold Place.has_pk in Hpk. destruct (Place.pk row); [|discriminate].
      apply Z.eqb_eq in Hpk. congruence.
  - apply append_row_consistent; [exact Hcons | apply resynchronized_in_sync | exact Hfresh].
Qed.

Lemma place_save_status_preserved update_fields self s :
  Place.listed Place.F_moderation_status (written_fields update_fields) = false ->
  forall row', In row' (places (final (places_models.save update_fields self s))) ->
  exists row, In row (places s) /\ Place.pk row = Place.pk row'
              /\ Place.moderation_status row = Place.moderation_status row'.
Proof.
  intros Hs row' Hin.
  destruct (place_save_places update_fields self s)
    as [Heq | [(k & Hk & Heq) | (k & -> & _)]]; [| |discriminate];
    rewrite Heq in Hin; [eauto|].
  apply in_update_place_rows in Hin as (row & Hin & Hpk & Hcase).
  exists row. split; [exact Hin|]. split; [auto|].
  destruct Hcase as [[_ ->] | [_ ->]]; [|reflexivity].
  cbn [Place.update_columns Place.moderation_status]. rewrite Hs. reflexivity.
Qed.

Lemma consistent_only_places (s s' : Store) :
  places s' = places s -> places_consistent s -> places_consistent s'.
Proof. unfold places_consistent. intros ->. auto. Qed.

Lemma place_save_preserves_consistent update_fields self :
  (forall rows, write_keeps_sync update_fields self rows) ->
  preserves places_consistent (places_models.save update_fields self).
Proof.
  intros Hwrite. apply hoare_final. intros s Hs.
  apply place_save_consistent; auto.
Qed.

Lemma log_preserves_consistent actor action target_type target_pk notes :
  preserves places_consistent
    (reviews_moderation.log_moderation_action actor action target_type target_pk notes).
Proof.
  apply (keeps_preserves places); [apply consistent_only_places | apply log_keeps_places].
Qed.

Ltac preserves_step :=
  match goal with
  | |- preserves _ (bind _ _) => apply preserves_bind; [|intros ?]
  | |- preserves _ (ret _) => apply preserves_ret
  | |- preserves _ (raise _) => apply preserves_raise
  | |- preserves _ (gets _) => apply preserves_gets
  | |- preserves _ timezone_now => apply preserves_gets
  | |- preserves _ (for_each _ _) => apply preserves_for_each; intros ?
  | |- preserves _ (try_except _ _ _) => apply preserves_try_except
  | |- preserves _ (discard _) => apply preserves_discard
  | |- preserves _ (match ?x with _ => _ end) => destruct x
  end.

Lemma approve_places_consistent request_user queryset :
  preserves places_consistent (places_admin.approve_places request_user queryset).
Proof.
  unfold places_admin.approve_places. repeat preserves_step.
  - apply place_save_preserves_consistent. intros rows. cbn. split; [auto | discriminate].
  - apply log_preserves_consistent.
Qed.

Lemma reject_places_consistent request_user queryset :
  preserves places_consistent (places_admin.reject_places request_user queryset).
Proof.
  unfold places_admin.reject_places. repeat preserves_step.
  - apply place_save_preserves_consistent. intros rows. cbn. split; [auto | discriminate].
  - apply log_preserves_consistent.
Qed.

Lemma restore_places_consistent request_user queryset :
  preserves places_consistent (places_admin.restore_places request_user queryset).
Proof.
  unfold places_admin.restore_places. repeat preserves_step.
  - apply place_save_preserves_consistent. intros rows. cbn. split; discriminate.
  - apply log_preserves_consistent.
Qed.

Lemma archive_save_step (x x' : Place.t) (rest : list Place.t) (s : Store) :
  Place.pk x' = Place.pk x -> Place.moderation_status x' = Place.moderation_status x ->
  places_consistent s /\ carry_stored_status (x :: rest) s ->
  let s' := final (places_models.save
                     (Some [Place.F_is_archived; Place.F_archived_at; Place.F_archived_by;
                            Place.F_is_approved]) x' s) in
  places_consistent s' /\ carry_stored_status rest s'.
Proof.
  intros Hpk Hst [Hcons Hcarry]. cbv zeta. split.
  - apply place_save_consistent; [exact Hcons|].
    cbn. split; [discriminate|]. intros _ _ row Hin Hrow.
    rewrite Hst. apply (Hcarry x); [left; reflexivity | exact Hin | congruence].
  - intros p Hp row' Hin' Hpk'.
    apply place_save_status_preserved in Hin' as (row & Hin & Hpkr & Hstr); [|reflexivity].
    rewrite <- Hstr. apply (Hcarry p); [right; exact Hp | exact Hin | congruence].
Qed.

Lemma selected_carry_stored_status (f : Place.t -> bool) (s : Store) :
  places_consistent s -> carry_stored_status (List.filter f (places s)) s.
Proof.
  intros [_ Hagree] p Hp row Hin Hpk.
  apply filter_In in Hp as [Hp _].
  rewrite (Hagree row p Hin Hp Hpk). reflexivity.
Qed.

Lemma archive_places_consistent request_user queryset :
  preserves places_consistent (places_admin.archive_places request_user queryset).
Proof.
  unfold places_admin.archive_places.
  apply preserves_bind; [apply preserves_gets|]. intros now.
  eapply hoare_bind.
  - apply (hoare_gets _ _
             (fun selected s => places_consistent s /\ carry_stored_status selected s)).
    intros s Hs. split; [exact Hs | apply selected_carry_stored_status; exact Hs].
  - intros selected.
    eapply hoare_conseq.
    + apply (hoare_for_each
               (fun rest s => places_consistent s /\ carry_stored_status rest s)
               places_consistent).
      intros x rest. eapply hoare_bind.
      * eapply hoare_conseq.
        -- apply (hoare_final _
                    (fun s => places_consistent s /\ carry_stored_status rest s)).
           intros s Hs. apply (archive_save_step x); [reflexivity | reflexivity | exact Hs].
        -- auto.
        -- cbn. intros a s Hs. exact Hs.
        -- cbn. intros s [Hs _]. exact Hs.
      * intros place.
        eapply hoare_conseq;
          [apply (keeps_preserves places
                    (fun s => places_consistent s /\ carry_stored_status rest s));
             [|apply log_keeps_places]
          | auto | auto | cbn; intros s [Hs _]; exact Hs].
        intros s s' Heq [Hc Hcarry]. split; [eapply consistent_only_places; eauto|].
        unfold carry_stored_status. rewrite Heq. exact Hcarry.
    + auto.
    + cbn. intros _ s [Hs _]. exact Hs.
    + auto.
Qed.

Lemma delete_model_consistent request_user obj :
  hoare (fun s => places_consistent s /\ In obj (places s))
    (places_admin.delete_model request_user obj)
    (fun _ => places_consistent) places_consistent.
Proof.
  unfold places_admin.delete_model.
  apply (hoare_bind _ _ _ (fun _ s => places_consistent s /\ In obj (places s)));
    [apply hoare_gets; intros s Hs; exact Hs|].
  intros now.
  eapply hoare_bind.
  - apply (hoare_final _ places_consistent). intros s [Hs Hin].
    apply (archive_save_step obj _ []); [reflexivity | reflexivity |].
    split; [exact Hs|].
    intros p [<- | []] row Hrow Hpk. destruct Hs as [_ Hagree].
    rewrite (Hagree row obj Hrow Hin Hpk). reflexivity.
  - intros place. apply log_preserves_consistent.
Qed.

Lemma update_pending_reports_keeps_places review status :
  keeps places (reviews_admin.update_pending_reports review status).
Proof. unfold reviews_admin.update_pending_reports. repeat keeps_step. Qed.

Lemma update_pending_reports_keeps_contributions review status :
  keeps contributions (reviews_admin.update_pending_reports review status).
Proof. unfold reviews_admin.update_pending_reports. repeat keeps_step. Qed.

Create HintDb keeps_places.
#[local] Hint Resolve log_keeps_places get_or_create_keeps_places
  contribution_save_keeps_places review_save_keeps_places
  update_pending_reports_keeps_places review_award_keeps_places : keeps_places.

Lemma uphold_review_keeps_places request_user review :
  keeps places (reviews_admin.uphold_review request_user review).
Proof.
  unfold reviews_admin.uphold_review. repeat keeps_step; auto with keeps_places.
Qed.

Lemma review_ops_keep_places (op : Operation) :
  match op with
  | SubmitReview _ _ _ _ | AdminSaveReview _ | ReportReview _ _ _
  | UpholdReviews _ _ | DismissReviews _ _ | ArchiveReviews _ _ | RestoreReviews _ _
  | AdminDeleteReview _ _ | AdminDeleteReviews _ _
  | MarkReportsUpheld _ | MarkReportsDismissed _
  | Tick _ | UserCreated _ | ContributionLookup _ => keeps places (run_op op)
  | _ => True
  end.
Proof.
  destruct op; try exact Logic.I; cbn [run_op];
    unfold accounts_signals.create_contribution, reviews_views._save_review,
      reviews_views.report_review, reviews_admin.uphold_reported_reviews,
      reviews_admin.dismiss_reported_reviews, reviews_admin.archive_reviews,
      reviews_admin.restore_reviews, reviews_admin.delete_model,
      reviews_admin.delete_queryset, reviews_admin.archive_reviews,
      reviews_admin.mark_upheld, reviews_admin.mark_dismissed, reviews_admin.mark_reports;
    repeat keeps_step; auto using uphold_review_keeps_places with keeps_places.
Qed.

Lemma opening_hours_save_consistent place opening_days opening_time closing_time commit :
  preserves places_consistent
    (places_forms.PlaceOpeningHoursForm_save place opening_days opening_time
       closing_time commit).
Proof.
  unfold places_forms.PlaceOpeningHoursForm_save. destruct commit; [|apply preserves_ret].
  apply place_save_preserves_consistent. intros rows. cbn. split; discriminate.
Qed.

Lemma run_op_consistent (op : Operation) : preserves places_consistent (run_op op).
Proof.
  pose proof (review_ops_keep_places op) as Hkeeps.
  destruct op;
    try (apply (keeps_preserves places); [apply consistent_only_places | exact Hkeeps]);
    clear Hkeeps; cbn [run_op].
  - (* AddPlace *)
    unfold places_views_submit.add_place. repeat preserves_step.
    apply place_save_preserves_consistent. intros rows. exact Logic.I.
  - (* AdminSavePlace *)
    apply preserves_discard. apply place_save_preserves_consistent.
    intros rows. exact Logic.I.
  - apply approve_places_consistent.
  - apply reject_places_consistent.
  - apply archive_places_consistent.
  - apply restore_places_consistent.
  - (* AdminDeletePlace *)
    apply (hoare_bind _ _ _
             (fun found s => places_consistent s /\
                             forall obj, found = Some obj -> In obj (places s))).
    + apply hoare_gets. intros s Hs. split; [exact Hs|].
      intros obj Hfind. apply find_some in Hfind. tauto.
    + intros [obj|].
      * eapply hoare_conseq; [apply (delete_model_consistent request_user obj) | | auto | auto].
        intros s [Hs Hin]. auto.
      * apply hoare_ret. tauto.
  - apply archive_places_consistent.
  - (* EditOpeningHours *)
    repeat preserves_step; apply opening_hours_save_consistent.
Qed.

Lemma reachable_consistent (s : Store) : reachable s -> places_consistent s.
Proof.
  induction 1 as [|s op _ IH].
  - split; [intros row []|intros r1 r2 []].
  - unfold apply_op. apply preserves_final; [apply run_op_consistent | exact IH].
Qed.

Lemma place_save_returned update_fields self s self' s' :
  places_models.save update_fields self s = Returned self' s' ->
  Place.is_approved self'
  = Place.ModerationStatus_eqb (Place.moderation_status self) Place.APPROVED
  /\ Place.moderation_status self' = Place.moderation_status self
  /\ Place.created_by self' = Place.created_by self
  /\ Place.class self' = Place.class self.
Proof.
  unfold places_models.save.
  assert (Hread : forall k : M Place.t,
            bind (match places_signals.pk_truthy (Place.pk self) with
                  | Some k0 => places_signals.stored_moderation_status k0
                  | None => ret None
                  end) (fun _ => k) s = k s).
  { intros k. unfold bind, places_signals.stored_moderation_status.
    destruct (places_signals.pk_truthy (Place.pk self)); reflexivity. }
  rewrite Hread. clear Hread. fold (resynchronized self).
  unfold places_models.Model_save.
  destruct update_fields as [[|f fields]|];
    [intros [= <- _]; repeat split | |].
  all: unfold bind at 1;
    destruct (pre_save_send_result places_signals.connected_senders
                (Place.class (resynchronized self)) (resynchronized self) s) as (v & ->);
    unfold bind at 1;
    match goal with
    | |- context [places_models._save_table ?uf ?i ?st] =>
        pose proof (place_save_table_result uf i st) as Hres;
        destruct (places_models._save_table uf i st) as [self2 s2 | e s2]
    end; [|discriminate].
  all: unfold bind;
    destruct (places_signals.post_save_send _ _ _ s2) as [[] s3 | e s3]; [|discriminate];
    intros [= <- _].
  all: destruct Hres as [(k & _ & -> & _) | (k & _ & _ & -> & _)]; repeat split.
Qed.

(** C2: in every database the operations of the application can produce,
    each stored place has [is_approved] equal to (moderation_status ==
    approved); [Place.save] ignores the [is_approved] its caller assigned;
    and the instance it returns carries the recomputed flag. *)
Theorem place_is_approved_in_sync_after_every_save :
  (forall s : Store, reachable s ->
   forall row, In row (places s) ->
     Place.is_approved row
     = Place.ModerationStatus_eqb (Place.moderation_status row) Place.APPROVED)
  /\ (forall update_fields self (assigned : bool) s,
        places_models.save update_fields (Place.set_is_approved assigned self) s
        = places_models.save update_fields self s)
  /\ (forall update_fields self s self' s',
        places_models.save update_fields self s = Returned self' s' ->
        Place.is_approved self'
        = Place.ModerationStatus_eqb (Place.moderation_status self') Place.APPROVED).
Proof.
  split; [|split].
  - intros s Hreach row Hin.
    destruct (reachable_consistent s Hreach) as [Hsync _]. exact (Hsync row Hin).
  - intros update_fields self assigned s. reflexivity.
  - intros update_fields self s self' s' Hsave.
    apply place_save_returned in Hsave as (Ha & Hs & _). rewrite Ha, Hs. reflexivity.
Qed.

Lemma place_is_approved_in_sync_after_every_save_witness :
  let submitted :=
    Place.mk None Place.FoodPlace "Quay Cafe" "" None None (Some 50100000)
      (Some (-5100000)) (Some 2) None true false None Place.PENDING None in
  let stored :=
    Place.mk (Some 1) Place.FoodPlace "Quay Cafe" "" None None (Some 50100000)
      (Some (-5100000)) (Some 2) None false false None Place.PENDING None in
  In stored (places (apply_op (AdminSavePlace submitted) empty_store))
  /\ Place.is_approved stored
     = Place.ModerationStatus_eqb (Place.moderation_status stored) Place.APPROVED.
Proof.
  cbv zeta. split; [left; reflexivity|].
  apply (proj1 place_is_approved_in_sync_after_every_save
           (apply_op
              (AdminSavePlace
                 (Place.mk None Place.FoodPlace "Quay Cafe" "" None None (Some 50100000)
                    (Some (-5100000)) (Some 2) None true false None Place.PENDING None))
              empty_store)).
  - apply reachable_step, reachable_empty.
  - left. reflexivity.
Defined.

(** ** The reward for an approved place *)

Lemma bind_ret_r {A} (m : M A) (s : Store) : bind m (fun x => ret x) s = m s.
Proof. unfold bind. destruct (m s); reflexivity. Qed.

Lemma store_previous_status_result instance s :
  places_signals._store_previous_status instance s
  = Returned (Place.set_previous_moderation_status (previously_stored_status s instance)
                instance) s.
Proof.
  unfold places_signals._store_previous_status, places_signals._set_previous_status,
    previously_stored_status, places_signals.stored_moderation_status.
  destruct (places_signals.pk_truthy (Place.pk instance)); reflexivity.
Qed.

Lemma pre_save_send_connected sender instance s :
  places_signals.pre_save_send places_signals.connected_senders sender instance s
  = Returned (Place.set_previous_moderation_status (previously_stored_status s instance)
                instance) s.
Proof.
  rewrite <- store_previous_status_result.
  destruct sender; cbn [places_signals.pre_save_send places_signals.connected_senders
                          Place.Class_eqb]; apply bind_ret_r.
Qed.

Lemma get_or_create_save u fields (f : Contribution.t -> Contribution.t) s :
  (let* c := ContributionObjects.get_or_create u in
   ContributionObjects.save fields u (f c)) s
  = Returned tt
      (with_contributions
         (<[u := Contribution.update_columns fields (f (contribution_of s u))
                   (contribution_of s u)]> (contributions s)) s).
Proof.
  unfold bind, ContributionObjects.get_or_create, ContributionObjects.save, contribution_of.
  destruct (contributions s !! u) as [c|] eqn:Hc; cbn.
  - rewrite Hc. reflexivity.
  - rewrite lookup_insert_eq. unfold with_contributions. cbn.
    rewrite insert_insert_eq. reflexivity.
Qed.

Lemma place_award_result instance s :
  places_signals._award_points_if_newly_approved instance s
  = Returned tt
      (if places_signals.is_approved_status (Place._previous_moderation_status instance)
       then s
       else if negb (Place.ModerationStatus_eqb (Place.moderation_status instance)
                       Place.APPROVED)
       then s
       else match Place.created_by instance with
            | None => s
            | Some u =>
                with_contributions
                  (<[u := place_award (contribution_of s u)]> (contributions s)) s
            end).
Proof.
  unfold places_signals._award_points_if_newly_approved.
  destruct (places_signals.is_approved_status _); [reflexivity|].
  destruct (negb _); [reflexivity|].
  destruct (Place.created_by instance) as [u|]; [|reflexivity].
  apply (get_or_create_save u [Contribution.F_places_added; Contribution.F_points]
           (fun c => Contribution.set_points (Contribution.points
                        (Contribution.set_places_added (Contribution.places_added c + 1) c)
                        + 50)
                       (Contribution.set_places_added (Contribution.places_added c + 1) c))).
Qed.

Lemma post_save_send_connected sender instance s :
  places_signals.post_save_send places_signals.connected_senders sender instance s
  = places_signals._award_points_if_newly_approved instance s.
Proof.
  destruct sender; cbn [places_signals.post_save_send places_signals.connected_senders
                          Place.Class_eqb];
    unfold bind, places_signals._award_points_on_approval;
    rewrite place_award_result; reflexivity.
Qed.

Lemma place_save_unfold update_fields self s :
  update_fields <> Some [] ->
  places_models.save update_fields self s
  = match places_models._save_table update_fields
            (Place.set_previous_moderation_status (previously_stored_status s self)
               (resynchronized self)) s with
    | Returned self2 s2 =>
        match places_signals._award_points_if_newly_approved self2 s2 with
        | Returned _ s3 => Returned self2 s3
        | Raised e s3 => Raised e s3
        end
    | Raised e s2 => Raised e s2
    end.
Proof.
  intros Hne. unfold places_models.save.
  assert (Hread : forall k : M Place.t,
            bind (match places_signals.pk_truthy (Place.pk self) with
                  | Some k0 => places_signals.stored_moderation_status k0
                  | None => ret None
                  end) (fun _ => k) s = k s).
  { intros k. unfold bind, places_signals.stored_moderation_status.
    destruct (places_signals.pk_truthy (Place.pk self)); reflexivity. }
  rewrite Hread. clear Hread. fold (resynchronized self).
  unfold places_models.Model_save.
  destruct update_fields as [[|f fields]|]; [congruence | |].
  all: unfold bind at 1; rewrite pre_save_send_connected; unfold bind at 1;
    change (previously_stored_status s (resynchronized self))
      with (previously_stored_status s self);
    destruct (places_models._save_table _ _ s) as [self2 s2 | e s2]; [|reflexivity];
    unfold bind; rewrite post_save_send_connected;
    destruct (places_signals._award_points_if_newly_approved self2 s2); reflexivity.
Qed.




(** ** Upholding reports *)

Lemma get_or_create_save_then {A} u fields (f : Contribution.t -> Contribution.t)
    (k : M A) s :
  (let* c := ContributionObjects.get_or_create u in
   let* _ := ContributionObjects.save fields u (f c) in k) s
  = k (with_contributions
         (<[u := Contribution.update_columns fields (f (contribution_of s u))
                   (contribution_of s u)]> (contributions s)) s).
Proof.
  unfold bind, ContributionObjects.get_or_create, ContributionObjects.save, contribution_of.
  destruct (contributions s !! u) as [c|] eqn:Hc; cbn.
  - rewrite Hc. reflexivity.
  - rewrite lookup_insert_eq. unfold with_contributions. cbn.
    rewrite insert_insert_eq. reflexivity.
Qed.

Lemma review_forced_update_result f fields self s :
  reviews_models.save (Some (f :: fields)) self s
  = match Review.pk self with
    | None => Raised ValueError s
    | Some k =>
        match find (Review.has_pk k) (reviews s) with
        | None => Raised DatabaseError s
        | Some row =>
            if reviews_models.touches_constraint (f :: fields)
               && reviews_models.violates_unique (reviews s)
                    (Review.update_columns (f :: fields) self row)
            then Raised IntegrityError s
            else Returned self
                   (with_reviews
                      (reviews_models.update_rows (f :: fields) k self (reviews s)) s)
        end
    end.
Proof.
  unfold reviews_models.save, reviews_models._save_table, bind.
  destruct (Review.pk self) as [k|]; [|reflexivity].
  unfold reviews_models.update.
  destruct (find (Review.has_pk k) (reviews s)) as [row|]; [|reflexivity].
  destruct (_ && _); reflexivity.
Qed.

Lemma review_forced_update_keeps_contributions fields self :
  keeps contributions (reviews_models.save (Some fields) self).
Proof.
  destruct fields as [|f fields]; [intros s; reflexivity|].
  intros s. rewrite review_forced_update_result.
  destruct (Review.pk self) as [k|]; [|reflexivity].
  destruct (find (Review.has_pk k) (reviews s)) as [row|]; [|reflexivity].
  destruct (_ && _); reflexivity.
Qed.

Lemma uphold_review_unfold request_user review s :
  reviews_admin.uphold_review request_user review s
  = (let* _ := reviews_models.save (Some uphold_fields) (upheld_instance review) in
     reviews_moderation.log_moderation_action request_user ModerationLog.REVIEW_UPHELD
       ModerationLog.CT_Review (Review.pk review) "Upheld reported review in admin.")
      (with_contributions (upheld_ledger review s)
         (with_reports
            (map (fun rep =>
                    if reviews_models.opt_Z_eqb (Some (ReviewReport.review rep))
                         (Review.pk review)
                       && ReviewReport.Status_eqb (ReviewReport.status rep)
                            ReviewReport.PENDING
                    then ReviewReport.set_status ReviewReport.UPHELD rep
                    else rep) (reports s)) s)).
Proof.
  unfold reviews_admin.uphold_review, reviews_admin.update_pending_reports.
  unfold bind at 1. cbn [modify].
  unfold upheld_instance, upheld_ledger.
  cbn [Review.user Review.set_reported Review.set_is_approved
       Review.moderation_penalty_applied Review.pk].
  destruct (Review.user review) as [u|].
  - destruct (negb (Review.moderation_penalty_applied review)).
    + unfold bind at 1.
      rewrite (get_or_create_save_then u
                 [Contribution.F_upheld_reports_count; Contribution.F_points;
                  Contribution.F_review_restriction_active]
                 (fun contribution =>
                    let contribution0 :=
                      Contribution.set_upheld_reports_count
                        (Contribution.upheld_reports_count contribution + 1) contribution in
                    let contribution1 :=
                      Contribution.set_points
                        (Z.max 0 (Contribution.points contribution0 - 30)) contribution0 in
                    if 3 <=? Contribution.upheld_reports_count contribution1
                    then Contribution.set_review_restriction_active true contribution1
                    else contribution1)).
      cbn [ret].
      match goal with
      | |- context [Contribution.update_columns ?fs ?i ?c] =>
          assert (Contribution.update_columns fs i c = upheld_penalty c) as ->
      end.
      { unfold upheld_penalty. cbv zeta.
        cbn [Contribution.upheld_reports_count Contribution.set_points
             Contribution.set_upheld_reports_count].
        destruct (3 <=? _); reflexivity. }
      reflexivity.
    + reflexivity.
  - reflexivity.
Qed.

Lemma uphold_review_contributions request_user review s :
  contributions (final (reviews_admin.uphold_review request_user review s))
  = upheld_ledger review s.
Proof.
  rewrite uphold_review_unfold.
  match goal with
  | |- contributions (final (bind ?m ?k ?st)) = _ =>
      assert (Hkeep : keeps contributions (bind m k))
  end.
  { apply keeps_bind; [apply review_forced_update_keeps_contributions|].
    intros. apply log_keeps_contributions. }
  rewrite Hkeep. reflexivity.
Qed.

Lemma find_has_pk_in (rows : list Review.t) (r : Review.t) (k : Z) :
  In r rows -> Review.pk r = Some k -> exists row, find (Review.has_pk k) rows = Some row.
Proof.
  intros Hin Hpk. destruct (find (Review.has_pk k) rows) as [row|] eqn:Hfind; [eauto|].
  exfalso. pose proof (find_none _ _ Hfind r Hin) as Hno.
  unfold Review.has_pk in Hno. rewrite Hpk, Z.eqb_refl in Hno. discriminate.
Qed.

Lemma uphold_review_result request_user review k s :
  In review (reviews s) -> Review.pk review = Some k ->
  exists s',
    reviews_admin.uphold_review request_user review s = Returned tt s'
    /\ contributions s' = upheld_ledger review s
    /\ reviews s' = reviews_models.update_rows uphold_fields k (upheld_instance review)
                      (reviews s)
    /\ places s' = places s
    /\ moderation_log s'
       = moderation_log s
         ++ [ModerationLog.mk (Some request_user) ModerationLog.REVIEW_UPHELD
               ModerationLog.CT_Review k "Upheld reported review in admin."].
Proof.
  intros Hin Hpk. rewrite uphold_review_unfold. unfold bind at 1.
  unfold uphold_fields. rewrite review_forced_update_result.
  assert (Hpk' : Review.pk (upheld_instance review) = Some k).
  { unfold upheld_instance. destruct (Review.user review); [destruct (negb _)|]; exact Hpk. }
  rewrite Hpk'. cbn [reviews with_contributions with_reports].
  destruct (find_has_pk_in (reviews s) review k Hin Hpk) as (row & ->).
  cbn [reviews_models.touches_constraint Review.listed existsb Review.Field_eqb orb andb].
  rewrite Hpk. cbn. eexists. split; [reflexivity|]. repeat split.
Qed.

Lemma uphold_single request_user queryset review s :
  List.filter (reviews_admin.reported_and_live queryset) (reviews s) = [review] ->
  reviews_admin.uphold_reported_reviews request_user queryset s
  = (let* _ := reviews_admin.uphold_review request_user review in ret tt) s.
Proof.
  intros Hsel. unfold reviews_admin.uphold_reported_reviews.
  unfold bind at 1. cbn [gets]. rewrite Hsel. reflexivity.
Qed.

Lemma uphold_nothing_selected request_user queryset s :
  List.filter (reviews_admin.reported_and_live queryset) (reviews s) = [] ->
  reviews_admin.uphold_reported_reviews request_user queryset s = Returned tt s.
Proof.
  intros Hsel. unfold reviews_admin.uphold_reported_reviews.
  unfold bind at 1. cbn [gets]. rewrite Hsel. reflexivity.
Qed.

Lemma filter_nil_iff {A} (f : A -> bool) (l : list A) :
  List.filter f l = [] <-> forall x, In x l -> f x = false.
Proof.
  induction l as [|x l IH]; cbn.
  - split; [intros _ ? []|reflexivity].
  - destruct (f x) eqn:Hx; split.
    + discriminate.
    + intros H. specialize (H x (or_introl eq_refl)). congruence.
    + intros H y [<- | Hy]; [exact Hx | apply IH; auto].
    + intros H. apply IH. intros y Hy. apply H. right. exact Hy.
Qed.

Lemma upheld_instance_not_reported review :
  Review.reported (upheld_instance review) = false
  /\ Review.is_approved (upheld_instance review) = false.
Proof.
  unfold upheld_instance. destruct (Review.user review); [destruct (negb _)|]; split;
    reflexivity.
Qed.

Lemma uphold_leaves_nothing_selected queryset review k s :
  List.filter (reviews_admin.reported_and_live queryset) (reviews s) = [review] ->
  Review.pk review = Some k ->
  List.filter (reviews_admin.reported_and_live queryset)
    (reviews_models.update_rows uphold_fields k (upheld_instance review) (reviews s)) = [].
Proof.
  intros Hsel Hpk. apply filter_nil_iff. intros r' Hin.
  unfold reviews_models.update_rows in Hin. apply in_map_iff in Hin as (r & <- & Hin).
  destruct (Review.has_pk k r) eqn:Hk.
  - unfold reviews_admin.reported_and_live.
    cbn [Review.update_columns Review.reported uphold_fields Review.listed existsb
         Review.Field_eqb orb].
    rewrite (proj1 (upheld_instance_not_reported review)).
    rewrite andb_false_r. reflexivity.
  - destruct (reviews_admin.reported_and_live queryset r) eqn:Hr; [|reflexivity].
    assert (In r [review]) as [<- | []].
    { rewrite <- Hsel. apply filter_In. split; assumption. }
    unfold Review.has_pk in Hk. rewrite Hpk, Z.eqb_refl in Hk. discriminate.
Qed.

Lemma uphold_single_result request_user queryset review k s :
  List.filter (reviews_admin.reported_and_live queryset) (reviews s) = [review] ->
  Review.pk review = Some k ->
  exists s',
    reviews_admin.uphold_reported_reviews request_user queryset s = Returned tt s'
    /\ contributions s' = upheld_ledger review s
    /\ reviews s' = reviews_models.update_rows uphold_fields k (upheld_instance review)
                      (reviews s)
    /\ moderation_log s'
       = moderation_log s
         ++ [ModerationLog.mk (Some request_user) ModerationLog.REVIEW_UPHELD
               ModerationLog.CT_Review k "Upheld reported review in admin."]
    /\ reviews_admin.uphold_reported_reviews request_user queryset s' = Returned tt s'.
Proof.
  intros Hsel Hpk.
  assert (Hin : In review (reviews s)).
  { assert (In review [review]) as H by (left; reflexivity).
    rewrite <- Hsel in H. apply filter_In in H. tauto. }
  destruct (uphold_review_result request_user review k s Hin Hpk)
    as (s' & Hrun & Hc & Hr & _ & Hlog).
  exists s'. rewrite (uphold_single _ _ _ _ Hsel). unfold bind. rewrite Hrun.
  split; [reflexivity|]. split; [exact Hc|]. split; [exact Hr|]. split; [exact Hlog|].
  apply uphold_nothing_selected. rewrite Hr.
  apply uphold_leaves_nothing_selected; assumption.
Qed.

(** C4: when the uphold action processes a reported, non-archived review
    with an author, it returns; if the penalty had not been applied, the
    author's contribution has [upheld_reports_count] one higher and points
    max(0, points - 30), nobody else's contribution changes, and the stored
    review has [moderation_penalty_applied] true; if the penalty had been
    applied already the ledger is unchanged; and running the action again
    changes nothing at all. *)
Theorem uphold_penalises_author_once request_user queryset s review u k :
  List.filter (reviews_admin.reported_and_live queryset) (reviews s) = [review] ->
  Review.pk review = Some k ->
  Review.user review = Some u ->
  exists s',
    reviews_admin.uphold_reported_reviews request_user queryset s = Returned tt s'
    /\ (Review.moderation_penalty_applied review = false ->
        let before := contribution_of s u in
        exists after,
          contributions s' !! u = Some after
          /\ Contribution.upheld_reports_count after
             = Contribution.upheld_reports_count before + 1
          /\ Contribution.points after = Z.max 0 (Contribution.points before - 30)
          /\ Contribution.places_added after = Contribution.places_added before
          /\ Contribution.reviews_added after = Contribution.reviews_added before
          /\ (forall v, v <> u -> contributions s' !! v = contributions s !! v)
          /\ (forall r, In r (reviews s') -> Review.pk r = Some k ->
                        Review.moderation_penalty_applied r = true))
    /\ (Review.moderation_penalty_applied review = true ->
        contributions s' = contributions s)
    /\ reviews_admin.uphold_reported_reviews request_user queryset s' = Returned tt s'.
Proof.
  intros Hsel Hpk Hu.
  destruct (uphold_single_result request_user queryset review k s Hsel Hpk)
    as (s' & Hrun & Hc & Hr & _ & Hagain).
  exists s'. split; [exact Hrun|]. split; [|split; [|exact Hagain]].
  - intros Hpen. cbv zeta. unfold upheld_ledger in Hc. rewrite Hu, Hpen in Hc. cbn in Hc.
    exists (upheld_penalty (contribution_of s u)). rewrite Hc.
    split; [apply lookup_insert_eq|]. repeat split.
    + intros v Hv. apply lookup_insert_ne. congruence.
    + intros r Hin Hrk. rewrite Hr in Hin.
      unfold reviews_models.update_rows in Hin. apply in_map_iff in Hin as (r0 & <- & _).
      destruct (Review.has_pk k r0) eqn:Hk0.
      * unfold upheld_instance. rewrite Hu, Hpen. reflexivity.
      * exfalso. unfold Review.has_pk in Hk0. rewrite Hrk, Z.eqb_refl in Hk0.
        discriminate.
  - intros Hpen. unfold upheld_ledger in Hc. rewrite Hu, Hpen in Hc. exact Hc.
Qed.

(** C10: when the uphold action processes a reported, non-archived guest
    review, the contribution table is left exactly as it was, the stored
    review is hidden ([is_approved] and [reported] false) with
    [moderation_penalty_applied] still false, and one log entry naming the
    moderator, the action and the review is appended. *)
Theorem uphold_guest_review_leaves_ledger request_user queryset s review k :
  List.filter (reviews_admin.reported_and_live queryset) (reviews s) = [review] ->
  Review.pk review = Some k ->
  Review.user review = None ->
  Review.moderation_penalty_applied review = false ->
  exists s',
    reviews_admin.uphold_reported_reviews request_user queryset s = Returned tt s'
    /\ contributions s' = contributions s
    /\ (exists r, In r (reviews s') /\ Review.pk r = Some k)
    /\ (forall r, In r (reviews s') -> Review.pk r = Some k ->
          Review.is_approved r = false /\ Review.reported r = false
          /\ Review.moderation_penalty_applied r = false)
    /\ moderation_log s'
       = moderation_log s
         ++ [ModerationLog.mk (Some request_user) ModerationLog.REVIEW_UPHELD
               ModerationLog.CT_Review k "Upheld reported review in admin."].
Proof.
  intros Hsel Hpk Hu Hpen.
  destruct (uphold_single_result request_user queryset review k s Hsel Hpk)
    as (s' & Hrun & Hc & Hr & Hlog & _).
  exists s'. split; [exact Hrun|]. split; [|split; [|split; [|exact Hlog]]].
  - unfold upheld_ledger in Hc. rewrite Hu in Hc. exact Hc.
  - assert (Hin : In review (reviews s)).
    { assert (In review [review]) as H by (left; reflexivity).
      rewrite <- Hsel in H. apply filter_In in H. tauto. }
    exists (Review.update_columns uphold_fields (upheld_instance review) review).
    split; [|exact Hpk].
    rewrite Hr. unfold reviews_models.update_rows. apply in_map_iff.
    exists review. split; [|exact Hin].
    unfold Review.has_pk. rewrite Hpk, Z.eqb_refl. reflexivity.
  - intros r Hin Hrk. rewrite Hr in Hin.
    unfold reviews_models.update_rows in Hin. apply in_map_iff in Hin as (r0 & <- & _).
    destruct (Review.has_pk k r0) eqn:Hk0.
    + unfold upheld_instance. rewrite Hu. cbn. auto.
    + exfalso. unfold Review.has_pk in Hk0. rewrite Hrk, Z.eqb_refl in Hk0.
      discriminate.
Qed.

(** ** The ledger under every operation *)

Lemma review_award_result instance created s :
  accounts_signals.award_points_for_review instance created s
  = Returned tt
      (match created, Review.user instance with
       | true, Some u =>
           with_contributions
             (<[u := review_award (contribution_of s u)]> (contributions s)) s
       | _, _ => s
       end).
Proof.
  unfold accounts_signals.award_points_for_review.
  destruct created; [|reflexivity].
  destruct (Review.user instance) as [u|]; [|reflexivity].
  apply (get_or_create_save u [Contribution.F_reviews_added; Contribution.F_points]
           (fun c => Contribution.set_points (Contribution.points
                        (Contribution.set_reviews_added (Contribution.reviews_added c + 1) c)
                        + 10)
                       (Contribution.set_reviews_added (Contribution.reviews_added c + 1) c))).
Qed.

Section LedgerInvariant.

(** A property of the contribution table that survives the insertion of a
    row of defaults and each of the three ledger transitions. *)
Variable Phi : gmap Z Contribution.t -> Prop.
Hypothesis Phi_default :
  forall m u, Phi m -> m !! u = None -> Phi (<[u := Contribution.default]> m).
Hypothesis Phi_update :
  forall m u c c', Phi m -> m !! u = Some c -> ledger_update c c' -> Phi (<[u := c']> m).

Let ledger_ok (s : Store) : Prop := Phi (contributions s).

Lemma ledger_ok_only_contributions (s s' : Store) :
  contributions s' = contributions s -> ledger_ok s -> ledger_ok s'.
Proof. unfold ledger_ok. intros ->. auto. Qed.

Lemma ledger_ok_upsert (s : Store) (u : user_id) (c' : Contribution.t) :
  ledger_update (contribution_of s u) c' -> ledger_ok s ->
  Phi (<[u := c']> (contributions s)).
Proof.
  unfold ledger_ok, contribution_of. intros Hupd Hok.
  destruct (contributions s !! u) as [c|] eqn:Hc; cbn in Hupd.
  - eapply Phi_update; eauto.
  - rewrite <- (insert_insert_eq (contributions s) u c' Contribution.default).
    eapply Phi_update; [apply Phi_default; eauto | apply lookup_insert_eq | exact Hupd].
Qed.

Lemma get_or_create_ledger_ok u : preserves ledger_ok (ContributionObjects.get_or_create u).
Proof.
  intros s Hs. unfold ContributionObjects.get_or_create.
  destruct (contributions s !! u) eqn:Hc; [exact Hs|].
  apply Phi_default; assumption.
Qed.

Lemma place_award_ledger_ok instance :
  preserves ledger_ok (places_signals._award_points_if_newly_approved instance).
Proof.
  intros s Hs. rewrite place_award_result.
  destruct (places_signals.is_approved_status _); [exact Hs|].
  destruct (negb _); [exact Hs|].
  destruct (Place.created_by instance) as [u|]; [|exact Hs].
  apply ledger_ok_upsert; [constructor | exact Hs].
Qed.

Lemma review_award_ledger_ok instance created :
  preserves ledger_ok (accounts_signals.award_points_for_review instance created).
Proof.
  intros s Hs. rewrite review_award_result.
  destruct created; [|exact Hs].
  destruct (Review.user instance) as [u|]; [|exact Hs].
  apply ledger_ok_upsert; [constructor | exact Hs].
Qed.

Lemma uphold_review_ledger_ok request_user review :
  preserves ledger_ok (reviews_admin.uphold_review request_user review).
Proof.
  apply hoare_final. intros s Hs. unfold ledger_ok.
  rewrite uphold_review_contributions. unfold upheld_ledger.
  destruct (Review.user review) as [u|]; [|exact Hs].
  destruct (negb _); [|exact Hs].
  apply ledger_ok_upsert; [constructor | exact Hs].
Qed.

Lemma keeps_ledger_ok {A} (m : M A) : keeps contributions m -> preserves ledger_ok m.
Proof. apply keeps_preserves. apply ledger_ok_only_contributions. Qed.

Lemma post_save_send_ledger_ok senders sender instance :
  preserves ledger_ok (places_signals.post_save_send senders sender instance).
Proof.
  induction senders as [|c rest IH]; cbn [places_signals.post_save_send].
  - apply preserves_ret.
  - destruct (Place.Class_eqb c sender); [|exact IH].
    apply preserves_bind; [apply place_award_ledger_ok | intros; exact IH].
Qed.

Ltac ledger_step :=
  match goal with
  | |- preserves _ (bind _ _) => apply preserves_bind; [|intros ?]
  | |- preserves _ (ret _) => apply preserves_ret
  | |- preserves _ (raise _) => apply preserves_raise
  | |- preserves _ (gets _) => apply preserves_gets
  | |- preserves _ timezone_now => apply preserves_gets
  | |- preserves _ (for_each _ _) => apply preserves_for_each; intros ?
  | |- preserves _ (try_except _ _ _) => apply preserves_try_except
  | |- preserves _ (discard _) => apply preserves_discard
  | |- preserves _ (modify _) =>
      apply preserves_modify; let s := fresh in let H := fresh in intros s H; exact H
  | |- preserves _ (match ?x with _ => _ end) => destruct x
  end.

Lemma place_save_ledger_ok update_fields self :
  preserves ledger_ok (places_models.save update_fields self).
Proof.
  unfold places_models.save, places_models.Model_save,
    places_signals.stored_moderation_status.
  repeat ledger_step;
    auto using post_save_send_ledger_ok, keeps_ledger_ok, pre_save_send_keeps,
      place_save_table_keeps_contributions.
Qed.

Lemma review_save_ledger_ok update_fields self :
  preserves ledger_ok (reviews_models.save update_fields self).
Proof.
  unfold reviews_models.save.
  repeat ledger_step;
    auto using review_award_ledger_ok, keeps_ledger_ok,
      review_save_table_keeps_contributions.
Qed.

Lemma log_ledger_ok actor action target_type target_pk notes :
  preserves ledger_ok
    (reviews_moderation.log_moderation_action actor action target_type target_pk notes).
Proof. apply keeps_ledger_ok, log_keeps_contributions. Qed.

Lemma run_op_ledger_ok (op : Operation) : preserves ledger_ok (run_op op).
Proof.
  destruct op; cbn [run_op];
    unfold accounts_signals.create_contribution, places_views_submit.add_place,
      places_admin.save_model, places_admin.approve_places, places_admin.reject_places,
      places_admin.delete_queryset, places_admin.archive_places,
      places_admin.restore_places, places_admin.delete_model,
      places_forms.PlaceOpeningHoursForm_save,
      reviews_views._save_review, reviews_views.report_review,
      reviews_admin.uphold_reported_reviews, reviews_admin.dismiss_reported_reviews,
      reviews_admin.delete_queryset, reviews_admin.archive_reviews,
      reviews_admin.restore_reviews, reviews_admin.delete_model,
      reviews_admin.mark_upheld, reviews_admin.mark_dismissed, reviews_admin.mark_reports,
      reviews_admin.update_pending_reports;
    repeat ledger_step;
    auto using get_or_create_ledger_ok, place_save_ledger_ok, review_save_ledger_ok,
      log_ledger_ok, uphold_review_ledger_ok.
Qed.

Lemma apply_op_ledger_ok (op : Operation) (s : Store) :
  Phi (contributions s) -> Phi (contributions (apply_op op s)).
Proof.
  intros Hs. unfold apply_op.
  apply (preserves_final ledger_ok); [apply run_op_ledger_ok | exact Hs].
Qed.

Lemma apply_ops_ledger_ok (ops : list Operation) (s : Store) :
  Phi (contributions s) -> Phi (contributions (apply_ops ops s)).
Proof.
  unfold apply_ops. revert s. induction ops as [|op ops IH]; intros s Hs; cbn; [exact Hs|].
  apply IH, apply_op_ledger_ok, Hs.
Qed.

End LedgerInvariant.

Lemma restriction_threshold_invariant (s : Store) :
  reachable s ->
  forall u c, contributions s !! u = Some c ->
              3 <= Contribution.upheld_reports_count c ->
              Contribution.review_restriction_active c = true.
Proof.
  induction 1 as [|s op _ IH].
  - intros u c Hc. cbn in Hc. rewrite lookup_empty in Hc. discriminate.
  - apply (apply_op_ledger_ok
             (fun m => forall u c, m !! u = Some c ->
                                   3 <= Contribution.upheld_reports_count c ->
                                   Contribution.review_restriction_active c = true));
      [| |exact IH].
    + intros m u Hm Hnone v c Hc Hge.
      destruct (decide (u = v)) as [->|Hne].
      * rewrite lookup_insert_eq in Hc. injection Hc as <-. cbn in Hge. lia.
      * rewrite lookup_insert_ne in Hc by exact Hne. eauto.
    + intros m u c c' Hm Hc Hupd v d Hd Hge.
      destruct (decide (u = v)) as [->|Hne].
      * rewrite lookup_insert_eq in Hd. injection Hd as <-.
        destruct Hupd; cbn in *; eauto.
        destruct (Z.leb_spec 3 (Contribution.upheld_reports_count c + 1));
          [reflexivity | lia].
      * rewrite lookup_insert_ne in Hd by exact Hne. eauto.
Qed.

Lemma restricted_stays_restricted (ops : list Operation) (s : Store) (u : user_id) :
  restricted s u -> restricted (apply_ops ops s) u.
Proof.
  unfold restricted.
  apply (apply_ops_ledger_ok
           (fun m => exists c, m !! u = Some c
                               /\ Contribution.review_restriction_active c = true)).
  - intros m v (c & Hc & Hflag) Hnone. exists c. split; [|exact Hflag].
    rewrite lookup_insert_ne; [exact Hc|]. intros Heq. subst v.
    pose proof (eq_trans (eq_sym Hnone) Hc) as Habsurd. discriminate Habsurd.
  - intros m v c c' (d & Hd & Hflag) Hc Hupd.
    destruct (decide (v = u)) as [->|Hne].
    + exists c'. split; [apply lookup_insert_eq|].
      pose proof (eq_trans (eq_sym Hd) Hc) as Hsame. injection Hsame as ->.
      destruct Hupd; cbn; [exact Hflag | exact Hflag |].
      rewrite Hflag. destruct (3 <=? _); reflexivity.
    + exists d. split; [|exact Hflag]. rewrite lookup_insert_ne; [exact Hd | exact Hne].
Qed.

Lemma uphold_action_restricts_at_threshold request_user queryset (s : Store)
    (u : user_id) (after : Contribution.t) :
  contributions (final (reviews_admin.uphold_reported_reviews request_user queryset s)) !! u
  = Some after ->
  3 <= Contribution.upheld_reports_count after ->
  Contribution.review_restriction_active after = true
  \/ exists before,
       contributions s !! u = Some before
       /\ Contribution.upheld_reports_count after = Contribution.upheld_reports_count before.
Proof.
  change (final (reviews_admin.uphold_reported_reviews request_user queryset s))
    with (apply_op (UpholdReviews request_user queryset) s).
  revert u after.
  apply (apply_op_ledger_ok
           (fun m => forall u after,
              m !! u = Some after ->
              3 <= Contribution.upheld_reports_count after ->
              Contribution.review_restriction_active after = true
              \/ exists before,
                   contributions s !! u = Some before
                   /\ Contribution.upheld_reports_count after
                      = Contribution.upheld_reports_count before)).
  - intros m v Hm Hnone u after Hafter Hge.
    destruct (decide (v = u)) as [->|Hne].
    + rewrite lookup_insert_eq in Hafter. injection Hafter as <-. cbn in Hge. lia.
    + rewrite lookup_insert_ne in Hafter by exact Hne. eauto.
  - intros m v c c' Hm Hc Hupd u after Hafter Hge.
    destruct (decide (v = u)) as [->|Hne].
    + rewrite lookup_insert_eq in Hafter. injection Hafter as <-.
      destruct Hupd; cbn in *; eauto.
      left. destruct (Z.leb_spec 3 (Contribution.upheld_reports_count c + 1));
        [reflexivity | lia].
    + rewrite lookup_insert_ne in Hafter by exact Hne. eauto.
  - intros u after Hafter _. right. exists after. split; [exact Hafter | reflexivity].
Qed.

(** C5: the uphold action on a reported review of an author whose penalty
    was not yet applied returns, raises the author's
    [upheld_reports_count] by one, and stores [review_restriction_active]
    true when the count is then at least 3 (and leaves the flag as it was
    below 3); whatever the action selects, in whatever database, a count it
    leaves at 3 or more either comes with the restriction or is a count
    the action did not change; in every database the operations produce, a
    count of at least 3 comes with the restriction; and once a user is
    restricted no sequence of operations lifts the restriction. *)
Theorem review_restriction_set_at_three_and_permanent :
  (forall request_user queryset s review u k,
     List.filter (reviews_admin.reported_and_live queryset) (reviews s) = [review] ->
     Review.pk review = Some k ->
     Review.user review = Some u ->
     Review.moderation_penalty_applied review = false ->
     exists s' after,
       reviews_admin.uphold_reported_reviews request_user queryset s = Returned tt s'
       /\ contributions s' !! u = Some after
       /\ Contribution.upheld_reports_count after
          = Contribution.upheld_reports_count (contribution_of s u) + 1
       /\ Contribution.review_restriction_active after
          = (3 <=? Contribution.upheld_reports_count after)
            || Contribution.review_restriction_active (contribution_of s u))
  /\ (forall request_user queryset s u after,
        contributions
          (final (reviews_admin.uphold_reported_reviews request_user queryset s)) !! u
        = Some after ->
        3 <= Contribution.upheld_reports_count after ->
        Contribution.review_restriction_active after = true
        \/ exists before,
             contributions s !! u = Some before
             /\ Contribution.upheld_reports_count after
                = Contribution.upheld_reports_count before)
  /\ (forall s, reachable s ->
      forall u c, contributions s !! u = Some c ->
                  3 <= Contribution.upheld_reports_count c ->
                  Contribution.review_restriction_active c = true)
  /\ (forall (ops : list Operation) (s : Store) (u : user_id),
        restricted s u -> restricted (apply_ops ops s) u).
Proof.
  split; [|split; [|split]].
  - intros request_user queryset s review u k Hsel Hpk Hu Hpen.
    destruct (uphold_single_result request_user queryset review k s Hsel Hpk)
      as (s' & Hrun & Hc & _).
    exists s', (upheld_penalty (contribution_of s u)).
    split; [exact Hrun|].
    unfold upheld_ledger in Hc. rewrite Hu, Hpen in Hc. cbn [negb] in Hc. rewrite Hc.
    split; [apply lookup_insert_eq|]. split; [reflexivity|].
    cbn [upheld_penalty Contribution.upheld_reports_count
         Contribution.review_restriction_active].
    destruct (3 <=? _); reflexivity.
  - intros request_user queryset s.
    apply uphold_action_restricts_at_threshold.
  - exact restriction_threshold_invariant.
  - exact restricted_stays_restricted.
Qed.

Lemma uphold_penalises_author_once_witness :
  let review :=
    Review.mk (Some 1) 1 (Some 2) "Rude text" 2 true true "Abuse" false false None None 10 in
  let s :=
    with_contributions (<[2 := Contribution.mk 0 1 10 0 false]> ∅)
      (with_reports [ReviewReport.mk 1 3 "Abuse" ReviewReport.PENDING]
         (with_reviews [review] empty_store)) in
  exists s',
    reviews_admin.uphold_reported_reviews 9 (fun _ => true) s = Returned tt s'
    /\ (exists after,
          contributions s' !! 2 = Some after
          /\ Contribution.upheld_reports_count after = 1
          /\ Contribution.points after = 0)
    /\ reviews_admin.uphold_reported_reviews 9 (fun _ => true) s' = Returned tt s'.
Proof.
  cbv zeta.
  destruct (uphold_penalises_author_once 9 (fun _ => true)
              (with_contributions (<[2 := Contribution.mk 0 1 10 0 false]> ∅)
                 (with_reports [ReviewReport.mk 1 3 "Abuse" ReviewReport.PENDING]
                    (with_reviews
                       [Review.mk (Some 1) 1 (Some 2) "Rude text" 2 true true "Abuse"
                          false false None None 10] empty_store)))
              (Review.mk (Some 1) 1 (Some 2) "Rude text" 2 true true "Abuse" false false
                 None None 10) 2 1 eq_refl eq_refl eq_refl)
    as (s' & Hrun & Hpenalty & _ & Hagain).
  exists s'. split; [exact Hrun|]. split; [|exact Hagain].
  destruct (Hpenalty eq_refl) as (after & Hafter & Hcount & Hpoints & _).
  exists after. split; [exact Hafter|]. split; [exact Hcount | exact Hpoints].
Defined.

Lemma uphold_guest_review_leaves_ledger_witness :
  let review :=
    Review.mk (Some 1) 1 None "Guest rant" 1 true true "Spam" false false None None 10 in
  let s := with_reviews [review] empty_store in
  exists s',
    reviews_admin.uphold_reported_reviews 9 (fun _ => true) s = Returned tt s'
    /\ contributions s' = contributions s
    /\ moderation_log s'
       = [ModerationLog.mk (Some 9) ModerationLog.REVIEW_UPHELD ModerationLog.CT_Review 1
            "Upheld reported review in admin."].
Proof.
  cbv zeta.
  destruct (uphold_guest_review_leaves_ledger 9 (fun _ => true)
              (with_reviews
                 [Review.mk (Some 1) 1 None "Guest rant" 1 true true "Spam" false false
                    None None 10] empty_store)
              (Review.mk (Some 1) 1 None "Guest rant" 1 true true "Spam" false false
                 None None 10) 1 eq_refl eq_refl eq_refl eq_refl)
    as (s' & Hrun & Hledger & _ & _ & Hlog).
  exists s'. split; [exact Hrun|]. split; [exact Hledger | exact Hlog].
Defined.

Lemma review_restriction_set_at_three_and_permanent_witness :
  let everything := fun _ : Review.t => true in
  let history :=
    [UserCreated 2;
     SubmitReview (Some 2) 1 "Rude one" 1; ReportReview 3 1 "Abuse";
     UpholdReviews 9 everything;
     SubmitReview (Some 2) 2 "Rude two" 1; ReportReview 3 2 "Abuse";
     UpholdReviews 9 everything;
     SubmitReview (Some 2) 3 "Rude three" 1; ReportReview 3 3 "Abuse"] in
  let s := apply_ops history empty_store in
  contributions s !! 2 = Some (Contribution.mk 0 3 10 2 false)
  /\ exists s',
       reviews_admin.uphold_reported_reviews 9 everything s = Returned tt s'
       /\ (exists after,
             contributions s' !! 2 = Some after
             /\ Contribution.upheld_reports_count after = 3
             /\ Contribution.review_restriction_active after = true)
       /\ restricted
            (apply_ops [SubmitReview (Some 2) 4 "Fine" 4; DismissReviews 9 everything] s') 2.
Proof.
  cbv zeta. split; [vm_compute; reflexivity|].
  destruct (proj1 review_restriction_set_at_three_and_permanent 9 (fun _ => true)
              (apply_ops
                 [UserCreated 2;
                  SubmitReview (Some 2) 1 "Rude one" 1; ReportReview 3 1 "Abuse";
                  UpholdReviews 9 (fun _ => true);
                  SubmitReview (Some 2) 2 "Rude two" 1; ReportReview 3 2 "Abuse";
                  UpholdReviews 9 (fun _ => true);
                  SubmitReview (Some 2) 3 "Rude three" 1; ReportReview 3 3 "Abuse"]
                 empty_store)
              (Review.mk (Some 3) 3 (Some 2) "Rude three" 1 true true "Abuse" false false
                 None None 0) 2 3)
    as (s' & after & Hrun & Hafter & Hcount & Hflag);
    [vm_compute; reflexivity | reflexivity | reflexivity | reflexivity |].
  assert (Hthree : Contribution.upheld_reports_count after = 3).
  { rewrite Hcount. vm_compute. reflexivity. }
  assert (Hactive : Contribution.review_restriction_active after = true).
  { rewrite Hflag, Hthree. reflexivity. }
  exists s'. split; [exact Hrun|]. split.
  - exists after. split; [exact Hafter|]. split; [exact Hthree | exact Hactive].
  - apply (proj2 (proj2 (proj2 review_restriction_set_at_three_and_permanent))).
    exists after. split; [exact Hafter | exact Hactive].
Defined.

(** ** Nearby places *)

Section NearbyFacts.

Import places_views.
Local Open Scope R_scope.

Lemma Rleb_true (x y : R) : Rleb x y = true <-> x <= y.
Proof. unfold Rleb. destruct (Rle_dec x y); split; intros; auto; discriminate. Qed.

Lemma Rleb_false (x y : R) : Rleb x y = false <-> y < x.
Proof.
  unfold Rleb. destruct (Rle_dec x y) as [Hle | Hnle]; split; intros H.
  - discriminate.
  - exfalso. lra.
  - lra.
  - reflexivity.
Qed.

Lemma haversine_same_point (lat lon : R) : _haversine_km lat lon lat lon = 0.
Proof.
  unfold _haversine_km. cbv zeta.
  replace ((radians lat - radians lat) / 2) with 0 by lra.
  replace ((radians lon - radians lon) / 2) with 0 by lra.
  rewrite sin_0.
  replace (0 ^ 2 + cos (radians lat) * cos (radians lat) * 0 ^ 2) with 0 by ring.
  rewrite sqrt_0, asin_0. ring.
Qed.

Lemma within_radius_in place_lat place_lon radius_km candidates candidate distance_km :
  In (candidate, distance_km) (within_radius place_lat place_lon radius_km candidates) ->
  In candidate candidates
  /\ distance_to place_lat place_lon candidate <= IZR radius_km
  /\ distance_km = round1 (distance_to place_lat place_lon candidate).
Proof.
  induction candidates as [|c rest IH]; cbn [within_radius]; [intros []|].
  destruct (Rleb (distance_to place_lat place_lon c) (IZR radius_km)) eqn:Hle.
  - intros [[= <- <-] | Hin].
    + apply Rleb_true in Hle. split; [left; reflexivity | auto].
    + destruct (IH Hin) as (H1 & H2 & H3). split; [right; exact H1 | auto].
  - intros Hin. destruct (IH Hin) as (H1 & H2 & H3). split; [right; exact H1 | auto].
Qed.

Lemma insert_by_distance_in item sorted x :
  In x (insert_by_distance item sorted) <-> x = item \/ In x sorted.
Proof.
  induction sorted as [|y rest IH]; cbn [insert_by_distance].
  - cbn. intuition.
  - destruct (Rleb (snd item) (snd y)); cbn [In]; [intuition|].
    rewrite IH. intuition.
Qed.

Lemma sort_by_distance_in items x : In x (sort_by_distance items) <-> In x items.
Proof.
  unfold sort_by_distance. induction items as [|y rest IH]; cbn [fold_right].
  - reflexivity.
  - rewrite insert_by_distance_in, IH. cbn. intuition.
Qed.

Lemma insert_by_distance_ascending item sorted :
  ascending_by snd sorted -> ascending_by snd (insert_by_distance item sorted).
Proof.
  induction sorted as [|y rest IH]; cbn [insert_by_distance ascending_by].
  - intros _. split; [intros ? []|exact Logic.I].
  - intros [Hy Hrest].
    destruct (Rleb (snd item) (snd y)) eqn:Hle; cbn [ascending_by].
    + apply Rleb_true in Hle. split; [|split; assumption].
      intros z [<- | Hz]; [exact Hle|]. specialize (Hy z Hz). lra.
    + apply Rleb_false in Hle. split; [|apply IH; exact Hrest].
      intros z Hz. apply insert_by_distance_in in Hz as [-> | Hz]; [lra | auto].
Qed.

Lemma sort_by_distance_ascending items : ascending_by snd (sort_by_distance items).
Proof.
  unfold sort_by_distance. induction items as [|y rest IH]; cbn [fold_right].
  - exact Logic.I.
  - apply insert_by_distance_ascending, IH.
Qed.

Lemma in_firstn {A} (n : nat) (l : list A) (x : A) : In x (firstn n l) -> In x l.
Proof.
  revert l. induction n as [|n IH]; intros [|y l]; cbn [firstn In]; try tauto.
  intros [-> | Hin]; auto.
Qed.

Lemma firstn_ascending {A} (key : A -> R) (n : nat) (l : list A) :
  ascending_by key l -> ascending_by key (firstn n l).
Proof.
  revert l. induction n as [|n IH]; intros [|x l]; cbn [firstn ascending_by]; auto.
  intros [Hx Hl]. split; [|apply IH; exact Hl].
  intros y Hy. apply Hx. apply (in_firstn n l y Hy).
Qed.

Lemma slice_to_in {A} (limit : Z) (l : list A) (x : A) : In x (slice_to limit l) -> In x l.
Proof. unfold slice_to. destruct (0 <=? limit)%Z; apply in_firstn. Qed.

Lemma slice_to_ascending {A} (key : A -> R) (limit : Z) (l : list A) :
  ascending_by key l -> ascending_by key (slice_to limit l).
Proof. unfold slice_to. destruct (0 <=? limit)%Z; apply firstn_ascending. Qed.

Lemma slice_to_length {A} (limit : Z) (l : list A) :
  (0 <= limit)%Z -> (length (slice_to limit l) <= Z.to_nat limit)%nat.
Proof.
  intros Hpos. unfold slice_to.
  destruct (Z.leb_spec 0 limit); [apply firstn_le_length | lia].
Qed.

Lemma nearby_candidates_in (s : Store) (place candidate : Place.t) :
  In candidate (nearby_candidates s place) ->
  In candidate (places s)
  /\ Place.is_approved candidate = true
  /\ Place.is_archived candidate = false
  /\ same_pk (Place.pk candidate) (Place.pk place) = false
  /\ exists latitude longitude,
       Place.latitude candidate = Some latitude
       /\ Place.longitude candidate = Some longitude.
Proof.
  unfold nearby_candidates. intros Hin. apply filter_In in Hin as [Hin Hf].
  repeat (apply andb_true_iff in Hf as [Hf ?]).
  split; [exact Hin|]. split; [exact Hf|].
  split; [now destruct (Place.is_archived candidate)|].
  split; [now destruct (same_pk _ _)|].
  destruct (Place.latitude candidate) as [la|]; [|discriminate].
  destruct (Place.longitude candidate) as [lo|]; [|discriminate].
  eauto.
Qed.

(** What [_get_nearby_places] keeps of its contract: for a place with both
    coordinates, every result is another stored place that is approved, not
    archived, has both coordinates and lies within 12 km by the haversine
    formula; each result carries that distance rounded to one decimal, and
    the results are in ascending order of this rounded distance; there are
    at most 8; the distance from (50.0, -5.0) to itself is 0; and a
    candidate 12.1 km away is not among the results. *)
Theorem nearby_places_within_radius_sorted_by_rounded_distance
    (s : Store) (place : Place.t) (latitude longitude : Z) :
  Place.latitude place = Some latitude ->
  Place.longitude place = Some longitude ->
  let result := _get_nearby_places s place NEARBY_RADIUS_KM NEARBY_LIMIT in
  let place_lat := float_of_decimal latitude in
  let place_lon := float_of_decimal longitude in
  (forall candidate distance_km,
     In (candidate, distance_km) result ->
     In candidate (places s)
     /\ same_pk (Place.pk candidate) (Place.pk place) = false
     /\ Place.is_approved candidate = true
     /\ Place.is_archived candidate = false
     /\ exists candidate_lat candidate_lon,
          Place.latitude candidate = Some candidate_lat
          /\ Place.longitude candidate = Some candidate_lon
          /\ _haversine_km place_lat place_lon (float_of_decimal candidate_lat)
               (float_of_decimal candidate_lon) <= 12
          /\ distance_km
             = round1 (_haversine_km place_lat place_lon (float_of_decimal candidate_lat)
                         (float_of_decimal candidate_lon)))
  /\ ascending_by snd result
  /\ (length result <= 8)%nat
  /\ _haversine_km 50 (-5) 50 (-5) = 0
  /\ (forall candidate candidate_lat candidate_lon distance_km,
        Place.latitude candidate = Some candidate_lat ->
        Place.longitude candidate = Some candidate_lon ->
        _haversine_km place_lat place_lon (float_of_decimal candidate_lat)
          (float_of_decimal candidate_lon) = 121 / 10 ->
        ~ In (candidate, distance_km) result).
Proof.
  intros Hlat Hlon. cbv zeta.
  assert (Hsound : forall candidate distance_km,
    In (candidate, distance_km)
       (_get_nearby_places s place NEARBY_RADIUS_KM NEARBY_LIMIT) ->
    In candidate (places s)
    /\ same_pk (Place.pk candidate) (Place.pk place) = false
    /\ Place.is_approved candidate = true
    /\ Place.is_archived candidate = false
    /\ exists candidate_lat candidate_lon,
         Place.latitude candidate = Some candidate_lat
         /\ Place.longitude candidate = Some candidate_lon
         /\ _haversine_km (float_of_decimal latitude) (float_of_decimal longitude)
              (float_of_decimal candidate_lat) (float_of_decimal candidate_lon) <= 12
         /\ distance_km
            = round1 (_haversine_km (float_of_decimal latitude) (float_of_decimal longitude)
                        (float_of_decimal candidate_lat) (float_of_decimal candidate_lon))).
  { intros candidate distance_km Hin.
    unfold _get_nearby_places in Hin. rewrite Hlat, Hlon in Hin.
    apply slice_to_in, sort_by_distance_in, within_radius_in in Hin
      as (Hcand & Hle & Hround).
    apply nearby_candidates_in in Hcand
      as (Hstored & Happroved & Harchived & Hother & clat & clon & Hclat & Hclon).
    split; [exact Hstored|]. split; [exact Hother|]. split; [exact Happroved|].
    split; [exact Harchived|]. exists clat, clon.
    unfold distance_to in Hle, Hround. rewrite Hclat, Hclon in Hle, Hround.
    cbn [coordinate] in Hle, Hround. auto. }
  split; [exact Hsound|]. split; [|split; [|split]].
  - unfold _get_nearby_places. rewrite Hlat, Hlon.
    apply slice_to_ascending, sort_by_distance_ascending.
  - unfold _get_nearby_places. rewrite Hlat, Hlon.
    apply (slice_to_length NEARBY_LIMIT). unfold NEARBY_LIMIT. lia.
  - apply haversine_same_point.
  - intros candidate clat clon distance_km Hclat Hclon Hfar Hin.
    apply Hsound in Hin as (_ & _ & _ & _ & clat' & clon' & Hclat' & Hclon' & Hle & _).
    rewrite Hclat in Hclat'. rewrite Hclon in Hclon'.
    injection Hclat' as <-. injection Hclon' as <-. lra.
Qed.


Lemma haversine_same_meridian (lat1 lat2 lon : R) :
  0 <= lat2 - lat1 <= 180 ->
  _haversine_km lat1 lon lat2 lon = 6371 * ((lat2 - lat1) * (PI / 180)).
Proof.
  intros [Hlo Hhi]. unfold _haversine_km, radians. cbv zeta.
  pose proof PI_RGT_0 as Hpi.
  replace ((lon * (PI / 180) - lon * (PI / 180)) / 2) with 0 by lra.
  rewrite sin_0.
  set (x := (lat2 * (PI / 180) - lat1 * (PI / 180)) / 2).
  assert (Hx : 0 <= x <= PI / 2).
  { unfold x. split.
    - replace ((lat2 * (PI / 180) - lat1 * (PI / 180)) / 2)
        with ((lat2 - lat1) * (PI / 360)) by lra.
      apply Rmult_le_pos; lra.
    - replace ((lat2 * (PI / 180) - lat1 * (PI / 180)) / 2)
        with ((lat2 - lat1) * (PI / 360)) by lra.
      replace (PI / 2) with (180 * (PI / 360)) by lra.
      apply Rmult_le_compat_r; lra. }
  replace (sin x ^ 2 + cos (lat1 * (PI / 180)) * cos (lat2 * (PI / 180)) * 0 ^ 2)
    with (sin x ^ 2) by ring.
  rewrite sqrt_pow2 by (apply sin_ge_0; lra).
  rewrite asin_sin by lra.
  unfold x. lra.
Qed.

Lemma round_half_even_small (y : R) : 0 <= y < 1 / 2 -> round_half_even y = 0%Z.
Proof.
  intros [Hlo Hhi]. unfold round_half_even.
  assert (Hup : up y = 1%Z).
  { symmetry. apply tech_up; simpl; lra. }
  assert (Hint : Int_part y = 0%Z) by (unfold Int_part; rewrite Hup; reflexivity).
  assert (Hfrac : frac_part y = y) by (unfold frac_part; rewrite Hint; simpl; lra).
  rewrite Hint, Hfrac.
  destruct (Rlt_dec y (1 / 2)); [reflexivity | lra].
Qed.

Lemma round1_small (x : R) : 0 <= x -> x * 10 < 1 / 2 -> round1 x = 0.
Proof.
  intros Hlo Hhi. unfold round1. rewrite round_half_even_small by lra. simpl. lra.
Qed.

(** C8 at its failing input: the reference place at (50.0, -5.0) and two
    approved places due north of it, 0.0003 and 0.0001 degrees away (about
    33 m and 11 m), stored in this order. The sort key is the distance
    rounded to one decimal, 0.0 for both, so the sort leaves them in query
    order and the result lists the farther place before the nearer one,
    where the docstring promises places sorted by shortest distance. *)
Theorem nearby_places_lists_farther_place_first :
  let here := Place.mk (Some 1%Z) Place.PlaceBase "Harbour" "" None None
                (Some 50000000%Z) (Some (-5000000)%Z) None None true false None
                Place.APPROVED None in
  let far := Place.mk (Some 2%Z) Place.PlaceBase "Quay" "" None None
               (Some 50000300%Z) (Some (-5000000)%Z) None None true false None
               Place.APPROVED None in
  let near := Place.mk (Some 3%Z) Place.PlaceBase "Slip" "" None None
                (Some 50000100%Z) (Some (-5000000)%Z) None None true false None
                Place.APPROVED None in
  let s := with_places [here; far; near] empty_store in
  _get_nearby_places s here NEARBY_RADIUS_KM NEARBY_LIMIT = [(far, 0); (near, 0)]
  /\ distance_to (float_of_decimal 50000000) (float_of_decimal (-5000000)) near
     < distance_to (float_of_decimal 50000000) (float_of_decimal (-5000000)) far.
Proof.
  intros here far near s.
  pose proof PI_RGT_0 as Hpi. pose proof PI_4 as Hpi4.
  assert (Hfar : distance_to (float_of_decimal 50000000) (float_of_decimal (-5000000)) far
                 = 6371 * ((3 / 10000) * (PI / 180))).
  { unfold distance_to, far. cbn [Place.latitude Place.longitude coordinate].
    unfold float_of_decimal.
    rewrite haversine_same_meridian by lra. field. }
  assert (Hnear : distance_to (float_of_decimal 50000000) (float_of_decimal (-5000000)) near
                  = 6371 * ((1 / 10000) * (PI / 180))).
  { unfold distance_to, near. cbn [Place.latitude Place.longitude coordinate].
    unfold float_of_decimal.
    rewrite haversine_same_meridian by lra. field. }
  split.
  - unfold _get_nearby_places. cbn [Place.latitude Place.longitude here].
    change (nearby_candidates s here) with [far; near].
    cbn [within_radius]. rewrite Hfar, Hnear.
    rewrite (proj2 (Rleb_true _ _)) by (unfold NEARBY_RADIUS_KM; lra).
    rewrite (proj2 (Rleb_true _ _)) by (unfold NEARBY_RADIUS_KM; lra).
    rewrite !round1_small by lra.
    unfold sort_by_distance. cbn [fold_right insert_by_distance snd].
    rewrite (proj2 (Rleb_true 0 0)) by lra.
    reflexivity.
  - rewrite Hfar, Hnear. apply Rmult_lt_compat_l; [lra|].
    apply Rmult_lt_compat_r; [|lra].
    apply Rdiv_lt_0_compat; lra.
Qed.

Lemma nearby_places_within_radius_sorted_by_rounded_distance_witness :
  let here := Place.mk (Some 1%Z) Place.PlaceBase "Harbour" "" None None
                (Some 50000000%Z) (Some (-5000000)%Z) None None true false None
                Place.APPROVED None in
  let far := Place.mk (Some 2%Z) Place.PlaceBase "Quay" "" None None
               (Some 50000300%Z) (Some (-5000000)%Z) None None true false None
               Place.APPROVED None in
  let s := with_places [here; far] empty_store in
  ascending_by snd (_get_nearby_places s here NEARBY_RADIUS_KM NEARBY_LIMIT)
  /\ (length (_get_nearby_places s here NEARBY_RADIUS_KM NEARBY_LIMIT) <= 8)%nat.
Proof.
  cbv zeta.
  destruct (nearby_places_within_radius_sorted_by_rounded_distance
              (with_places
                 [Place.mk (Some 1%Z) Place.PlaceBase "Harbour" "" None None
                    (Some 50000000%Z) (Some (-5000000)%Z) None None true false None
                    Place.APPROVED None;
                  Place.mk (Some 2%Z) Place.PlaceBase "Quay" "" None None
                    (Some 50000300%Z) (Some (-5000000)%Z) None None true false None
                    Place.APPROVED None] empty_store)
              (Place.mk (Some 1%Z) Place.PlaceBase "Harbour" "" None None
                 (Some 50000000%Z) (Some (-5000000)%Z) None None true false None
                 Place.APPROVED None)
              50000000%Z (-5000000)%Z eq_refl eq_refl)
    as (_ & Hascending & Hlength & _).
  split; [exact Hascending | exact Hlength].
Defined.

End NearbyFacts.

(** * Further properties of the code *)

(** ** Bounds on the ledger *)

(** X1: in every database the application can produce, the counters of a
    contribution are not negative and its points lie between 0 and what
    its places and reviews have earned, 50 for a place and 10 for a
    review. *)
Theorem ledger_points_within_earned_rewards (s : Store) :
  reachable s ->
  forall u c, contributions s !! u = Some c ->
    0 <= Contribution.places_added c
    /\ 0 <= Contribution.reviews_added c
    /\ 0 <= Contribution.upheld_reports_count c
    /\ 0 <= Contribution.points c
    /\ Contribution.points c
       <= 50 * Contribution.places_added c + 10 * Contribution.reviews_added c.
Proof.
  induction 1 as [|s op _ IH].
  - intros u c Hc. cbn in Hc. rewrite lookup_empty in Hc. discriminate.
  - apply (apply_op_ledger_ok
             (fun m => forall u c, m !! u = Some c ->
                0 <= Contribution.places_added c
                /\ 0 <= Contribution.reviews_added c
                /\ 0 <= Contribution.upheld_reports_count c
                /\ 0 <= Contribution.points c
                /\ Contribution.points c
                   <= 50 * Contribution.places_added c
                      + 10 * Contribution.reviews_added c));
      [| |exact IH].
    + intros m u Hm Hnone v c Hc.
      destruct (decide (u = v)) as [->|Hne].
      * rewrite lookup_insert_eq in Hc. injection Hc as <-. cbn. lia.
      * rewrite lookup_insert_ne in Hc by exact Hne. eauto.
    + intros m u c c' Hm Hc Hupd v d Hd.
      destruct (decide (u = v)) as [->|Hne].
      * rewrite lookup_insert_eq in Hd. injection Hd as <-.
        specialize (Hm v c Hc). destruct Hupd; cbn; lia.
      * rewrite lookup_insert_ne in Hd by exact Hne. eauto.
Qed.

Lemma ledger_points_within_earned_rewards_witness :
  let s := apply_ops [SubmitReview (Some 2) 1 "Lovely walk" 5;
                      UpholdReviews 9 (fun _ => true)] empty_store in
  exists c, contributions s !! 2 = Some c
            /\ 0 <= Contribution.points c
            /\ Contribution.points c
               <= 50 * Contribution.places_added c + 10 * Contribution.reviews_added c.
Proof.
  cbv zeta.
  assert (reachable (apply_ops [SubmitReview (Some 2) 1 "Lovely walk" 5;
                                UpholdReviews 9 (fun _ => true)] empty_store)) as Hreach.
  { apply (reachable_step _ (UpholdReviews 9 (fun _ => true))).
    apply (reachable_step _ (SubmitReview (Some 2) 1 "Lovely walk" 5)).
    apply reachable_empty. }
  assert (contributions (apply_ops [SubmitReview (Some 2) 1 "Lovely walk" 5;
                                    UpholdReviews 9 (fun _ => true)] empty_store) !! 2
          = Some (Contribution.mk 0 1 10 0 false)) as Hrow.
  { vm_compute. reflexivity. }
  exists (Contribution.mk 0 1 10 0 false). split; [exact Hrow|].
  destruct (ledger_points_within_earned_rewards _ Hreach 2 _ Hrow)
    as (_ & _ & _ & Hlow & Hhigh).
  split; [exact Hlow | exact Hhigh].
Defined.

(** ** Place moderation and the ledger *)

Lemma place_save_no_fields self s :
  places_models.save (Some []) self s = Returned (resynchronized self) s.
Proof.
  unfold places_models.save, bind, places_signals.stored_moderation_status.
  destruct (places_signals.pk_truthy (Place.pk self)); reflexivity.
Qed.

Lemma place_save_carried_keeps_ledger fields self s :
  Place.pk self <> Some 0 ->
  (forall row, In row (places s) -> Place.pk row = Place.pk self ->
               Place.moderation_status row = Place.moderation_status self) ->
  contributions (final (places_models.save (Some fields) self s)) = contributions s.
Proof.
  intros Hnz Hcarry.
  destruct fields as [|f fields]; [rewrite place_save_no_fields; reflexivity|].
  rewrite place_save_unfold by discriminate.
  pose proof (place_save_table_keeps_contributions (Some (f :: fields))
                (Place.set_previous_moderation_status (previously_stored_status s self)
                   (resynchronized self)) s) as Hkeep.
  unfold places_models._save_table in *.
  cbn [Place.pk Place.set_previous_moderation_status resynchronized Place.set_is_approved]
    in *.
  destruct (Place.pk self) as [k|] eqn:Hk; [|reflexivity].
  destruct (existsb (Place.has_pk k) (places s)) eqn:Hex; [|reflexivity].
  rewrite place_award_result.
  cbn [Place._previous_moderation_status Place.moderation_status Place.created_by
         Place.set_previous_moderation_status resynchronized Place.set_is_approved].
  unfold previously_stored_status, places_signals.pk_truthy. rewrite Hk.
  destruct (Z.eqb_spec k 0) as [->|_]; [congruence|].
  destruct (find (Place.has_pk k) (places s)) as [row|] eqn:Hfind.
  - apply find_some in Hfind as [Hin Hpk].
    assert (Place.pk row = Some k) as Hrow.
    { unfold Place.has_pk in Hpk. destruct (Place.pk row); [|discriminate].
      apply Z.eqb_eq in Hpk. congruence. }
    cbn [option_map places_signals.is_approved_status].
    rewrite (Hcarry row Hin Hrow).
    destruct (Place.moderation_status self); cbn; reflexivity.
  - exfalso. apply existsb_exists in Hex as (row & Hin & Hpk).
    apply (find_none _ _ Hfind) in Hin. congruence.
Qed.

Lemma place_save_not_approved_keeps_ledger update_fields self s :
  Place.moderation_status self <> Place.APPROVED ->
  contributions (final (places_models.save update_fields self s)) = contributions s.
Proof.
  intros Hst.
  destruct update_fields as [[|f fields]|]; [rewrite place_save_no_fields; reflexivity | |].
  all: rewrite place_save_unfold by discriminate.
  all: match goal with
       | |- context [places_models._save_table ?uf ?x ?s] =>
           pose proof (place_save_table_keeps_contributions uf x s) as Hkeep;
           pose proof (place_save_table_result uf x s) as Hres;
           destruct (places_models._save_table uf x s) as [self2 s2 | e s2];
             [|exact Hkeep]
       end.
  all: rewrite place_award_result; cbn [final] in *.
  all: assert (Place.moderation_status self2 = Place.moderation_status self) as Hsame
         by (destruct Hres as [(k & _ & -> & _) | (k & _ & _ & -> & _)]; reflexivity).
  all: rewrite Hsame.
  all: destruct (places_signals.is_approved_status _); [exact Hkeep|].
  all: destruct (Place.moderation_status self); cbn; try exact Hkeep; congruence.
Qed.

(** X2: rejecting places never changes the ledger: a creator who was
    rewarded for an approved place keeps the reward when the place is
    rejected afterwards. *)
Theorem reject_places_never_changes_ledger request_user queryset s :
  contributions (final (places_admin.reject_places request_user queryset s))
  = contributions s.
Proof.
  revert s. change (keeps contributions (places_admin.reject_places request_user queryset)).
  unfold places_admin.reject_places. repeat keeps_step.
  - intros s. apply place_save_not_approved_keeps_ledger. discriminate.
  - apply log_keeps_contributions.
Qed.

Lemma upkeep_loop_keeps_ledger (fields : list Place.Field) (g : Place.t -> Place.t)
    (log : Place.t -> M unit) (selected : list Place.t) (s : Store) :
  (forall x, Place.pk (g x) = Place.pk x) ->
  (forall x, Place.moderation_status (g x) = Place.moderation_status x) ->
  Place.listed Place.F_moderation_status fields = false ->
  (forall p, keeps contributions (log p)) -> (forall p, keeps places (log p)) ->
  (forall x, In x selected -> Place.pk x <> Some 0) ->
  carry_stored_status selected s ->
  contributions
    (final (for_each selected
              (fun place => let* place := places_models.save (Some fields) (g place) in
                            log place) s))
  = contributions s.
Proof.
  intros Hpk Hst Hfields Hlogc Hlogp.
  revert s. induction selected as [|x rest IH]; intros s Hnz Hcarry; [reflexivity|].
  cbn [for_each]. unfold bind at 1. unfold bind at 1.
  pose proof (place_save_carried_keeps_ledger fields (g x) s) as Hsave.
  pose proof (place_save_status_preserved (Some fields) (g x) s Hfields) as Hrows.
  destruct (places_models.save (Some fields) (g x) s) as [p s1 | e s1]; cbn [final] in *.
  - pose proof (Hlogc p s1) as Hc. pose proof (Hlogp p s1) as Hp.
    assert (contributions s1 = contributions s) as Hs1.
    { apply Hsave.
      - rewrite Hpk. apply Hnz. left. reflexivity.
      - intros row Hin Hrow. rewrite Hst. rewrite Hpk in Hrow.
        apply (Hcarry x); [left; reflexivity | exact Hin | exact Hrow]. }
    assert (carry_stored_status rest s1) as Hcarry1.
    { intros q Hq row' Hin' Hpk'.
      destruct (Hrows row' Hin') as (row & Hin & Hpkr & Hstr).
      rewrite <- Hstr. apply (Hcarry q); [right; exact Hq | exact Hin | congruence]. }
    destruct (log p s1) as [[] s2 | e s2]; cbn [final] in *.
    + rewrite IH.
      * congruence.
      * intros y Hy. apply Hnz. right. exact Hy.
      * unfold carry_stored_status. rewrite Hp. exact Hcarry1.
    + congruence.
  - apply Hsave.
    + rewrite Hpk. apply Hnz. left. reflexivity.
    + intros row Hin Hrow. rewrite Hst. rewrite Hpk in Hrow.
      apply (Hcarry x); [left; reflexivity | exact Hin | exact Hrow].
Qed.

Lemma selected_no_zero_pk (f : Place.t -> bool) (rows : list Place.t) :
  no_zero_pk rows -> forall x, In x (List.filter f rows) -> Place.pk x <> Some 0.
Proof. intros Hnz x Hx. apply filter_In in Hx as [Hx _]. apply Hnz, Hx. Qed.

(** X3: in a database whose place rows have distinct, non-zero primary
    keys and flags that agree with their status, archiving, restoring and
    deleting places through the admin and editing opening hours leave the
    ledger as it was: of the moderation actions only an approval moves
    points. *)
Theorem place_upkeep_keeps_ledger request_user queryset s :
  places_consistent s -> no_zero_pk (places s) ->
  contributions (final (places_admin.archive_places request_user queryset s))
  = contributions s
  /\ contributions (final (places_admin.restore_places request_user queryset s))
     = contributions s
  /\ contributions (final (places_admin.delete_queryset request_user queryset s))
     = contributions s
  /\ (forall obj, In obj (places s) ->
        contributions (final (places_admin.delete_model request_user obj s))
        = contributions s)
  /\ (forall place opening_days opening_time closing_time commit,
        In place (places s) ->
        contributions
          (final (places_forms.PlaceOpeningHoursForm_save place opening_days opening_time
                    closing_time commit s))
        = contributions s).
Proof.
  intros Hcons Hnz.
  assert (Harchive :
            contributions (final (places_admin.archive_places request_user queryset s))
            = contributions s).
  { unfold places_admin.archive_places, timezone_now, bind at 1, gets at 1.
    unfold bind at 1, gets at 1.
    apply (upkeep_loop_keeps_ledger
             [Place.F_is_archived; Place.F_archived_at; Place.F_archived_by;
              Place.F_is_approved]
             (fun place =>
                Place.set_is_approved false
                  (Place.set_archived_by (Some request_user)
                     (Place.set_archived_at (Some (clock s))
                        (Place.set_is_archived true place))))
             (fun place =>
                reviews_moderation.log_moderation_action request_user
                  ModerationLog.PLACE_ARCHIVED (places_admin.target_type place)
                  (Place.pk place) "Archived via Place admin."));
      try reflexivity.
    - intros p. apply log_keeps_contributions.
    - intros p. apply log_keeps_places.
    - apply selected_no_zero_pk, Hnz.
    - apply selected_carry_stored_status, Hcons. }
  assert (Hagree : forall obj row, In obj (places s) -> In row (places s) ->
                     Place.pk row = Place.pk obj ->
                     Place.moderation_status row = Place.moderation_status obj).
  { intros obj row Hobj Hrow Hpk. destruct Hcons as [_ Hagree].
    rewrite (Hagree row obj Hrow Hobj Hpk). reflexivity. }
  split; [exact Harchive|]. split; [|split; [exact Harchive|split]].
  - unfold places_admin.restore_places, bind at 1, gets at 1.
    apply (upkeep_loop_keeps_ledger
             [Place.F_is_archived; Place.F_archived_at; Place.F_archived_by]
             (fun place =>
                Place.set_archived_by None
                  (Place.set_archived_at None (Place.set_is_archived false place)))
             (fun place =>
                reviews_moderation.log_moderation_action request_user
                  ModerationLog.PLACE_RESTORED (places_admin.target_type place)
                  (Place.pk place) "Restored via Place admin."));
      try reflexivity.
    + intros p. apply log_keeps_contributions.
    + intros p. apply log_keeps_places.
    + apply selected_no_zero_pk, Hnz.
    + apply selected_carry_stored_status, Hcons.
  - intros obj Hobj.
    unfold places_admin.delete_model, timezone_now, bind at 1, gets at 1.
    unfold bind at 1.
    match goal with
    | |- context [places_models.save ?uf ?x s] =>
        pose proof (place_save_carried_keeps_ledger
                      [Place.F_is_archived; Place.F_archived_at; Place.F_archived_by;
                       Place.F_is_approved] x s) as Hsave;
        destruct (places_models.save uf x s) as [p s1 | e s1]
    end; cbn [final] in *.
    + rewrite (log_keeps_contributions _ _ _ _ _ s1).
      apply Hsave; [exact (Hnz obj Hobj) | intros row Hin Hpk; exact (Hagree obj row Hobj Hin Hpk)].
    + apply Hsave; [exact (Hnz obj Hobj) | intros row Hin Hpk; exact (Hagree obj row Hobj Hin Hpk)].
  - intros place opening_days opening_time closing_time commit Hplace.
    unfold places_forms.PlaceOpeningHoursForm_save.
    destruct commit; [|reflexivity].
    apply place_save_carried_keeps_ledger;
      [exact (Hnz place Hplace) | intros row Hin Hpk; exact (Hagree place row Hplace Hin Hpk)].
Qed.

Lemma place_upkeep_keeps_ledger_witness :
  let approved :=
    Place.mk (Some 1) Place.FoodPlace "Harbour Cafe" "" None None (Some 50200000)
      (Some (-5200000)) (Some 2) None true false None Place.APPROVED None in
  let s :=
    with_contributions (<[2 := Contribution.mk 1 0 50 0 false]> ∅)
      (with_places [approved] empty_store) in
  contributions (final (places_admin.archive_places 9 (fun _ => true) s))
  = contributions s.
Proof.
  cbv zeta.
  refine (proj1 (place_upkeep_keeps_ledger 9 (fun _ => true)
                   (with_contributions (<[2 := Contribution.mk 1 0 50 0 false]> ∅)
                      (with_places
                         [Place.mk (Some 1) Place.FoodPlace "Harbour Cafe" "" None None
                            (Some 50200000) (Some (-5200000)) (Some 2) None true false
                            None Place.APPROVED None] empty_store)) _ _)).
  - split.
    + intros row [<- | []]. reflexivity.
    + intros r1 r2 [<- | []] [<- | []] _. reflexivity.
  - intros row [<- | []]. discriminate.
Defined.

(** ** Approving places *)

Lemma place_forced_update_result f fields self s :
  places_models.save (Some (f :: fields)) self s
  = match Place.pk self with
    | None => Raised ValueError s
    | Some k =>
        if existsb (Place.has_pk k) (places s)
        then Returned (saved_instance s self)
               (after_place_award (saved_instance s self)
                  (with_places
                     (update_place_rows (f :: fields) k (saved_instance s self) (places s))
                     s))
        else Raised DatabaseError s
    end.
Proof.
  rewrite place_save_unfold by discriminate. fold (saved_instance s self).
  unfold places_models._save_table.
  change (Place.pk (saved_instance s self)) with (Place.pk self).
  destruct (Place.pk self) as [k|]; [|reflexivity].
  destruct (existsb (Place.has_pk k) (places s)); [|reflexivity].
  rewrite place_award_result. reflexivity.
Qed.

Lemma has_pk_of_pk (row : Place.t) (k : Z) :
  Place.has_pk k row = true <-> Place.pk row = Some k.
Proof.
  unfold Place.has_pk. destruct (Place.pk row) as [k'|]; split; try discriminate.
  - intros H. apply Z.eqb_eq in H. congruence.
  - intros [= ->]. apply Z.eqb_refl.
Qed.

Lemma stored_status_of_row (s : Store) (row : Place.t) (k : Z) :
  rows_agree_on_pk (places s) -> In row (places s) -> Place.pk row = Some k ->
  find (Place.has_pk k) (places s) = Some row
  /\ existsb (Place.has_pk k) (places s) = true.
Proof.
  intros Hagree Hin Hpk.
  assert (existsb (Place.has_pk k) (places s) = true) as Hex.
  { apply existsb_exists. exists row. split; [exact Hin | apply has_pk_of_pk, Hpk]. }
  split; [|exact Hex].
  destruct (find (Place.has_pk k) (places s)) as [row'|] eqn:Hfind.
  - apply find_some in Hfind as [Hin' Hpk']. apply has_pk_of_pk in Hpk'.
    rewrite (Hagree row' row Hin' Hin); congruence.
  - exfalso. apply (find_none _ _ Hfind) in Hin.
    apply has_pk_of_pk in Hpk. congruence.
Qed.

Lemma approve_nothing_selected request_user queryset s :
  List.filter (approvable queryset) (places s) = [] ->
  places_admin.approve_places request_user queryset s = Returned tt s.
Proof.
  intros Hsel. unfold places_admin.approve_places. unfold bind at 1. cbn [gets].
  fold (approvable queryset). rewrite Hsel. reflexivity.
Qed.

(** X4: approving through the admin a selection of exactly one place that
    is pending or rejected and has a creator stores the place as approved
    with its flag set, gives the creator exactly 1 place and 50 points, and
    writes one log entry; a place rejected after an earlier approval is
    rewarded again. *)
Theorem approve_single_place_awards_creator request_user queryset s place k u :
  places_consistent s ->
  List.filter (approvable queryset) (places s) = [place] ->
  Place.pk place = Some k ->
  Place.created_by place = Some u ->
  exists s',
    places_admin.approve_places request_user queryset s = Returned tt s'
    /\ contributions s' = <[u := place_award (contribution_of s u)]> (contributions s)
    /\ (forall row', In row' (places s') ->
          Place.pk row' = Some k ->
          Place.moderation_status row' = Place.APPROVED /\ Place.is_approved row' = true)
    /\ (exists row', In row' (places s') /\ Place.pk row' = Some k)
    /\ moderation_log s'
       = moderation_log s
         ++ [ModerationLog.mk (Some request_user) ModerationLog.PLACE_APPROVED
               (ModerationLog.CT_Place (Place.class place)) k
               "Approved from Place admin action."].
Proof.
  intros [_ Hagree] Hsel Hpk Hcreator.
  assert (In place (places s) /\ approvable queryset place = true) as [Hin Happ].
  { apply filter_In. rewrite Hsel. left. reflexivity. }
  destruct (stored_status_of_row s place k Hagree Hin Hpk) as [Hfind Hex].
  unfold places_admin.approve_places. unfold bind at 1. cbn [gets].
  fold (approvable queryset). rewrite Hsel. cbn [for_each].
  unfold bind at 1. unfold bind at 1.
  rewrite place_forced_update_result.
  cbn [Place.pk Place.set_moderation_status]. rewrite Hpk, Hex.
  assert (previously_stored_status s (Place.set_moderation_status Place.APPROVED place)
          = if k =? 0 then None else Some (Place.moderation_status place)) as Hprev.
  { unfold previously_stored_status, places_signals.pk_truthy.
    cbn [Place.pk Place.set_moderation_status]. rewrite Hpk.
    destruct (k =? 0); [reflexivity|]. rewrite Hfind. reflexivity. }
  assert (places_signals.is_approved_status
            (previously_stored_status s (Place.set_moderation_status Place.APPROVED place))
          = false) as Hnot.
  { rewrite Hprev. unfold approvable in Happ. apply andb_prop in Happ as [_ Happ].
    destruct (k =? 0); [reflexivity|]. cbn.
    destruct (Place.moderation_status place); [reflexivity | discriminate | reflexivity]. }
  unfold after_place_award, saved_instance.
  cbn [Place._previous_moderation_status Place.set_previous_moderation_status
       Place.moderation_status resynchronized Place.set_is_approved
       Place.set_moderation_status Place.created_by Place.ModerationStatus_eqb negb
       Place.pk Place.class].
  rewrite Hnot, Hcreator, Hpk. cbn [reviews_moderation.log_moderation_action modify ret bind].
  eexists. split; [reflexivity|].
  cbn [contributions places moderation_log with_contributions with_places
       with_moderation_log contribution_of places_admin.target_type Place.class].
  split; [reflexivity|]. split; [|split; [|reflexivity]].
  - intros row' Hin' Hpk'. apply in_update_place_rows in Hin' as (row & Hrow & Hsame & Hcase).
    destruct Hcase as [[_ ->] | [Hno _]]; [split; reflexivity|].
    exfalso. rewrite (has_pk_same_pk k row row' (eq_sym Hsame)) in Hno.
    apply has_pk_of_pk in Hpk'. congruence.
  - eexists. split.
    + unfold update_place_rows. apply in_map. exact Hin.
    + rewrite (proj2 (has_pk_of_pk place k) Hpk). exact Hpk.
Qed.

Lemma approve_single_place_awards_creator_witness :
  let rejected :=
    Place.mk (Some 1) Place.HeritagePlace "Old Mill" "" None None (Some 50200000)
      (Some (-5200000)) (Some 2) None false false None Place.REJECTED None in
  let s :=
    with_contributions (<[2 := Contribution.mk 1 0 50 0 false]> ∅)
      (with_places [rejected] empty_store) in
  exists s',
    places_admin.approve_places 9 (fun _ => true) s = Returned tt s'
    /\ contributions s' = <[2 := Contribution.mk 2 0 100 0 false]> (contributions s).
Proof.
  cbv zeta.
  destruct (approve_single_place_awards_creator 9 (fun _ => true)
              (with_contributions (<[2 := Contribution.mk 1 0 50 0 false]> ∅)
                 (with_places
                    [Place.mk (Some 1) Place.HeritagePlace "Old Mill" "" None None
                       (Some 50200000) (Some (-5200000)) (Some 2) None false false None
                       Place.REJECTED None] empty_store))
              (Place.mk (Some 1) Place.HeritagePlace "Old Mill" "" None None
                 (Some 50200000) (Some (-5200000)) (Some 2) None false false None
                 Place.REJECTED None) 1 2)
    as (s' & Hrun & Hledger & _).
  - split.
    + intros row [<- | []]. reflexivity.
    + intros r1 r2 [<- | []] [<- | []] _. reflexivity.
  - reflexivity.
  - reflexivity.
  - reflexivity.
  - exists s'. split; [exact Hrun|]. rewrite Hledger. reflexivity.
Defined.

Lemma approve_step_selection request_user queryset x rest :
  hoare
    (fun s => forall row, In row (places s) -> approvable queryset row = true ->
                exists y, In y (x :: rest) /\ Place.pk y = Place.pk row)
    (let* place :=
       places_models.save (Some [Place.F_moderation_status; Place.F_is_approved])
         (Place.set_moderation_status Place.APPROVED x) in
     reviews_moderation.log_moderation_action request_user ModerationLog.PLACE_APPROVED
       (places_admin.target_type place) (Place.pk place)
       "Approved from Place admin action.")
    (fun _ s => forall row, In row (places s) -> approvable queryset row = true ->
                  exists y, In y rest /\ Place.pk y = Place.pk row)
    (fun _ => True).
Proof.
  intros s Hinv. unfold bind. rewrite place_forced_update_result.
  cbn [Place.pk Place.set_moderation_status].
  destruct (Place.pk x) as [k|] eqn:Hk; [|exact Logic.I].
  destruct (existsb (Place.has_pk k) (places s)); [|exact Logic.I].
  match goal with
  | |- context [reviews_moderation.log_moderation_action ?a ?b ?c ?d ?e ?st] =>
      pose proof (log_keeps_places a b c d e st) as Hlog;
      destruct (reviews_moderation.log_moderation_action a b c d e st) as [[] s2 | e2 s2]
  end; [|exact Logic.I].
  cbn [final] in Hlog. rewrite Hlog.
  assert (forall i st, places (after_place_award i st) = places st) as Haward.
  { intros i st. unfold after_place_award.
    destruct (places_signals.is_approved_status _); [reflexivity|].
    destruct (negb _); [reflexivity|]. destruct (Place.created_by i); reflexivity. }
  rewrite Haward. cbn [places with_places].
  intros row' Hin' Hsel'.
  apply in_update_place_rows in Hin' as (row & Hrow & Hsame & Hcase).
  destruct Hcase as [[_ ->] | [Hno ->]].
  - exfalso. unfold approvable in Hsel'.
    cbn [Place.update_columns Place.moderation_status Place.listed existsb Place.Field_eqb
         orb saved_instance Place.set_previous_moderation_status resynchronized
         Place.set_is_approved Place.set_moderation_status Place.ModerationStatus_eqb negb]
      in Hsel'.
    rewrite andb_false_r in Hsel'. discriminate.
  - destruct (Hinv row Hrow Hsel') as (y & [<- | Hy] & Hpk).
    + exfalso. rewrite Hk in Hpk. symmetry in Hpk. apply has_pk_of_pk in Hpk. congruence.
    + exists y. split; [exact Hy | exact Hpk].
Qed.

(** X5: approving is idempotent: when [approve_places] has run to its end
    on a queryset, running it again on the same queryset changes nothing,
    so no place is rewarded or logged twice. *)
Theorem approve_places_twice_is_once request_user queryset s s' :
  places_admin.approve_places request_user queryset s = Returned tt s' ->
  places_admin.approve_places request_user queryset s' = Returned tt s'.
Proof.
  intros Hrun. apply approve_nothing_selected. apply filter_nil_iff.
  intros row Hin. destruct (approvable queryset row) eqn:Hsel; [|reflexivity]. exfalso.
  unfold places_admin.approve_places in Hrun. unfold bind at 1 in Hrun. cbn [gets] in Hrun.
  fold (approvable queryset) in Hrun.
  pose proof (hoare_for_each
                (fun rest s => forall row, In row (places s) ->
                   approvable queryset row = true ->
                   exists y, In y rest /\ Place.pk y = Place.pk row)
                (fun _ => True) _ (List.filter (approvable queryset) (places s))
                (approve_step_selection request_user queryset) s) as Hloop.
  cbv beta in Hloop. rewrite Hrun in Hloop.
  destruct Hloop with (row := row) as (y & [] & _); [|exact Hin | exact Hsel].
  intros r Hr Hs. exists r. split; [|reflexivity]. apply filter_In. auto.
Qed.

Lemma approve_places_twice_is_once_witness :
  let pending k u :=
    Place.mk (Some k) Place.FoodPlace "Cafe" "" None None (Some 50200000)
      (Some (-5200000)) (Some u) None false false None Place.PENDING None in
  let s := with_places [pending 1 2; pending 2 3] empty_store in
  exists s',
    places_admin.approve_places 9 (fun _ => true) s = Returned tt s'
    /\ places_admin.approve_places 9 (fun _ => true) s' = Returned tt s'.
Proof.
  cbv zeta. eexists. split; [vm_compute; reflexivity|].
  apply (approve_places_twice_is_once 9 (fun _ => true)
           (with_places
              [Place.mk (Some 1) Place.FoodPlace "Cafe" "" None None (Some 50200000)
                 (Some (-5200000)) (Some 2) None false false None Place.PENDING None;
               Place.mk (Some 2) Place.FoodPlace "Cafe" "" None None (Some 50200000)
                 (Some (-5200000)) (Some 3) None false false None Place.PENDING None]
              empty_store)).
  vm_compute. reflexivity.
Defined.

(** ** Submitting reviews and places *)

Lemma next_review_pk_fresh (rows : list Review.t) (other : Review.t) :
  In other rows ->
  reviews_models.opt_Z_eqb (Review.pk other) (Some (next_pk (map Review.pk rows))) = false.
Proof.
  intros Hin. unfold reviews_models.opt_Z_eqb.
  destruct (Review.pk other) as [k|] eqn:Hk; [|reflexivity].
  apply Z.eqb_neq. intros ->.
  assert (In (Some (next_pk (map Review.pk rows))) (map Review.pk rows)) as Habove.
  { rewrite <- Hk. apply in_map. exact Hin. }
  apply next_pk_above in Habove. lia.
Qed.

Lemma existsb_ext_in {A} (f g : A -> bool) (l : list A) :
  (forall x, In x l -> f x = g x) -> existsb f l = existsb g l.
Proof.
  induction l as [|x l IH]; intros H; cbn; [reflexivity|].
  rewrite (H x (or_introl eq_refl)), IH; [reflexivity|].
  intros y Hy. apply H. right. exact Hy.
Qed.

Lemma fresh_row_violates_unique (s : Store) (now : Z) (self : Review.t) :
  reviews_models.violates_unique (reviews s)
    (Review.as_row (next_pk (map Review.pk (reviews s))) now self)
  = match Review.user self with
    | None => false
    | Some u => negb (Review.is_archived self) && has_live_review s u (Review.place self)
    end.
Proof.
  unfold reviews_models.violates_unique, has_live_review.
  change (Review.user (Review.as_row (next_pk (map Review.pk (reviews s))) now self))
    with (Review.user self).
  destruct (Review.user self) as [u|]; [|reflexivity].
  cbn [Review.as_row Review.is_archived Review.place Review.pk]. f_equal.
  apply existsb_ext_in. intros other Hin.
  rewrite (next_review_pk_fresh _ _ Hin). reflexivity.
Qed.

(** X6: a review submitted by a signed-in user who already has a review of
    the place that is not archived is refused and nothing is written;
    otherwise it is stored under a fresh primary key, stamped with the
    current time, and its author gains exactly 1 review and 10 points. A
    guest's review is always stored and moves no points. *)
Theorem submitted_review_stored_and_rewarded place_pk text rating s :
  (forall u,
     reviews_views._save_review (Some u) place_pk (reviews_views.form_instance text rating) s
     = if has_live_review s u place_pk
       then Returned false s
       else Returned true
              (with_contributions
                 (<[u := review_award (contribution_of s u)]> (contributions s))
                 (with_reviews
                    (reviews s
                     ++ [Review.mk (Some (next_pk (map Review.pk (reviews s)))) place_pk
                           (Some u) text rating true false "" false false None None
                           (clock s)]) s)))
  /\ reviews_views._save_review None place_pk (reviews_views.form_instance text rating) s
     = Returned true
         (with_reviews
            (reviews s
             ++ [Review.mk (Some (next_pk (map Review.pk (reviews s)))) place_pk
                   None text rating true false "" false false None None (clock s)]) s).
Proof.
  split; [intros u|].
  - unfold reviews_views._save_review, try_except, reviews_models.save, bind,
      reviews_models._save_table, bind, gets, reviews_models.insert.
    cbn [Review.pk reviews_views.form_instance].
    rewrite fresh_row_violates_unique.
    unfold reviews_views.form_instance.
    cbn [Review.user Review.is_archived Review.place Review.text Review.rating
         Review.is_approved Review.reported Review.report_reason
         Review.moderation_penalty_applied Review.archived_at Review.archived_by
         Review.created_at Review.as_row negb andb].
    destruct (has_live_review s u place_pk); [reflexivity|].
    cbv beta iota. cbn [fst snd]. rewrite review_award_result. reflexivity.
  - reflexivity.
Qed.

(** X7: a place submitted through the form is stored under a fresh primary
    key as pending and not approved, with the submitter as creator and the
    geocoded coordinates, and the ledger is left alone; when geocoding gave
    no latitude or no longitude nothing is stored. *)
Theorem submitted_place_is_pending_and_unrewarded request_user form s :
  (forall lat lng,
     places_views_submit.add_place request_user form (Some lat, Some lng) s
     = Returned true
         (with_places
            (places s
             ++ [Place.mk (Some (next_pk (map Place.pk (places s)))) (Place.class form)
                   (Place.name form) (Place.opening_days form) (Place.opening_time form)
                   (Place.closing_time form) (Some lat) (Some lng) (Some request_user)
                   None false false None Place.PENDING None]) s))
  /\ (forall geocoded,
        fst geocoded = None \/ snd geocoded = None ->
        places_views_submit.add_place request_user form geocoded s = Returned false s).
Proof.
  split.
  - intros lat lng. unfold places_views_submit.add_place. unfold bind at 1.
    rewrite place_save_unfold by discriminate. reflexivity.
  - intros [[lat|] [lng|]] [H | H]; try discriminate H; reflexivity.
Qed.

Lemma submitted_place_is_pending_and_unrewarded_witness :
  places_views_submit.add_place 2
    (Place.mk None Place.BeachPlace "North Cove" "" None None None None None None
       true false None Place.APPROVED None) (Some 50200000, None) empty_store
  = Returned false empty_store.
Proof.
  apply (proj2 (submitted_place_is_pending_and_unrewarded 2
                  (Place.mk None Place.BeachPlace "North Cove" "" None None None None None
                     None true false None Place.APPROVED None) empty_store)).
  right. reflexivity.
Defined.

(** ** Archiving, restoring and dismissing reviews *)

Lemma filter_andb {A} (f g : A -> bool) (l : list A) :
  List.filter (fun x => f x && g x) l = List.filter g (List.filter f l).
Proof.
  induction l as [|x l IH]; cbn; [reflexivity|].
  destruct (f x); cbn; [destruct (g x)|]; rewrite IH; reflexivity.
Qed.

Lemma find_head_filter {A} (f : A -> bool) (l : list A) :
  find f l = hd_error (List.filter f l).
Proof.
  induction l as [|x l IH]; cbn; [reflexivity|]. destruct (f x); [reflexivity | exact IH].
Qed.

Lemma existsb_map {A B} (f : B -> bool) (g : A -> B) (l : list A) :
  existsb f (map g l) = existsb (fun x => f (g x)) l.
Proof. induction l as [|x l IH]; cbn; [reflexivity|]. rewrite IH. reflexivity. Qed.

Lemma review_has_pk_of_pk (row : Review.t) (k : Z) :
  Review.has_pk k row = true <-> Review.pk row = Some k.
Proof.
  unfold Review.has_pk. destruct (Review.pk row) as [k'|]; split; try discriminate.
  - intros H. apply Z.eqb_eq in H. congruence.
  - intros [= ->]. apply Z.eqb_refl.
Qed.

Lemma filter_has_pk_update_rows fields k instance rows :
  List.filter (Review.has_pk k) (reviews_models.update_rows fields k instance rows)
  = map (Review.update_columns fields instance) (List.filter (Review.has_pk k) rows).
Proof.
  unfold reviews_models.update_rows.
  induction rows as [|r rows IH]; cbn [map List.filter]; [reflexivity|].
  destruct (Review.has_pk k r) eqn:Hr.
  - change (Review.has_pk k (Review.update_columns fields instance r))
      with (Review.has_pk k r).
    rewrite Hr. cbn [map]. rewrite IH. reflexivity.
  - rewrite Hr. exact IH.
Qed.

(** A write that leaves place, user and primary key of every row alone and
    touches only rows with primary key [k] does not change whether a row
    with primary key [k] has a rival under the uniqueness constraint. *)
Lemma rivals_after_update fields k instance rows row row' :
  Review.pk row = Some k -> Review.pk row' = Some k ->
  Review.place row' = Review.place row -> Review.user row' = Review.user row ->
  Review.is_archived row' = false -> Review.is_archived row = false ->
  reviews_models.violates_unique rows row = false ->
  reviews_models.violates_unique (reviews_models.update_rows fields k instance rows) row'
  = false.
Proof.
  unfold reviews_models.violates_unique, reviews_models.update_rows.
  intros Hpk Hpk' Hplace Huser Harch' Harch.
  rewrite Hpk, Hpk', Hplace, Huser, Harch, Harch'.
  destruct (Review.user row) as [u|]; [|reflexivity].
  cbn [negb andb]. intros Hnone. rewrite existsb_map.
  rewrite <- Hnone. apply existsb_ext_in. intros r _.
  destruct (Review.has_pk k r) eqn:Hr; [|reflexivity].
  apply review_has_pk_of_pk in Hr.
  change (Review.pk (Review.update_columns fields instance r)) with (Review.pk r).
  rewrite Hr. cbn [reviews_models.opt_Z_eqb]. rewrite Z.eqb_refl. reflexivity.
Qed.

(** X8: archiving a review through the admin and restoring it afterwards
    clears the archive fields but leaves the review not approved and not
    reported: a restored review stays hidden until it is approved again.
    Neither step touches the ledger; each writes one log entry. *)
Theorem archived_then_restored_review_stays_hidden request_user k review s :
  List.filter (Review.has_pk k) (reviews s) = [review] ->
  Review.is_archived review = false ->
  reviews_models.violates_unique (reviews s) review = false ->
  exists s1 s2,
    reviews_admin.archive_reviews request_user (Review.has_pk k) s = Returned tt s1
    /\ reviews_admin.restore_reviews request_user (Review.has_pk k) s1 = Returned tt s2
    /\ reviews s1
       = map (fun r =>
                if Review.has_pk k r
                then Review.set_reported false
                       (Review.set_is_approved false
                          (Review.set_archived_by (Some request_user)
                             (Review.set_archived_at (Some (clock s))
                                (Review.set_is_archived true r))))
                else r) (reviews s)
    /\ reviews s2
       = map (fun r =>
                if Review.has_pk k r
                then Review.set_reported false
                       (Review.set_is_approved false
                          (Review.set_archived_by None (Review.set_archived_at None r)))
                else r) (reviews s)
    /\ contributions s2 = contributions s
    /\ moderation_log s2
       = moderation_log s
         ++ [ModerationLog.mk (Some request_user) ModerationLog.REVIEW_ARCHIVED
               ModerationLog.CT_Review k "Archived review via admin.";
             ModerationLog.mk (Some request_user) ModerationLog.REVIEW_RESTORED
               ModerationLog.CT_Review k "Restored archived review via admin."].
Proof.
  intros Hsel Hlive Hunique.
  assert (Hpk : Review.pk review = Some k).
  { apply review_has_pk_of_pk.
    assert (In review (List.filter (Review.has_pk k) (reviews s))) as Hin
      by (rewrite Hsel; left; reflexivity).
    apply filter_In in Hin. tauto. }
  set (archived :=
         Review.set_reported false
           (Review.set_is_approved false
              (Review.set_archived_by (Some request_user)
                 (Review.set_archived_at (Some (clock s))
                    (Review.set_is_archived true review))))).
  set (s1 :=
         with_moderation_log
           (moderation_log s
            ++ [ModerationLog.mk (Some request_user) ModerationLog.REVIEW_ARCHIVED
                  ModerationLog.CT_Review k "Archived review via admin."])
           (with_reviews
              (reviews_models.update_rows reviews_admin.archive_fields k archived
                 (reviews s)) s)).
  assert (Harchive :
            reviews_admin.archive_reviews request_user (Review.has_pk k) s
            = Returned tt s1).
  { unfold reviews_admin.archive_reviews, timezone_now. unfold bind at 1. cbn [gets].
    unfold bind at 1. cbn [gets]. rewrite filter_andb, Hsel. cbn [List.filter].
    rewrite Hlive. cbn [negb for_each]. unfold bind at 1. unfold bind at 1.
    fold archived. unfold reviews_admin.archive_fields at 1.
    rewrite review_forced_update_result.
    change (Review.pk archived) with (Review.pk review). rewrite Hpk.
    rewrite find_head_filter, Hsel. cbn [hd_error].
    assert (reviews_models.violates_unique (reviews s)
              (Review.update_columns reviews_admin.archive_fields archived review)
            = false) as Hok.
    { unfold reviews_models.violates_unique.
      destruct (Review.user _); reflexivity. }
    unfold reviews_admin.archive_fields in Hok. rewrite Hok, andb_false_r.
    cbn [Review.pk Review.set_reported Review.set_is_approved Review.set_archived_by
         Review.set_archived_at Review.set_is_archived].
    rewrite ?Hpk. reflexivity. }
  set (restored :=
         Review.set_archived_by None
           (Review.set_archived_at None
              (Review.set_is_archived false
                 (Review.update_columns reviews_admin.archive_fields archived review)))).
  set (restore_fields :=
         [Review.F_is_archived; Review.F_archived_at; Review.F_archived_by]).
  set (s2 :=
         with_moderation_log
           (moderation_log s1
            ++ [ModerationLog.mk (Some request_user) ModerationLog.REVIEW_RESTORED
                  ModerationLog.CT_Review k "Restored archived review via admin."])
           (with_reviews
              (reviews_models.update_rows restore_fields k restored (reviews s1)) s1)).
  assert (Hsel1 : List.filter (Review.has_pk k) (reviews s1)
                  = [Review.update_columns reviews_admin.archive_fields archived review]).
  { cbn [s1 reviews with_moderation_log with_reviews].
    rewrite filter_has_pk_update_rows, Hsel. reflexivity. }
  assert (Hrestore :
            reviews_admin.restore_reviews request_user (Review.has_pk k) s1
            = Returned tt s2).
  { assert (Review.is_archived
              (Review.update_columns reviews_admin.archive_fields archived review) = true)
      as Harch1 by reflexivity.
    unfold reviews_admin.restore_reviews. unfold bind at 1. cbn [gets].
    rewrite filter_andb, Hsel1. cbn [List.filter]. rewrite Harch1. cbn [for_each].
    unfold bind at 1. unfold bind at 1. fold restored.
    rewrite review_forced_update_result.
    change (Review.pk restored) with (Review.pk review). rewrite Hpk.
    rewrite find_head_filter, Hsel1. cbn [hd_error].
    match goal with
    | |- context [reviews_models.violates_unique ?rows ?row] =>
        assert (reviews_models.violates_unique rows row = false) as ->
    end.
    { cbn [s1 reviews with_moderation_log with_reviews].
      apply (rivals_after_update _ _ _ _ review); try reflexivity; assumption. }
    rewrite andb_false_r. cbv beta iota.
    reflexivity. }
  exists s1, s2. split; [exact Harchive|]. split; [exact Hrestore|].
  assert (Hrows : forall r, In r (reviews s) -> Review.has_pk k r = true -> r = review).
  { intros r Hin Hr.
    assert (In r (List.filter (Review.has_pk k) (reviews s))) as Hin'
      by (apply filter_In; auto).
    rewrite Hsel in Hin'. destruct Hin' as [<- | []]. reflexivity. }
  split; [|split; [|split; [reflexivity|]]].
  - cbn [s1 reviews with_moderation_log with_reviews]. unfold reviews_models.update_rows.
    apply map_ext_in. intros r Hin. destruct (Review.has_pk k r) eqn:Hr; [|reflexivity].
    rewrite (Hrows r Hin Hr). reflexivity.
  - cbn [s2 s1 reviews with_moderation_log with_reviews]. unfold reviews_models.update_rows.
    rewrite map_map. apply map_ext_in. intros r Hin.
    destruct (Review.has_pk k r) eqn:Hr.
    + change (Review.has_pk k (Review.update_columns reviews_admin.archive_fields archived r))
        with (Review.has_pk k r). rewrite Hr.
      rewrite (Hrows r Hin Hr). destruct review; cbn in Hlive; subst; reflexivity.
    + rewrite Hr. reflexivity.
  - cbn [s2 s1 moderation_log with_moderation_log with_reviews].
    rewrite <- app_assoc. reflexivity.
Qed.

Lemma archived_then_restored_review_stays_hidden_witness :
  let review :=
    Review.mk (Some 1) 7 (Some 2) "Great views" 5 true false "" false false None None 10 in
  let s := with_clock 20 (with_reviews [review] empty_store) in
  exists s1 s2,
    reviews_admin.archive_reviews 9 (Review.has_pk 1) s = Returned tt s1
    /\ reviews_admin.restore_reviews 9 (Review.has_pk 1) s1 = Returned tt s2
    /\ reviews s2
       = [Review.mk (Some 1) 7 (Some 2) "Great views" 5 false false "" false false None
            None 10].
Proof.
  cbv zeta.
  destruct (archived_then_restored_review_stays_hidden 9 1
              (Review.mk (Some 1) 7 (Some 2) "Great views" 5 true false "" false false
                 None None 10)
              (with_clock 20
                 (with_reviews
                    [Review.mk (Some 1) 7 (Some 2) "Great views" 5 true false "" false
                       false None None 10] empty_store))
              eq_refl eq_refl eq_refl)
    as (s1 & s2 & Harchive & Hrestore & _ & Hrows & _).
  exists s1, s2. split; [exact Harchive|]. split; [exact Hrestore|].
  rewrite Hrows. reflexivity.
Defined.

Lemma update_pending_reports_keeps_reviews review status :
  keeps reviews (reviews_admin.update_pending_reports review status).
Proof. unfold reviews_admin.update_pending_reports. repeat keeps_step. Qed.

Lemma Forall2_map_r {A B} (R : A -> B -> Prop) (g : B -> B) (l : list A) (l' : list B) :
  (forall x y, R x y -> R x (g y)) -> Forall2 R l l' -> Forall2 R l (map g l').
Proof. intros Hg H. induction H; cbn; constructor; auto. Qed.

Lemma Forall2_diag {A} (R : A -> A -> Prop) (l : list A) :
  (forall x, R x x) -> Forall2 R l l.
Proof. intros H. induction l; constructor; auto. Qed.

(** X9: dismissing reported reviews never changes the ledger and never
    changes a review beyond clearing its [reported] flag: no review is
    hidden, archived or marked as penalised by a dismissal. *)
Theorem dismiss_only_clears_the_reported_flag request_user queryset s :
  contributions (final (reviews_admin.dismiss_reported_reviews request_user queryset s))
  = contributions s
  /\ Forall2 (fun r r' => r' = r \/ r' = Review.set_reported false r)
       (reviews s)
       (reviews (final (reviews_admin.dismiss_reported_reviews request_user queryset s))).
Proof.
  split.
  - revert s.
    change (keeps contributions
              (reviews_admin.dismiss_reported_reviews request_user queryset)).
    unfold reviews_admin.dismiss_reported_reviews. repeat keeps_step.
    + apply update_pending_reports_keeps_contributions.
    + apply review_forced_update_keeps_contributions.
    + apply log_keeps_contributions.
  - set (I := fun s' : Store =>
                Forall2 (fun r r' => r' = r \/ r' = Review.set_reported false r)
                  (reviews s) (reviews s')).
    assert (Hkeep : forall A (m : M A), keeps reviews m -> preserves I m).
    { intros A m. apply keeps_preserves. unfold I. intros s1 s2 ->. auto. }
    apply (preserves_final I).
    + unfold reviews_admin.dismiss_reported_reviews. repeat preserves_step.
      * apply Hkeep, update_pending_reports_keeps_reviews.
      * apply hoare_final. intros s1 Hs1. rewrite review_forced_update_result.
        cbn [Review.pk Review.set_reported].
        destruct (Review.pk x) as [k|]; [|exact Hs1].
        destruct (find (Review.has_pk k) (reviews s1)); [|exact Hs1].
        destruct (_ && _); [exact Hs1|].
        unfold I. cbn [final reviews with_reviews]. unfold reviews_models.update_rows.
        apply Forall2_map_r; [|exact Hs1].
        intros r r' Hr. destruct (Review.has_pk k r'); [|exact Hr].
        right. destruct Hr as [-> | ->]; destruct r; reflexivity.
      * apply Hkeep, log_keeps_reviews.
    + unfold I. apply Forall2_diag. auto.
Qed.

(** ** Reporting reviews *)

Lemma review_has_pk_update_columns fields k instance r :
  Review.has_pk k (Review.update_columns fields instance r) = Review.has_pk k r.
Proof. reflexivity. Qed.

Lemma find_update_rows (f : Review.t -> bool) fields k instance rows :
  (forall r, f (Review.update_columns fields instance r) = f r) ->
  find f (reviews_models.update_rows fields k instance rows)
  = option_map (fun r => if Review.has_pk k r
                         then Review.update_columns fields instance r else r)
      (find f rows).
Proof.
  intros Hf. unfold reviews_models.update_rows.
  induction rows as [|r rows IH]; cbn [map find option_map]; [reflexivity|].
  destruct (Review.has_pk k r) eqn:Hk; rewrite ?Hf; destruct (f r) eqn:Hfr;
    cbn [option_map]; rewrite ?Hk; auto.
Qed.

Lemma find_app_none {A} (f : A -> bool) (l : list A) (x : A) :
  find f l = None -> find f (l ++ [x]) = if f x then Some x else None.
Proof.
  induction l as [|y l IH]; cbn [app find]; [reflexivity|].
  destruct (f y); [discriminate | exact IH].
Qed.

(** X10: reporting a review. The author's own report is refused and
    nothing is written. A first report by another user is stored as
    pending with the reason cut to 255 characters, and every row of that
    review is flagged as reported with that reason; the ledger is left
    alone. A second report by the same user, whatever its reason, is
    refused and nothing is written. *)
Theorem report_review_once_per_reporter request_user review_id reason review s :
  find (fun r => Review.has_pk review_id r && negb (Review.is_archived r)) (reviews s)
  = Some review ->
  (Review.user review = Some request_user ->
   reviews_views.report_review request_user review_id reason s = Returned false s)
  /\ (Review.user review <> Some request_user ->
      existing_report s review_id request_user = None ->
      exists s',
        reviews_views.report_review request_user review_id reason s = Returned true s'
        /\ reports s'
           = reports s
             ++ [ReviewReport.mk review_id request_user (String.substring 0 255 reason)
                   ReviewReport.PENDING]
        /\ reviews s'
           = map (fun r =>
                    if Review.has_pk review_id r
                    then Review.set_report_reason (String.substring 0 255 reason)
                           (Review.set_reported true r)
                    else r) (reviews s)
        /\ contributions s' = contributions s
        /\ forall reason',
             reviews_views.report_review request_user review_id reason' s'
             = Returned false s').
Proof.
  intros Hfind.
  assert (Hin : In review (reviews s) /\ Review.pk review = Some review_id).
  { apply find_some in Hfind as [Hin Hsel]. split; [exact Hin|].
    apply andb_prop in Hsel as [Hpk _]. apply review_has_pk_of_pk, Hpk. }
  destruct Hin as [Hin Hpk].
  split.
  - intros Hown. unfold reviews_views.report_review. unfold bind at 1. cbn [gets].
    rewrite Hfind, Hown. cbn [reviews_models.opt_Z_eqb]. rewrite Z.eqb_refl. reflexivity.
  - intros Hother Hnone.
    assert (Hne : reviews_models.opt_Z_eqb (Review.user review) (Some request_user) = false).
    { unfold reviews_models.opt_Z_eqb. destruct (Review.user review) as [u|]; [|reflexivity].
      apply Z.eqb_neq. intros ->. apply Hother. reflexivity. }
    set (report := ReviewReport.mk review_id request_user (String.substring 0 255 reason)
                     ReviewReport.PENDING).
    set (instance := Review.set_report_reason (String.substring 0 255 reason)
                       (Review.set_reported true review)).
    set (s' := with_reviews
                 (reviews_models.update_rows [Review.F_reported; Review.F_report_reason]
                    review_id instance (reviews s))
                 (with_reports (reports s ++ [report]) s)).
    assert (Hrun : reviews_views.report_review request_user review_id reason s
                   = Returned true s').
    { unfold reviews_views.report_review. unfold bind at 1. cbn [gets].
      rewrite Hfind, Hne. unfold bind at 1. cbn [gets].
      fold (existing_report s review_id request_user). rewrite Hnone.
      unfold bind at 1. cbn [modify]. unfold bind at 1.
      cbn [ReviewReport.reason]. fold instance. fold report.
      rewrite review_forced_update_result.
      change (Review.pk instance) with (Review.pk review). rewrite Hpk.
      cbn [reviews with_reports].
      destruct (find (Review.has_pk review_id) (reviews s)) as [row|] eqn:Hrow.
      - reflexivity.
      - exfalso. apply (find_none _ _ Hrow) in Hin.
        apply review_has_pk_of_pk in Hpk. congruence. }
    exists s'. split; [exact Hrun|]. split; [reflexivity|]. split; [|split; [reflexivity|]].
    + cbn [s' reviews with_reviews]. unfold reviews_models.update_rows.
      apply map_ext. intros r. destruct (Review.has_pk review_id r); [|reflexivity].
      destruct r; reflexivity.
    + intros reason'. unfold reviews_views.report_review. unfold bind at 1. cbn [gets].
      cbn [s' reviews with_reviews].
      rewrite find_update_rows by reflexivity. rewrite Hfind. cbn [option_map].
      rewrite (proj2 (review_has_pk_of_pk review review_id) Hpk).
      change (Review.user (Review.update_columns
                             [Review.F_reported; Review.F_report_reason] instance review))
        with (Review.user review).
      rewrite Hne. unfold bind at 1. cbn [gets].
      change (reports s') with (reports s ++ [report]).
      rewrite (find_app_none _ _ report Hnone).
      cbn [report ReviewReport.review ReviewReport.reporter]. rewrite !Z.eqb_refl.
      reflexivity.
Qed.

Lemma report_review_once_per_reporter_witness :
  let review :=
    Review.mk (Some 1) 7 (Some 2) "Great views" 5 true false "" false false None None 10 in
  let s := with_reviews [review] empty_store in
  reviews_views.report_review 2 1 "I changed my mind" s = Returned false s
  /\ exists s',
       reviews_views.report_review 3 1 "Spam" s = Returned true s'
       /\ reviews_views.report_review 3 1 "Spam again" s' = Returned false s'.
Proof.
  cbv zeta.
  destruct (report_review_once_per_reporter 2 1 "I changed my mind"
              (Review.mk (Some 1) 7 (Some 2) "Great views" 5 true false "" false false
                 None None 10)
              (with_reviews
                 [Review.mk (Some 1) 7 (Some 2) "Great views" 5 true false "" false false
                    None None 10] empty_store) eq_refl) as [Hown _].
  destruct (report_review_once_per_reporter 3 1 "Spam"
              (Review.mk (Some 1) 7 (Some 2) "Great views" 5 true false "" false false
                 None None 10)
              (with_reviews
                 [Review.mk (Some 1) 7 (Some 2) "Great views" 5 true false "" false false
                    None None 10] empty_store) eq_refl) as [_ Hfirst].
  split; [apply Hown; reflexivity|].
  destruct Hfirst as (s' & Hrun & _ & _ & _ & Hagain); [discriminate | reflexivity |].
  exists s'. split; [exact Hrun | apply Hagain].
Defined.

Section ReportTable.

(** Code that does not write reports keeps whatever is read off the
    report table. *)
Context {X : Type} (view : list ReviewReport.t -> X).

Let proj (s : Store) : X := view (reports s).

Lemma get_or_create_keeps_reports u : keeps proj (ContributionObjects.get_or_create u).
Proof. unfold ContributionObjects.get_or_create. keeps_leaf. Qed.

Lemma contribution_save_keeps_reports fields u c :
  keeps proj (ContributionObjects.save fields u c).
Proof. unfold ContributionObjects.save. keeps_leaf. Qed.

Lemma log_keeps_reports actor action target_type target_pk notes :
  keeps proj
    (reviews_moderation.log_moderation_action actor action target_type target_pk notes).
Proof. unfold reviews_moderation.log_moderation_action. repeat keeps_step. Qed.

Lemma place_save_keeps_reports update_fields self :
  keeps proj (places_models.save update_fields self).
Proof.
  unfold places_models.save, places_models.Model_save,
    places_signals.stored_moderation_status.
  repeat keeps_step; auto using pre_save_send_keeps.
  all: try (unfold places_models._save_table; keeps_leaf).
  all: apply post_save_send_keeps;
    unfold places_signals._award_points_if_newly_approved;
    repeat keeps_step;
    auto using get_or_create_keeps_reports, contribution_save_keeps_reports.
Qed.

Lemma review_save_keeps_reports update_fields self :
  keeps proj (reviews_models.save update_fields self).
Proof.
  unfold reviews_models.save, reviews_models._save_table,
    accounts_signals.award_points_for_review.
  repeat keeps_step;
    auto using get_or_create_keeps_reports, contribution_save_keeps_reports.
  all: try (unfold reviews_models.update; keeps_leaf).
  all: try (unfold reviews_models.insert; keeps_leaf).
Qed.

End ReportTable.

Lemma set_status_keeps_facts (f : ReviewReport.t -> bool) (status : ReviewReport.Status)
    (rows : list ReviewReport.t) :
  map (fun rep => (report_key rep, ReviewReport.reason rep))
    (map (fun rep => if f rep then ReviewReport.set_status status rep else rep) rows)
  = map (fun rep => (report_key rep, ReviewReport.reason rep)) rows.
Proof.
  rewrite map_map. apply map_ext. intros rep. destruct (f rep); reflexivity.
Qed.

Lemma update_pending_reports_keeps_facts review status :
  keeps report_facts (reviews_admin.update_pending_reports review status).
Proof.
  unfold reviews_admin.update_pending_reports. apply keeps_modify. intros s.
  unfold report_facts. cbn [reports with_reports]. apply set_status_keeps_facts.
Qed.

Lemma mark_reports_keeps_facts queryset status :
  keeps report_facts (reviews_admin.mark_reports queryset status).
Proof.
  unfold reviews_admin.mark_reports. apply keeps_modify. intros s.
  unfold report_facts. cbn [reports with_reports]. apply set_status_keeps_facts.
Qed.

Lemma substring_length_le (n : nat) (text : string) :
  (String.length (String.substring 0 n text) <= n)%nat.
Proof.
  revert text. induction n as [|n IH]; intros [|c text]; cbn; try lia.
  specialize (IH text). lia.
Qed.

Lemma existing_report_none_fresh (s : Store) (review_id : Z) (reporter : user_id) :
  existing_report s review_id reporter = None ->
  ~ In (review_id, reporter) (map fst (report_facts s)).
Proof.
  unfold existing_report, report_facts. intros Hnone Hin.
  rewrite map_map in Hin. cbn [fst] in Hin. apply in_map_iff in Hin as (rep & Hkey & Hin).
  apply (find_none _ _ Hnone) in Hin. unfold report_key in Hkey.
  injection Hkey as H1 H2. rewrite H1, H2, !Z.eqb_refl in Hin. discriminate.
Qed.

Lemma report_review_well_formed request_user review_id reason :
  preserves (fun s => reports_well_formed (report_facts s))
    (reviews_views.report_review request_user review_id reason).
Proof.
  apply hoare_final. intros s Hs. unfold reviews_views.report_review.
  unfold bind at 1. cbn [gets].
  destruct (find _ (reviews s)) as [review|]; [|exact Hs].
  destruct (reviews_models.opt_Z_eqb _ _); [exact Hs|].
  unfold bind at 1. cbn [gets]. fold (existing_report s review_id request_user).
  destruct (existing_report s review_id request_user) eqn:Hnone; [exact Hs|].
  unfold bind at 1. cbn [modify].
  match goal with
  | |- context [final (bind ?m ?k ?st)] =>
      assert (report_facts (final (bind m k st)) = report_facts st) as ->
  end.
  { apply (keeps_bind report_facts); [|intros; apply keeps_ret].
    apply (review_save_keeps_reports
             (map (fun rep => (report_key rep, ReviewReport.reason rep)))). }
  unfold report_facts. cbn [reports with_reports]. rewrite map_app. cbn [map].
  destruct Hs as [Hnodup Hlen]. split.
  - rewrite (List.map_app fst).
    cbn [map fst report_key ReviewReport.review ReviewReport.reporter].
    apply List.NoDup_app; [exact Hnodup | repeat constructor; intros [] |].
    intros key Hin [<- | []]. revert Hin. apply existing_report_none_fresh, Hnone.
  - intros fact Hin. apply in_app_or in Hin as [Hin | [<- | []]]; [apply Hlen, Hin|].
    cbn [snd ReviewReport.reason]. apply substring_length_le.
Qed.

Lemma run_op_reports_well_formed (op : Operation) :
  preserves (fun s => reports_well_formed (report_facts s)) (run_op op).
Proof.
  assert (Hkeep : forall A (m : M A), keeps report_facts m ->
            preserves (fun s => reports_well_formed (report_facts s)) m).
  { intros A m. apply keeps_preserves. intros s s' ->. auto. }
  destruct op; cbn [run_op]; try (apply preserves_discard, report_review_well_formed).
  all: apply Hkeep.
  all: unfold accounts_signals.create_contribution, places_views_submit.add_place,
      places_admin.save_model, places_admin.approve_places, places_admin.reject_places,
      places_admin.delete_queryset, places_admin.archive_places,
      places_admin.restore_places, places_admin.delete_model,
      places_forms.PlaceOpeningHoursForm_save,
      reviews_views._save_review,
      reviews_admin.uphold_reported_reviews, reviews_admin.uphold_review,
      reviews_admin.dismiss_reported_reviews,
      reviews_admin.delete_queryset, reviews_admin.archive_reviews,
      reviews_admin.restore_reviews, reviews_admin.delete_model,
      reviews_admin.mark_upheld, reviews_admin.mark_dismissed.
  all: repeat keeps_step.
  all: auto using update_pending_reports_keeps_facts, mark_reports_keeps_facts.
  all: try apply (get_or_create_keeps_reports
                    (map (fun rep => (report_key rep, ReviewReport.reason rep)))).
  all: try apply (contribution_save_keeps_reports
                    (map (fun rep => (report_key rep, ReviewReport.reason rep)))).
  all: try apply (log_keeps_reports
                    (map (fun rep => (report_key rep, ReviewReport.reason rep)))).
  all: try apply (place_save_keeps_reports
                    (map (fun rep => (report_key rep, ReviewReport.reason rep)))).
  all: try apply (review_save_keeps_reports
                    (map (fun rep => (report_key rep, ReviewReport.reason rep)))).
Qed.

(** X11: in every database the application can produce no user has two
    reports of the same review, and every stored reason has at most 255
    characters. *)
Theorem reports_unique_per_reporter_in_every_reachable_store (s : Store) :
  reachable s ->
  List.NoDup (map report_key (reports s))
  /\ forall rep, In rep (reports s) -> (String.length (ReviewReport.reason rep) <= 255)%nat.
Proof.
  intros Hreach.
  assert (reports_well_formed (report_facts s)) as [Hnodup Hlen].
  { induction Hreach as [|s op _ IH].
    - split; [constructor | intros fact []].
    - unfold apply_op.
      apply (preserves_final (fun s => reports_well_formed (report_facts s)));
        [apply run_op_reports_well_formed | exact IH]. }
  unfold report_facts in *. rewrite map_map in Hnodup. cbn [fst] in Hnodup.
  split; [exact Hnodup|]. intros rep Hin.
  apply (Hlen (report_key rep, ReviewReport.reason rep)).
  apply (in_map (fun rep => (report_key rep, ReviewReport.reason rep))), Hin.
Qed.

Lemma reports_unique_per_reporter_in_every_reachable_store_witness :
  let s := apply_ops [SubmitReview (Some 2) 7 "Great views" 5;
                      ReportReview 3 1 "Spam"; ReportReview 3 1 "Spam again";
                      ReportReview 4 1 "Rude"] empty_store in
  List.NoDup (map report_key (reports s)) /\ length (reports s) = 2%nat.
Proof.
  cbv zeta. split; [|vm_compute; reflexivity].
  apply (proj1 (reports_unique_per_reporter_in_every_reachable_store _
                  (reachable_step _ (ReportReview 4 1 "Rude")
                     (reachable_step _ (ReportReview 3 1 "Spam again")
                        (reachable_step _ (ReportReview 3 1 "Spam")
                           (reachable_step _ (SubmitReview (Some 2) 7 "Great views" 5)
                              reachable_empty)))))).
Defined.

(** ** Levels, badges and progress *)

Lemma level_badge_by_range (c : Contribution.t) :
  Contribution.level_badge_class c
  = if Contribution.points c <? 50 then "secondary"
    else if Contribution.points c <? 120 then "info"
    else if Contribution.points c <? 250 then "success"
    else "warning".
Proof.
  unfold Contribution.level_badge_class, Contribution.LEVELS, Contribution.first_level.
  cbn [Contribution.scan_levels fst snd nth Contribution.row_badge].
  destruct (Z.leb_spec 0 (Contribution.points c)), (Z.ltb_spec (Contribution.points c) 50),
    (Z.leb_spec 50 (Contribution.points c)), (Z.ltb_spec (Contribution.points c) 120),
    (Z.leb_spec 120 (Contribution.points c)), (Z.ltb_spec (Contribution.points c) 250),
    (Z.leb_spec 250 (Contribution.points c)); try reflexivity; lia.
Qed.

(** X12: level name, badge and trust agree: the badge is the one listed in
    [LEVELS] beside the level name, and a contribution is trusted exactly
    when its level is Trusted Guide or Community Champion. *)
Theorem level_badge_and_trust_agree (c : Contribution.t) :
  (exists row,
     In row Contribution.LEVELS
     /\ Contribution.level_name c = Contribution.row_name row
     /\ Contribution.level_badge_class c = Contribution.row_badge row)
  /\ (Contribution.is_trusted c = true
      <-> Contribution.level_name c = "Trusted Guide"
          \/ Contribution.level_name c = "Community Champion").
Proof.
  pose proof (level_name_by_range c) as Hname. cbv zeta in Hname.
  rewrite level_badge_by_range.
  unfold Contribution.is_trusted, Contribution.TRUSTED_THRESHOLD.
  rewrite Z.leb_le.
  destruct Hname as [[? ->] | [[? ->] | [[? ->] | [[? ->] | [? ->]]]]];
    destruct (Z.ltb_spec (Contribution.points c) 50),
      (Z.ltb_spec (Contribution.points c) 120),
      (Z.ltb_spec (Contribution.points c) 250); try lia.
  all: split;
    [first [ exists (0, "New Explorer", "secondary"); repeat split; cbn; now auto 10
           | exists (50, "Local Contributor", "info"); repeat split; cbn; now auto 10
           | exists (120, "Trusted Guide", "success"); repeat split; cbn; now auto 10
           | exists (250, "Community Champion", "warning"); repeat split; cbn;
             now auto 10 ]
    | split; [intros; try lia; auto | intros [Hn | Hn]; try discriminate Hn; lia]].
Qed.

(** X13: points to the next level. At 250 points or more there is no next
    level and nothing to gain. Below, [points_to_next_level] is positive
    and exactly that many more points give the level [next_level_name]
    announces; for points of at least 0 one point less still gives the
    present level, which differs from the next. *)
Theorem points_to_next_level_reach_the_next_level (c : Contribution.t) :
  let gap := Contribution.points_to_next_level c in
  match Contribution.next_level_name c with
  | None =>
      250 <= Contribution.points c /\ gap = 0
      /\ Contribution.level_name c = "Community Champion"
  | Some next =>
      Contribution.points c < 250 /\ 0 < gap
      /\ Contribution.level_name
           (Contribution.set_points (Contribution.points c + gap) c) = next
      /\ (0 <= Contribution.points c ->
          Contribution.level_name
            (Contribution.set_points (Contribution.points c + gap - 1) c)
          = Contribution.level_name c
          /\ Contribution.level_name c <> next)
  end.
Proof.
  cbv zeta.
  pose proof (level_name_by_range c) as Hname. cbv zeta in Hname.
  unfold Contribution.next_level_name, Contribution.points_to_next_level,
    Contribution.LEVELS.
  cbn [Contribution.next_level_row fst snd].
  destruct (Z.ltb_spec (Contribution.points c) 0);
    [|destruct (Z.ltb_spec (Contribution.points c) 50);
      [|destruct (Z.ltb_spec (Contribution.points c) 120);
        [|destruct (Z.ltb_spec (Contribution.points c) 250)]]];
    cbn [option_map Contribution.row_name fst snd].
  all: destruct Hname as [[? Hn] | [[? Hn] | [[? Hn] | [[? Hn] | [? Hn]]]]]; try lia.
  all: rewrite ?Hn.
  all: repeat match goal with
         | |- _ /\ _ => split
         | |- _ -> _ => intros ?
         end; try lia; try reflexivity; try discriminate.
  all: match goal with
       | |- Contribution.level_name ?c' = _ =>
           pose proof (level_name_by_range c') as Hc'; cbv zeta in Hc';
           cbn [Contribution.points Contribution.set_points] in Hc';
           destruct Hc' as [[? ->] | [[? ->] | [[? ->] | [[? ->] | [? ->]]]]];
           try reflexivity; lia
       end.
Qed.

Lemma progress_depends_on_points (c : Contribution.t) :
  ContributionProgress.level_progress_percent c
  = ContributionProgress.level_progress_percent
      (Contribution.mk 0 0 (Contribution.points c) 0 false)
  /\ ContributionProgress.exact_progress_percent c
     = ContributionProgress.exact_progress_percent
         (Contribution.mk 0 0 (Contribution.points c) 0 false).
Proof. split; reflexivity. Qed.

Lemma progress_below_top_checked :
  forallb
    (fun n =>
       let c := Contribution.mk 0 0 (Z.of_nat n) 0 false in
       match ContributionProgress.level_progress_percent c with
       | Some p =>
           (0 <=? p) && (p <? 100)
           && (p <=? ContributionProgress.exact_progress_percent c)
           && (ContributionProgress.exact_progress_percent c <=? p + 1)
       | None => false
       end) (seq 0 250)
  = true.
Proof. vm_compute. reflexivity. Qed.

(** X14: [level_progress_percent] never raises and returns a percentage
    between 0 and 100. It is 100 exactly when the points are negative or at
    least 250; in between it is the exact percentage of the way to the next
    threshold rounded down, or one less where the float product falls just
    short: 29 points, 58 percent of the way to 50, show 57. *)
Theorem level_progress_percent_range_and_rounding (c : Contribution.t) :
  exists p,
    ContributionProgress.level_progress_percent c = Some p
    /\ 0 <= p <= 100
    /\ (p = 100 <-> Contribution.points c < 0 \/ 250 <= Contribution.points c)
    /\ (0 <= Contribution.points c < 250 ->
        p <= ContributionProgress.exact_progress_percent c <= p + 1)
    /\ (Contribution.points c = 29 ->
        p = 57 /\ ContributionProgress.exact_progress_percent c = 58).
Proof.
  destruct (progress_depends_on_points c) as [-> ->].
  destruct (Z.ltb_spec (Contribution.points c) 0) as [Hneg|Hpos].
  - exists 100. unfold ContributionProgress.level_progress_percent, Contribution.LEVELS.
    cbn [ContributionProgress.scan_thresholds Contribution.points fst].
    destruct (Z.leb_spec 0 (Contribution.points c)); [lia|].
    cbn. repeat split; try lia; auto.
  - destruct (Z.leb_spec 250 (Contribution.points c)) as [Htop|Hbelow].
    + exists 100. unfold ContributionProgress.level_progress_percent, Contribution.LEVELS.
      cbn [ContributionProgress.scan_thresholds Contribution.points fst].
      destruct (Z.leb_spec 0 (Contribution.points c)); [|lia].
      destruct (Z.leb_spec 50 (Contribution.points c)); [|lia].
      destruct (Z.leb_spec 120 (Contribution.points c)); [|lia].
      destruct (Z.leb_spec 250 (Contribution.points c)); [|lia].
      repeat split; try lia; auto.
    + pose proof progress_below_top_checked as Hall.
      rewrite forallb_forall in Hall.
      specialize (Hall (Z.to_nat (Contribution.points c))).
      rewrite Z2Nat.id in Hall by exact Hpos. cbv zeta in Hall.
      assert (In (Z.to_nat (Contribution.points c)) (seq 0 250)) as Hin.
      { apply in_seq. lia. }
      specialize (Hall Hin).
      destruct (ContributionProgress.level_progress_percent
                  (Contribution.mk 0 0 (Contribution.points c) 0 false)) as [p|] eqn:Hp;
        [|discriminate].
      exists p. split; [reflexivity|].
      apply andb_prop in Hall as [Hall H4]. apply andb_prop in Hall as [Hall H3].
      apply andb_prop in Hall as [H1 H2].
      apply Z.leb_le in H1, H3, H4. apply Z.ltb_lt in H2.
      split; [lia|]. split; [split; intros; lia|]. split; [intros _; lia|].
      intros H29. rewrite H29 in Hp |- *. vm_compute in Hp.
      split; [congruence | reflexivity].
Qed.

Lemma level_badge_and_trust_agree_witness :
  Contribution.is_trusted (Contribution.mk 2 3 130 0 false) = true.
Proof.
  apply (proj2 (level_badge_and_trust_agree (Contribution.mk 2 3 130 0 false))).
  left. reflexivity.
Defined.

Lemma points_to_next_level_reach_the_next_level_witness :
  Contribution.level_name (Contribution.mk 1 1 (60 + 60) 0 false) = "Trusted Guide"
  /\ Contribution.level_name (Contribution.mk 1 1 (60 + 60 - 1) 0 false)
     = Contribution.level_name (Contribution.mk 1 1 60 0 false).
Proof.
  pose proof (points_to_next_level_reach_the_next_level (Contribution.mk 1 1 60 0 false))
    as H.
  cbv zeta in H.
  change (Contribution.next_level_name (Contribution.mk 1 1 60 0 false))
    with (Some "Trusted Guide") in H.
  destruct H as (_ & _ & Hreach & Hbelow).
  split; [exact Hreach|]. apply Hbelow. cbn. lia.
Defined.

Lemma level_progress_percent_range_and_rounding_witness :
  ContributionProgress.level_progress_percent (Contribution.mk 0 2 29 0 false) = Some 57.
Proof.
  destruct (level_progress_percent_range_and_rounding (Contribution.mk 0 2 29 0 false))
    as (p & Hp & _ & _ & _ & H29).
  rewrite Hp. destruct (H29 eq_refl) as [-> _]. reflexivity.
Defined.

(** ** More on nearby places *)

Section NearbyCompleteness.

Import places_views.
Local Open Scope R_scope.

Lemma asin_nonneg (y : R) : 0 <= y -> 0 <= asin y.
Proof.
  intros Hy. pose proof PI_RGT_0 as Hpi.
  destruct (Rle_dec 1 y) as [Hone | Hbelow].
  - unfold asin. destruct (Rle_dec y (-1)); [lra|].
    destruct (Rle_dec 1 y); [lra | contradiction].
  - destruct (Rle_dec 0 (asin y)) as [Hok | Hneg]; [exact Hok|]. exfalso.
    pose proof (asin_bound y) as Hbound.
    assert (sin (asin y) < 0) as Hsin by (apply sin_lt_0_var; lra).
    rewrite sin_asin in Hsin by lra. lra.
Qed.

(** X15: the haversine distance, over the reals, does not depend on the
    order of the two points, and lies between 0 and half the circumference
    of the sphere. *)
Theorem haversine_symmetric_and_bounded (lat1 lon1 lat2 lon2 : R) :
  _haversine_km lat1 lon1 lat2 lon2 = _haversine_km lat2 lon2 lat1 lon1
  /\ 0 <= _haversine_km lat1 lon1 lat2 lon2 <= 6371 * PI.
Proof.
  unfold _haversine_km. cbv zeta. split.
  - replace ((radians lat1 - radians lat2) / 2)
      with (- ((radians lat2 - radians lat1) / 2)) by lra.
    replace ((radians lon1 - radians lon2) / 2)
      with (- ((radians lon2 - radians lon1) / 2)) by lra.
    rewrite !sin_neg. do 4 f_equal. ring.
  - match goal with
    | |- context [asin ?y] =>
        pose proof (asin_bound y) as Hbound;
        pose proof (asin_nonneg y (sqrt_pos _)) as Hpos
    end.
    lra.
Qed.

Lemma within_radius_complete place_lat place_lon radius_km candidates candidate :
  In candidate candidates ->
  distance_to place_lat place_lon candidate <= IZR radius_km ->
  In (candidate, round1 (distance_to place_lat place_lon candidate))
     (within_radius place_lat place_lon radius_km candidates).
Proof.
  intros Hin Hle. induction candidates as [|c rest IH]; [destruct Hin|].
  cbn [within_radius].
  destruct Hin as [-> | Hin].
  - apply Rleb_true in Hle. rewrite Hle. left. reflexivity.
  - destruct (Rleb _ _); [right|]; apply IH, Hin.
Qed.

Lemma insert_by_distance_length item sorted :
  length (insert_by_distance item sorted) = S (length sorted).
Proof.
  induction sorted as [|y rest IH]; cbn [insert_by_distance]; [reflexivity|].
  destruct (Rleb _ _); cbn [length]; [reflexivity|]. rewrite IH. reflexivity.
Qed.

Lemma sort_by_distance_length items : length (sort_by_distance items) = length items.
Proof.
  unfold sort_by_distance. induction items as [|y rest IH]; cbn [fold_right length];
    [reflexivity|].
  rewrite insert_by_distance_length, IH. reflexivity.
Qed.

(** X16: for a place with both coordinates and a limit of at least 0, the
    number of nearby places returned is the number of candidates within the
    radius, capped at the limit; when no more candidates than the limit lie
    within the radius, every stored place that is approved, not archived,
    has both coordinates, has another primary key and lies within the
    radius is returned. A place without a coordinate has no nearby places. *)
Theorem nearby_places_complete_up_to_limit
    (s : Store) (place : Place.t) (radius_km limit : Z) :
  (forall latitude longitude,
     Place.latitude place = Some latitude ->
     Place.longitude place = Some longitude ->
     (0 <= limit)%Z ->
     let place_lat := float_of_decimal latitude in
     let place_lon := float_of_decimal longitude in
     let in_range :=
       within_radius place_lat place_lon radius_km (nearby_candidates s place) in
     length (_get_nearby_places s place radius_km limit)
     = Nat.min (Z.to_nat limit) (length in_range)
     /\ ((length in_range <= Z.to_nat limit)%nat ->
         forall candidate,
           In candidate (places s) ->
           Place.is_approved candidate = true ->
           Place.is_archived candidate = false ->
           has_value (Place.latitude candidate) = true ->
           has_value (Place.longitude candidate) = true ->
           same_pk (Place.pk candidate) (Place.pk place) = false ->
           distance_to place_lat place_lon candidate <= IZR radius_km ->
           In (candidate, round1 (distance_to place_lat place_lon candidate))
              (_get_nearby_places s place radius_km limit)))
  /\ (Place.latitude place = None \/ Place.longitude place = None ->
      _get_nearby_places s place radius_km limit = []).
Proof.
  split.
  - intros latitude longitude Hlat Hlon Hlimit. cbv zeta.
    unfold _get_nearby_places. rewrite Hlat, Hlon. unfold slice_to.
    destruct (Z.leb_spec 0 limit) as [_|]; [|lia].
    split.
    + rewrite length_firstn, sort_by_distance_length. reflexivity.
    + intros Hfew candidate Hin Happroved Harchived Hla Hlo Hpk Hnear.
      rewrite firstn_all2 by (rewrite sort_by_distance_length; exact Hfew).
      apply sort_by_distance_in. apply within_radius_complete; [|exact Hnear].
      unfold nearby_candidates. apply filter_In. split; [exact Hin|].
      rewrite Happroved, Harchived, Hla, Hlo, Hpk. reflexivity.
  - unfold _get_nearby_places.
    intros [-> | ->]; [reflexivity | destruct (Place.latitude place); reflexivity].
Qed.

Lemma nearby_places_complete_up_to_limit_witness :
  let here :=
    Place.mk (Some 1%Z) Place.BeachPlace "North Cove" "" None None (Some 50200000%Z)
      (Some (-5200000)%Z) (Some 2%Z) None true false None Place.APPROVED None in
  let twin :=
    Place.mk (Some 2%Z) Place.FoodPlace "Cove Cafe" "" None None (Some 50200000%Z)
      (Some (-5200000)%Z) (Some 3%Z) None true false None Place.APPROVED None in
  In (twin, round1 (distance_to (float_of_decimal 50200000%Z) (float_of_decimal (-5200000)%Z)
                      twin))
     (_get_nearby_places (with_places [here; twin] empty_store) here
        NEARBY_RADIUS_KM NEARBY_LIMIT).
Proof.
  cbv zeta.
  pose proof (proj1 (nearby_places_complete_up_to_limit
                       (with_places
                          [Place.mk (Some 1%Z) Place.BeachPlace "North Cove" "" None None
                             (Some 50200000%Z) (Some (-5200000)%Z) (Some 2%Z) None true false
                             None Place.APPROVED None;
                           Place.mk (Some 2%Z) Place.FoodPlace "Cove Cafe" "" None None
                             (Some 50200000%Z) (Some (-5200000)%Z) (Some 3%Z) None true false
                             None Place.APPROVED None] empty_store)
                       (Place.mk (Some 1%Z) Place.BeachPlace "North Cove" "" None None
                          (Some 50200000%Z) (Some (-5200000)%Z) (Some 2%Z) None true false
                          None Place.APPROVED None)
                       NEARBY_RADIUS_KM NEARBY_LIMIT)
                50200000%Z (-5200000)%Z eq_refl eq_refl) as H.
  cbv zeta in H. destruct H as [_ Hall]; [unfold NEARBY_LIMIT; lia|].
  apply Hall; try reflexivity.
  - cbn [nearby_candidates places with_places List.filter Place.is_approved
         Place.is_archived Place.latitude Place.longitude Place.pk has_value same_pk
         negb andb Z.eqb Pos.eqb within_radius].
    destruct (Rleb _ _); cbn [length]; unfold NEARBY_LIMIT; lia.
  - right. left. reflexivity.
  - unfold distance_to. cbn [Place.latitude Place.longitude coordinate].
    rewrite haversine_same_point. unfold NEARBY_RADIUS_KM. lra.
Defined.

End NearbyCompleteness.

(** ** The session CAPTCHA and the review form *)

Section ReviewPosts.

Import reviews_captcha reviews_views_post.

Variable ratio : string -> string -> float.

Lemma captcha_answer_is_clean (n : Z) :
  3 <= n <= 17 ->
  reviews_spam.strip (str n) = str n /\ reviews_spam.is_empty (str n) = false.
Proof.
  intros Hn.
  assert (n = 3 \/ n = 4 \/ n = 5 \/ n = 6 \/ n = 7 \/ n = 8 \/ n = 9 \/ n = 10
          \/ n = 11 \/ n = 12 \/ n = 13 \/ n = 14 \/ n = 15 \/ n = 16 \/ n = 17) as Hcases
    by lia.
  repeat (destruct Hcases as [-> | Hcases]; [split; reflexivity|]).
  subst n. split; reflexivity.
Qed.

(** X17: the life of a challenge. Once a CAPTCHA is required, the next
    call makes the question from the two draws and stores it with the
    answer; until it is answered, later calls return the same question
    without drawing again; a submission other than the sum, up to
    surrounding whitespace, fails and leaves the session as it is; the sum
    passes, and afterwards no CAPTCHA is required. *)
Theorem captcha_challenge_life_cycle (session : Session.t) (a b : Z) :
  2 <= a <= 9 -> 1 <= b <= 8 ->
  exists question pending cleared,
    get_or_create_captcha (a, b) (require_captcha session) = ((true, question), pending)
    /\ question = ("What is " ++ str a ++ " + " ++ str b ++ "?")%string
    /\ (forall randint, get_or_create_captcha randint pending = ((true, question), pending))
    /\ (forall submitted,
          reviews_spam.strip submitted <> str (a + b) ->
          validate_captcha pending submitted = (false, pending))
    /\ (forall submitted,
          reviews_spam.strip submitted = str (a + b) ->
          validate_captcha pending submitted = (true, cleared))
    /\ (forall randint, get_or_create_captcha randint cleared = ((false, ""), cleared))
    /\ Session.guest_reviewed_places cleared = Session.guest_reviewed_places session.
Proof.
  intros Ha Hb.
  destruct (captcha_answer_is_clean (a + b)) as [Hstrip Hfull]; [lia|].
  exists ("What is " ++ str a ++ " + " ++ str b ++ "?")%string,
    (Session.mk (Some true) (Some (str (a + b)))
       (Some ("What is " ++ str a ++ " + " ++ str b ++ "?")%string)
       (Session.guest_reviewed_places session)),
    (Session.mk (Some false) None None (Session.guest_reviewed_places session)).
  split; [reflexivity|]. split; [reflexivity|].
  split; [intros randint; reflexivity|].
  split; [|split; [|split; [intros randint; reflexivity | reflexivity]]].
  - intros submitted Hwrong. unfold validate_captcha.
    cbn [Session.review_captcha_answer Session.set_review_captcha_question
         Session.set_review_captcha_answer].
    rewrite Hstrip, Hfull. cbn [negb andb].
    destruct (String.eqb_spec (reviews_spam.strip submitted) (str (a + b)));
      [contradiction | reflexivity].
  - intros submitted Hright. unfold validate_captcha.
    cbn [Session.review_captcha_answer Session.set_review_captcha_question
         Session.set_review_captcha_answer].
    rewrite Hstrip, Hfull, Hright, String.eqb_refl. reflexivity.
Qed.

Lemma captcha_challenge_life_cycle_witness :
  exists pending,
    get_or_create_captcha (7, 5) (require_captcha Session.empty)
    = ((true, "What is 7 + 5?"), pending)
    /\ validate_captcha pending "13" = (false, pending)
    /\ fst (validate_captcha pending " 12 ") = true.
Proof.
  destruct (captcha_challenge_life_cycle Session.empty 7 5 ltac:(lia) ltac:(lia))
    as (question & pending & cleared & Hmake & -> & _ & Hwrong & Hright & _).
  exists pending. split; [exact Hmake|]. split.
  - apply Hwrong. vm_compute. discriminate.
  - rewrite (Hright " 12 "); reflexivity.
Defined.

Lemma get_or_create_captcha_guest_list randint session :
  Session.guest_reviewed_places (snd (get_or_create_captcha randint session))
  = Session.guest_reviewed_places session.
Proof.
  unfold get_or_create_captcha. destruct randint as [a b].
  destruct (Session.review_captcha_required session) as [[|]|]; try reflexivity.
  destruct (Session.review_captcha_question session) as [[|c rest]|]; reflexivity.
Qed.

Lemma validate_captcha_guest_list session submitted :
  Session.guest_reviewed_places (snd (validate_captcha session submitted))
  = Session.guest_reviewed_places session.
Proof. unfold validate_captcha. destruct (_ && _); reflexivity. Qed.

Lemma contains_app_self (place_id : Z) (l : list Z) :
  contains place_id (l ++ [place_id]) = true.
Proof.
  unfold contains. rewrite existsb_app. cbn. rewrite Z.eqb_refl.
  rewrite orb_true_r. reflexivity.
Qed.

(** What [post] does once the place is found, the rate limit is not hit,
    the form is valid and the CAPTCHA, if any, is answered. *)
Lemma post_unfold limited randint request_user session place_id form s :
  post ratio limited randint request_user session place_id form s
  = match find (fun p => Place.has_pk place_id p && negb (Place.is_archived p))
            (places s) with
    | None => Returned (NotFound, session) s
    | Some _ =>
        if limited then Returned (RateLimited, require_captcha session) s
        else
          let asked := get_or_create_captcha randint session in
          match form with
          | None => Returned (FormErrors, snd asked) s
          | Some form =>
              let checked :=
                if fst (fst asked)
                then validate_captcha (snd asked) (captcha_answer form)
                else (true, snd asked) in
              if fst (fst asked) && negb (fst checked)
              then Returned (CaptchaFailed, snd checked) s
              else
                (let* restriction_response :=
                   _enforce_review_restrictions ratio request_user (snd checked) place_id
                     (text form) in
                 match restriction_response with
                 | Some why => ret (Refused why, snd checked)
                 | None => _save_review request_user (snd checked) place_id form
                 end) s
          end
    end.
Proof.
  unfold post. unfold bind at 1. cbn [gets].
  destruct (find _ (places s)); [|reflexivity].
  destruct limited; [reflexivity|]. cbv zeta.
  destruct (get_or_create_captcha randint session) as [[required question] asked].
  destruct form as [form|]; [|reflexivity]. cbn [fst snd].
  destruct required; cbn [andb].
  - destruct (validate_captcha asked (captcha_answer form)) as [valid checked].
    cbn [fst snd]. destruct valid; reflexivity.
  - reflexivity.
Qed.

(** The session a request reaches the restriction checks with: only the
    CAPTCHA keys may have changed. *)
Lemma checked_session_guest_list randint session (form : cleaned_data) :
  Session.guest_reviewed_places
    (snd (if fst (fst (get_or_create_captcha randint session))
          then validate_captcha (snd (get_or_create_captcha randint session))
                 (captcha_answer form)
          else (true, snd (get_or_create_captcha randint session))))
  = Session.guest_reviewed_places session.
Proof.
  destruct (fst (fst _)); cbn [snd];
    rewrite ?validate_captcha_guest_list; apply get_or_create_captcha_guest_list.
Qed.

Lemma guest_refused_at_limit session place_id review_text s :
  contains place_id (guest_list session) = true ->
  _enforce_review_restrictions ratio None session place_id review_text s
  = Returned (Some GuestLimit) s.
Proof.
  intros Hin. unfold _enforce_review_restrictions. unfold bind at 1.
  rewrite Hin. reflexivity.
Qed.

(** X18: a guest reviews a place once per session. When a guest's post is
    answered with [Submitted], the place is on the session's list; and with
    the place on that list, no later post for the place from this session is
    answered with [Submitted] or writes to the database, whatever the form,
    the CAPTCHA and the rate limiter say; the place stays on the list. *)
Theorem guest_reviews_a_place_once_per_session
    limited randint session place_id form s session' s' :
  post ratio limited randint None session place_id form s
  = Returned (Submitted, session') s' ->
  contains place_id (guest_list session') = true
  /\ forall limited' randint' form' s2,
       exists answer session2,
         post ratio limited' randint' None session' place_id form' s2
         = Returned (answer, session2) s2
         /\ answer <> Submitted
         /\ contains place_id (guest_list session2) = true.
Proof.
  intros Hpost.
  assert (Hlisted : contains place_id (guest_list session') = true).
  { rewrite post_unfold in Hpost.
    destruct (find _ (places s)); [|discriminate].
    destruct limited; [discriminate|]. cbv zeta in Hpost.
    destruct form as [form|]; [|discriminate].
    destruct (_ && _); [discriminate|].
    unfold bind at 1 in Hpost.
    destruct (_enforce_review_restrictions ratio None _ place_id (text form) s)
      as [[why|] s1 | e s1]; try discriminate.
    unfold _save_review, bind in Hpost.
    destruct (reviews_views._save_review None place_id _ s1) as [[|] s2 | e s2];
      try discriminate.
    cbn [negb] in Hpost.
    destruct (contains place_id (guest_list _)) eqn:Hin; cbn [negb ret] in Hpost;
      injection Hpost as <- _.
    - exact Hin.
    - unfold guest_list at 1. cbn [Session.guest_reviewed_places
                                     Session.set_guest_reviewed_places].
      apply contains_app_self. }
  split; [exact Hlisted|].
  intros limited' randint' form' s2. rewrite post_unfold.
  destruct (find _ (places s2)).
  - destruct limited'.
    { eexists _, _. split; [reflexivity|]. split; [discriminate|]. exact Hlisted. }
    cbv zeta.
    assert (Hasked : contains place_id
                       (guest_list (snd (get_or_create_captcha randint' session')))
                     = true).
    { unfold guest_list. rewrite get_or_create_captcha_guest_list. exact Hlisted. }
    destruct form' as [form'|];
      [|eexists _, _; split; [reflexivity|]; split; [discriminate | exact Hasked]].
    assert (Hchecked :
              contains place_id
                (guest_list
                   (snd (if fst (fst (get_or_create_captcha randint' session'))
                         then validate_captcha
                                (snd (get_or_create_captcha randint' session'))
                                (captcha_answer form')
                         else (true, snd (get_or_create_captcha randint' session')))))
              = true).
    { unfold guest_list. rewrite checked_session_guest_list. exact Hlisted. }
    destruct (_ && _).
    { eexists _, _. split; [reflexivity|]. split; [discriminate | exact Hchecked]. }
    unfold bind. rewrite (guest_refused_at_limit _ _ _ _ Hchecked).
    eexists _, _. split; [reflexivity|]. split; [discriminate | exact Hchecked].
  - eexists _, _. split; [reflexivity|]. split; [discriminate | exact Hlisted].
Qed.

(** X19: a restricted user cannot post a review: while the user's
    contribution has [review_restriction_active] set, every post by the
    user is answered without writing to the database, and never with
    [Submitted]. *)
Theorem restricted_user_cannot_post
    limited randint (u : user_id) session place_id form s :
  restricted s u ->
  exists answer session',
    post ratio limited randint (Some u) session place_id form s
    = Returned (answer, session') s
    /\ answer <> Submitted /\ answer <> DuplicateOnSave.
Proof.
  intros (c & Hc & Hflag). rewrite post_unfold.
  destruct (find _ (places s));
    [|eexists _, _; split; [reflexivity|]; split; discriminate].
  destruct limited; [eexists _, _; split; [reflexivity|]; split; discriminate|].
  cbv zeta.
  destruct form as [form|]; [|eexists _, _; split; [reflexivity|]; split; discriminate].
  destruct (_ && _); [eexists _, _; split; [reflexivity|]; split; discriminate|].
  unfold bind at 1. unfold _enforce_review_restrictions. unfold bind at 1. unfold bind at 1.
  unfold ContributionObjects.get_or_create. rewrite Hc, Hflag.
  eexists _, _. split; [reflexivity|]. split; discriminate.
Qed.

Lemma captcha_challenge_cycle_steps (session : Session.t) (a b : Z) :
  2 <= a <= 9 -> 1 <= b <= 8 ->
  let question := ("What is " ++ str a ++ " + " ++ str b ++ "?")%string in
  let pending :=
    Session.mk (Some true) (Some (str (a + b))) (Some question)
      (Session.guest_reviewed_places session) in
  get_or_create_captcha (a, b) (require_captcha session) = ((true, question), pending)
  /\ (forall randint, get_or_create_captcha randint pending = ((true, question), pending))
  /\ (forall submitted,
        reviews_spam.strip submitted <> str (a + b) ->
        validate_captcha pending submitted = (false, pending)).
Proof.
  intros Ha Hb. cbv zeta.
  destruct (captcha_answer_is_clean (a + b)) as [Hstrip Hfull]; [lia|].
  split; [reflexivity|]. split; [intros; reflexivity|].
  intros submitted Hwrong. unfold validate_captcha.
  cbn [Session.review_captcha_answer]. rewrite Hstrip, Hfull. cbn [negb andb].
  destruct (String.eqb_spec (reviews_spam.strip submitted) (str (a + b)));
    [contradiction | reflexivity].
Qed.

(** X20: the rate limiter and the CAPTCHA. A post that hits the rate limit
    writes nothing and makes the session require a CAPTCHA; the next post
    with a valid form then gets a question made from the two draws, and a
    submission other than their sum is answered with [CaptchaFailed], writes
    nothing to the database and keeps the question for the next try. *)
Theorem rate_limited_post_demands_captcha
    randint request_user session place_id form (place : Place.t) s :
  find (fun p => Place.has_pk place_id p && negb (Place.is_archived p)) (places s)
  = Some place ->
  post ratio true randint request_user session place_id form s
  = Returned (RateLimited, require_captcha session) s
  /\ forall a b retry,
       2 <= a <= 9 -> 1 <= b <= 8 ->
       reviews_spam.strip (captcha_answer retry) <> str (a + b) ->
       exists pending,
         post ratio false (a, b) request_user (require_captcha session) place_id
           (Some retry) s
         = Returned (CaptchaFailed, pending) s
         /\ forall randint',
              get_or_create_captcha randint' pending
              = ((true, ("What is " ++ str a ++ " + " ++ str b ++ "?")%string), pending).
Proof.
  intros Hplace. split; [rewrite post_unfold, Hplace; reflexivity|].
  intros a b retry Ha Hb Hwrong.
  destruct (captcha_challenge_cycle_steps session a b Ha Hb)
    as (Hmake & Hcached & Hfail).
  rewrite post_unfold, Hplace. cbv zeta. rewrite Hmake. cbn [fst snd].
  rewrite (Hfail _ Hwrong). cbn [fst snd negb andb].
  eexists. split; [reflexivity | exact Hcached].
Qed.

Lemma existsb_live_reviews_agree (u : user_id) (place_pk : Z) (rows : list Review.t) :
  (forall r, In r rows -> Review.place r = place_pk -> Review.user r = Some u ->
             Review.is_archived r = false) ->
  existsb (fun r => (Review.place r =? place_pk)
                    && reviews_models.opt_Z_eqb (Review.user r) (Some u)) rows
  = existsb (fun r => (Review.place r =? place_pk)
                      && reviews_models.opt_Z_eqb (Review.user r) (Some u)
                      && negb (Review.is_archived r)) rows.
Proof.
  intros Hlive. apply existsb_ext_in. intros r Hin.
  destruct (Z.eqb_spec (Review.place r) place_pk) as [Hplace|]; [|reflexivity].
  destruct (reviews_models.opt_Z_eqb (Review.user r) (Some u)) eqn:Huser; [|reflexivity].
  rewrite (Hlive r Hin Hplace); [reflexivity|].
  unfold reviews_models.opt_Z_eqb in Huser.
  destruct (Review.user r) as [v|]; [|discriminate].
  apply Z.eqb_eq in Huser. congruence.
Qed.

(** X21: the restriction checks of the two review views. The check of the
    place detail page and that of the review page give the same answer and
    leave the same database whenever the signed-in user has no archived
    review of the place, and always for a guest. They differ for an
    unrestricted user whose reviews of the place are all archived, at least
    one: the detail page answers [AlreadyReviewed], the review page does
    not. *)
Theorem restriction_checks_differ_on_archived_reviews
    (request_user : option user_id) session place_pk review_text s :
  ((forall u r, request_user = Some u -> In r (reviews s) ->
                Review.place r = place_pk -> Review.user r = Some u ->
                Review.is_archived r = false) ->
   places_views_reviews._enforce_review_restrictions ratio request_user session place_pk
     review_text s
   = _enforce_review_restrictions ratio request_user session place_pk review_text s)
  /\ (forall u archived,
        request_user = Some u ->
        Contribution.review_restriction_active (contribution_of s u) = false ->
        In archived (reviews s) ->
        Review.place archived = place_pk -> Review.user archived = Some u ->
        has_live_review s u place_pk = false ->
        (exists s',
           places_views_reviews._enforce_review_restrictions ratio request_user session
             place_pk review_text s = Returned (Some AlreadyReviewed) s')
        /\ (exists answer s',
              _enforce_review_restrictions ratio request_user session place_pk
                review_text s = Returned answer s'
              /\ answer <> Some AlreadyReviewed)).
Proof.
  split.
  - intros Hlive.
    unfold places_views_reviews._enforce_review_restrictions, _enforce_review_restrictions.
    destruct request_user as [u|]; [|reflexivity].
    unfold bind, gets, ret, ContributionObjects.get_or_create.
    assert (Hsame := existsb_live_reviews_agree u place_pk (reviews s)
                       (fun r => Hlive u r eq_refl)).
    destruct (contributions s !! u) as [c|].
    + destruct (Contribution.review_restriction_active c); [reflexivity|].
      rewrite Hsame. reflexivity.
    + cbn [Contribution.review_restriction_active Contribution.default reviews
           with_contributions].
      rewrite Hsame. reflexivity.
  - intros u archived -> Hfree Hin Hplace Huser Hnone.
    unfold places_views_reviews._enforce_review_restrictions, _enforce_review_restrictions.
    unfold bind, gets, ret, ContributionObjects.get_or_create.
    unfold contribution_of in Hfree.
    assert (Hfound :
              existsb (fun r => (Review.place r =? place_pk)
                                && reviews_models.opt_Z_eqb (Review.user r) (Some u))
                (reviews s) = true).
    { apply existsb_exists. exists archived. split; [exact Hin|].
      rewrite Hplace, Huser, Z.eqb_refl. cbn. apply Z.eqb_refl. }
    assert (Hlive :
              existsb (fun r => (Review.place r =? place_pk)
                                && reviews_models.opt_Z_eqb (Review.user r) (Some u)
                                && negb (Review.is_archived r)) (reviews s) = false).
    { rewrite <- Hnone. unfold has_live_review. apply existsb_ext_in. intros r _.
      destruct (negb _), (_ =? _), (reviews_models.opt_Z_eqb _ _); reflexivity. }
    destruct (contributions s !! u) as [c|] eqn:Hc; simpl in Hfree.
    + rewrite Hfree, Hfound, Hlive.
      split; [eexists; reflexivity|].
      destruct (reviews_spam.is_duplicate_or_similar_review ratio s place_pk review_text);
        eexists _, _; (split; [reflexivity | discriminate]).
    + cbn [Contribution.review_restriction_active Contribution.default reviews
           with_contributions].
      rewrite Hfound, Hlive.
      split; [eexists; reflexivity|].
      destruct (reviews_spam.is_duplicate_or_similar_review ratio _ place_pk review_text);
        eexists _, _; (split; [reflexivity | discriminate]).
Qed.

End ReviewPosts.

Lemma guest_reviews_a_place_once_per_session_witness :
  let cove :=
    Place.mk (Some 1) Place.BeachPlace "North Cove" "" None None (Some 50200000)
      (Some (-5200000)) (Some 2) None true false None Place.APPROVED None in
  let s := with_places [cove] empty_store in
  exists session' s',
    reviews_views_post.post (fun _ _ => 0%float) false (2, 1) None Session.empty 1
      (Some (reviews_views_post.mk_cleaned "Lovely quiet beach" 5 "")) s
    = Returned (reviews_views_post.Submitted, session') s'
    /\ exists answer session2,
         reviews_views_post.post (fun _ _ => 0%float) false (3, 3) None session' 1
           (Some (reviews_views_post.mk_cleaned "Came back, still lovely" 4 "")) s'
         = Returned (answer, session2) s'
         /\ answer <> reviews_views_post.Submitted.
Proof.
  cbv zeta.
  destruct (reviews_views_post.post (fun _ _ => 0%float) false (2, 1) None Session.empty 1
              (Some (reviews_views_post.mk_cleaned "Lovely quiet beach" 5 ""))
              (with_places
                 [Place.mk (Some 1) Place.BeachPlace "North Cove" "" None None
                    (Some 50200000) (Some (-5200000)) (Some 2) None true false None
                    Place.APPROVED None] empty_store))
    as [[answer session'] s' | e s'] eqn:Hpost.
  - pose proof Hpost as Hrun. vm_compute in Hrun.
    injection Hrun as Hanswer _ _. subst answer.
    exists session', s'. split; [reflexivity|].
    destruct (guest_reviews_a_place_once_per_session _ _ _ _ _ _ _ _ _ Hpost)
      as [_ Hlater].
    destruct (Hlater false (3, 3)
                (Some (reviews_views_post.mk_cleaned "Came back, still lovely" 4 "")) s')
      as (answer & session2 & Hsecond & Hnot & _).
    exists answer, session2. split; [exact Hsecond | exact Hnot].
  - vm_compute in Hpost. discriminate Hpost.
Defined.

Lemma restricted_user_cannot_post_witness :
  let cove :=
    Place.mk (Some 1) Place.BeachPlace "North Cove" "" None None (Some 50200000)
      (Some (-5200000)) (Some 2) None true false None Place.APPROVED None in
  let s :=
    with_contributions (<[3 := Contribution.mk 0 4 10 3 true]> ∅)
      (with_places [cove] empty_store) in
  exists answer session',
    reviews_views_post.post (fun _ _ => 0%float) false (2, 1) (Some 3) Session.empty 1
      (Some (reviews_views_post.mk_cleaned "Lovely quiet beach" 5 "")) s
    = Returned (answer, session') s
    /\ answer <> reviews_views_post.Submitted.
Proof.
  cbv zeta.
  destruct (restricted_user_cannot_post (fun _ _ => 0%float) false (2, 1) 3 Session.empty 1
              (Some (reviews_views_post.mk_cleaned "Lovely quiet beach" 5 ""))
              (with_contributions (<[3 := Contribution.mk 0 4 10 3 true]> ∅)
                 (with_places
                    [Place.mk (Some 1) Place.BeachPlace "North Cove" "" None None
                       (Some 50200000) (Some (-5200000)) (Some 2) None true false None
                       Place.APPROVED None] empty_store)))
    as (answer & session' & Hpost & Hnot & _).
  - exists (Contribution.mk 0 4 10 3 true). split; reflexivity.
  - exists answer, session'. split; [exact Hpost | exact Hnot].
Defined.

Lemma rate_limited_post_demands_captcha_witness :
  let cove :=
    Place.mk (Some 1) Place.BeachPlace "North Cove" "" None None (Some 50200000)
      (Some (-5200000)) (Some 2) None true false None Place.APPROVED None in
  let s := with_places [cove] empty_store in
  exists pending,
    reviews_views_post.post (fun _ _ => 0%float) false (7, 5) (Some 3)
      (reviews_captcha.require_captcha Session.empty) 1
      (Some (reviews_views_post.mk_cleaned "Lovely quiet beach" 5 "13")) s
    = Returned (reviews_views_post.CaptchaFailed, pending) s.
Proof.
  cbv zeta.
  destruct (rate_limited_post_demands_captcha (fun _ _ => 0%float) (7, 5) (Some 3)
              Session.empty 1 None
              (Place.mk (Some 1) Place.BeachPlace "North Cove" "" None None
                 (Some 50200000) (Some (-5200000)) (Some 2) None true false None
                 Place.APPROVED None)
              (with_places
                 [Place.mk (Some 1) Place.BeachPlace "North Cove" "" None None
                    (Some 50200000) (Some (-5200000)) (Some 2) None true false None
                    Place.APPROVED None] empty_store) eq_refl) as [_ Hretry].
  destruct (Hretry 7 5 (reviews_views_post.mk_cleaned "Lovely quiet beach" 5 "13"))
    as (pending & Hpost & _); [lia | lia | vm_compute; discriminate |].
  exists pending. exact Hpost.
Defined.

Lemma restriction_checks_differ_on_archived_reviews_witness :
  let old :=
    Review.mk (Some 1) 7 (Some 2) "Great views" 5 false false "" false true (Some 20)
      (Some 9) 10 in
  let s := with_reviews [old] empty_store in
  (exists s',
     places_views_reviews._enforce_review_restrictions (fun _ _ => 0%float) (Some 2)
       Session.empty 7 "A second visit" s
     = Returned (Some reviews_views_post.AlreadyReviewed) s')
  /\ reviews_views_post._enforce_review_restrictions (fun _ _ => 0%float) (Some 2)
       Session.empty 7 "A second visit" s
     = Returned None
         (with_contributions (<[2 := Contribution.default]> ∅) s).
Proof.
  cbv zeta.
  destruct (proj2 (restriction_checks_differ_on_archived_reviews (fun _ _ => 0%float)
                     (Some 2) Session.empty 7 "A second visit"
                     (with_reviews
                        [Review.mk (Some 1) 7 (Some 2) "Great views" 5 false false ""
                           false true (Some 20) (Some 9) 10] empty_store))
              2 (Review.mk (Some 1) 7 (Some 2) "Great views" 5 false false "" false true
                   (Some 20) (Some 9) 10)
              eq_refl eq_refl (or_introl eq_refl) eq_refl eq_refl eq_refl)
    as [Hdetail _].
  split; [exact Hdetail|]. vm_compute. reflexivity.
Defined.

(** ** Opening days and hours *)

Section OpeningDays.

Import places_hours places_forms_hours.

Lemma day_value_cases (d : string) :
  is_day_value d ->
  d = "mon" \/ d = "tue" \/ d = "wed" \/ d = "thu" \/ d = "fri" \/ d = "sat" \/ d = "sun".
Proof. unfold is_day_value. cbn. intuition. Qed.

Lemma day_value_facts (d : string) :
  is_day_value d ->
  reviews_spam.lower d = d /\ remove_spaces d = d
  /\ contains_char "," d = false /\ contains_char "-" d = false
  /\ reviews_spam.is_empty d = false
  /\ _parse_day_token d = get token_to_day d
  /\ exists c rest, d = String c rest /\ c <> "d"%char /\ c <> "e"%char
                    /\ String.length d = 3%nat.
Proof.
  intros Hd. apply day_value_cases in Hd.
  destruct Hd as [-> | [-> | [-> | [-> | [-> | [-> | ->]]]]]];
    repeat (split; [reflexivity|]); eexists _, _;
    (split; [reflexivity|]); repeat split; discriminate.
Qed.

Lemma lower_app (a b : string) :
  reviews_spam.lower (a ++ b) = (reviews_spam.lower a ++ reviews_spam.lower b)%string.
Proof.
  induction a as [|c a IH]; [reflexivity|].
  change (String (reviews_spam.lower_char c) (reviews_spam.lower (a ++ b))
          = String (reviews_spam.lower_char c)
              (reviews_spam.lower a ++ reviews_spam.lower b)%string).
  rewrite IH. reflexivity.
Qed.

Lemma remove_spaces_app (a b : string) :
  remove_spaces (a ++ b) = (remove_spaces a ++ remove_spaces b)%string.
Proof.
  induction a as [|c a IH]; [reflexivity|].
  change (remove_spaces (String c a ++ b))
    with (if Ascii.eqb c " " then remove_spaces (a ++ b)
          else String c (remove_spaces (a ++ b))).
  change (remove_spaces (String c a))
    with (if Ascii.eqb c " " then remove_spaces a else String c (remove_spaces a)).
  rewrite IH. destruct (Ascii.eqb c " "); reflexivity.
Qed.

Lemma split_free (sep : ascii) (t : string) :
  contains_char sep t = false -> split sep t = [t].
Proof.
  induction t as [|c t IH]; cbn [split contains_char]; [reflexivity|].
  destruct (Ascii.eqb c sep); cbn [orb]; [discriminate|].
  intros H. rewrite (IH H). reflexivity.
Qed.

Lemma split_app_free (sep : ascii) (t rest : string) :
  contains_char sep t = false ->
  split sep (t ++ String sep rest) = t :: split sep rest.
Proof.
  induction t as [|c t IH].
  - intros _. change (split sep (String sep rest)
                      = EmptyString :: split sep rest).
    cbn [split]. rewrite Ascii.eqb_refl. reflexivity.
  - change (split sep (String c t ++ String sep rest))
      with (if Ascii.eqb c sep then EmptyString :: split sep (t ++ String sep rest)
            else match split sep (t ++ String sep rest) with
                 | head :: tail => String c head :: tail
                 | [] => [String c EmptyString]
                 end).
    cbn [contains_char]. destruct (Ascii.eqb c sep); cbn [orb]; [discriminate|].
    intros H. rewrite (IH H). reflexivity.
Qed.

Lemma join_cons (sep d : string) (rest : list string) :
  rest <> [] -> join sep (d :: rest) = (d ++ sep ++ join sep rest)%string.
Proof. destruct rest; [congruence | reflexivity]. Qed.

Lemma joined_days_are_raw (days : list string) :
  (forall d, In d days -> is_day_value d) ->
  remove_spaces (reviews_spam.lower (join "," days)) = join "," days.
Proof.
  induction days as [|d [|d2 rest] IH]; intros Hdays.
  - reflexivity.
  - destruct (day_value_facts d (Hdays d (or_introl eq_refl))) as (Hl & Hr & _).
    cbn [join]. rewrite Hl, Hr. reflexivity.
  - destruct (day_value_facts d (Hdays d (or_introl eq_refl))) as (Hl & Hr & _).
    rewrite join_cons by discriminate.
    rewrite !lower_app, !remove_spaces_app, Hl, Hr, IH; [reflexivity|].
    intros x Hx. apply Hdays. right. exact Hx.
Qed.

Lemma split_joined_days (days : list string) :
  days <> [] -> (forall d, In d days -> is_day_value d) ->
  split "," (join "," days) = days.
Proof.
  induction days as [|d [|d2 rest] IH]; intros Hne Hdays; [congruence | |].
  - destruct (day_value_facts d (Hdays d (or_introl eq_refl))) as (_ & _ & Hc & _).
    cbn [join]. apply split_free, Hc.
  - destruct (day_value_facts d (Hdays d (or_introl eq_refl))) as (_ & _ & Hc & _).
    rewrite join_cons by discriminate.
    change ("," ++ join "," (d2 :: rest))%string with (String "," (join "," (d2 :: rest))).
    rewrite split_app_free by exact Hc. rewrite IH; [reflexivity | discriminate |].
    intros x Hx. apply Hdays. right. exact Hx.
Qed.

Lemma joined_days_not_a_keyword (days : list string) :
  days <> [] -> (forall d, In d days -> is_day_value d) ->
  String.eqb (join "," days) "mon-sun" || String.eqb (join "," days) "daily"
  || String.eqb (join "," days) "everyday" = false
  /\ reviews_spam.is_empty (join "," days) = false.
Proof.
  intros Hne Hdays. destruct days as [|d rest]; [congruence|].
  pose proof (day_value_cases d (Hdays d (or_introl eq_refl))) as Hd.
  destruct rest as [|d2 rest].
  - destruct Hd as [-> | [-> | [-> | [-> | [-> | [-> | ->]]]]]]; split; reflexivity.
  - rewrite join_cons by discriminate.
    destruct Hd as [-> | [-> | [-> | [-> | [-> | [-> | ->]]]]]]; split; reflexivity.
Qed.

Lemma add_day_values (days : list string) (acc : list Z) (weekday : Z) :
  (forall d, In d days -> is_day_value d) ->
  existsb (Z.eqb weekday) (fold_left add_part days acc)
  = existsb (Z.eqb weekday) acc
    || existsb (fun d => match get token_to_day d with
                         | Some day => weekday =? day
                         | None => false
                         end) days
  /\ (fold_left add_part days acc = [] -> acc = [] /\ days = []).
Proof.
  revert acc. induction days as [|d rest IH]; intros acc Hdays; cbn [fold_left existsb].
  - rewrite orb_false_r. auto.
  - destruct (day_value_facts d (Hdays d (or_introl eq_refl)))
      as (_ & _ & _ & Hdash & _ & Hparse & _).
    pose proof (day_value_cases d (Hdays d (or_introl eq_refl))) as Hd.
    assert (exists day, get token_to_day d = Some day) as (day & Hday).
    { destruct Hd as [-> | [-> | [-> | [-> | [-> | [-> | ->]]]]]]; eexists; reflexivity. }
    unfold add_part at 2 4. rewrite Hdash, Hparse, Hday.
    destruct (IH (acc ++ [day])) as [Hmem Hnil].
    { intros x Hx. apply Hdays. right. exact Hx. }
    split.
    + rewrite Hmem, existsb_app. cbn [existsb]. rewrite orb_false_r, orb_assoc.
      reflexivity.
    + intros Hempty. apply Hnil in Hempty as [Habsurd _].
      destruct acc; discriminate Habsurd.
Qed.

(** X22: the day checkboxes of the opening hours form, written and read
    back. When [PlaceOpeningHoursForm.clean] accepts a choice of days, the
    two cleaned times are both set or both missing; a place saved with the
    cleaned days counts as open on a weekday exactly when no day was chosen
    or the weekday's value is among those chosen; and the form opened again
    on the saved place ticks the days that were chosen. *)
Theorem opening_days_round_trip
    (strptime_time : string -> option Z) (days : list string)
    (opening_time_raw closing_time_raw opening_days : string)
    (opening_time closing_time : option Z) (place : Place.t) (weekday : Z) :
  (forall d, In d days -> is_day_value d) ->
  PlaceOpeningHoursForm_clean strptime_time days opening_time_raw closing_time_raw
  = Cleaned (opening_days, opening_time, closing_time) ->
  let saved := Place.set_opening_hours opening_days opening_time closing_time place in
  (opening_time = None <-> closing_time = None)
  /\ (_is_open_today_by_days saved weekday = true
      <-> days = [] \/ exists d, In d days /\ In (d, weekday) token_to_day)
  /\ (places_signals.pk_truthy (Place.pk place) <> None ->
      initial_opening_days_list saved
      = match days with [] => None | _ => Some days end).
Proof.
  intros Hdays Hclean. cbv zeta.
  assert (Hod : opening_days = join "," days
                /\ (opening_time = None <-> closing_time = None)).
  { unfold PlaceOpeningHoursForm_clean, _parse_time_value in Hclean.
    destruct days as [|d rest], (reviews_spam.is_empty opening_time_raw),
      (reviews_spam.is_empty closing_time_raw); cbn in Hclean; try discriminate;
      repeat match type of Hclean with
             | context [strptime_time ?x] => destruct (strptime_time x)
             end; try discriminate; injection Hclean as <- <- <-;
      (split; [reflexivity | split; intros; congruence]). }
  destruct Hod as [-> Htimes]. split; [exact Htimes|]. split.
  - unfold _is_open_today_by_days. cbn [Place.opening_days Place.set_opening_hours].
    destruct days as [|d0 rest0] eqn:Hdays_eq; [cbn; tauto|]. rewrite <- Hdays_eq in *.
    assert (days <> []) as Hne by (rewrite Hdays_eq; discriminate).
    destruct (joined_days_not_a_keyword days Hne Hdays) as [Hkey Hfull].
    rewrite Hfull, (joined_days_are_raw days Hdays), Hkey,
      (split_joined_days days Hne Hdays).
    destruct (add_day_values days [] weekday Hdays) as [Hmem Hnil].
    destruct (fold_left add_part days []) as [|x allowed] eqn:Hfold.
    { destruct (Hnil eq_refl) as [_ Habsurd]. contradiction. }
    rewrite Hmem. cbn [existsb orb]. rewrite existsb_exists. split.
    + intros (d & Hin & Hday). right. exists d. split; [exact Hin|].
      pose proof (day_value_cases d (Hdays d Hin)) as Hd.
      destruct Hd as [-> | [-> | [-> | [-> | [-> | [-> | ->]]]]]]; cbn in Hday;
        apply Z.eqb_eq in Hday; subst weekday; cbn; auto 10.
    + intros [Habsurd | (d & Hin & Hday)]; [contradiction|].
      exists d. split; [exact Hin|].
      cbn in Hday.
      destruct Hday as [[= <- <-] | [[= <- <-] | [[= <- <-] | [[= <- <-] | [[= <- <-]
                       | [[= <- <-] | [[= <- <-] | []]]]]]]]; reflexivity.
  - intros Hpk. unfold initial_opening_days_list.
    cbn [Place.pk Place.opening_days Place.set_opening_hours].
    destruct (places_signals.pk_truthy (Place.pk place)); [|congruence].
    destruct days as [|d0 rest0] eqn:Hdays_eq; [reflexivity|]. rewrite <- Hdays_eq in *.
    assert (days <> []) as Hne by (rewrite Hdays_eq; discriminate).
    destruct (joined_days_not_a_keyword days Hne Hdays) as [_ Hfull].
    rewrite Hfull, (split_joined_days days Hne Hdays).
    f_equal. clear - Hdays. induction days as [|d rest IH]; [reflexivity|].
    cbn [List.filter].
    destruct (day_value_facts d (Hdays d (or_introl eq_refl))) as (_ & _ & _ & _ & -> & _).
    cbn [negb]. rewrite IH; [reflexivity|]. intros x Hx. apply Hdays. right. exact Hx.
Qed.

End OpeningDays.

Lemma opening_days_round_trip_witness :
  let cafe :=
    Place.mk (Some 1) Place.FoodPlace "Harbour Cafe" "" None None (Some 50200000)
      (Some (-5200000)) (Some 2) None true false None Place.APPROVED None in
  let saved := Place.set_opening_hours "mon,wed" (Some 540) (Some 1020) cafe in
  places_hours._is_open_today_by_days saved 2 = true
  /\ places_forms_hours.initial_opening_days_list saved = Some ["mon"; "wed"].
Proof.
  cbv zeta.
  destruct (opening_days_round_trip
              (fun value => if String.eqb value "09:00" then Some 540 else Some 1020)
              ["mon"; "wed"] "09:00" "17:00" "mon,wed" (Some 540) (Some 1020)
              (Place.mk (Some 1) Place.FoodPlace "Harbour Cafe" "" None None
                 (Some 50200000) (Some (-5200000)) (Some 2) None true false None
                 Place.APPROVED None) 2)
    as (_ & Hopen & Hinitial).
  - intros d [<- | [<- | []]]; unfold is_day_value; cbn; auto.
  - reflexivity.
  - split.
    + apply Hopen. right. exists "wed". split; cbn; auto.
    + apply Hinitial. discriminate.
Defined.

Lemma day_ranges_checked :
  forallb
    (fun i1 =>
       forallb
         (fun i2 =>
            forallb
              (fun w =>
                 Bool.eqb
                   (places_hours._is_open_today_by_days
                      (Place.mk None Place.PlaceBase ""
                         (nth i1 (map snd places_forms_hours.DAY_CHOICES) ""
                          ++ "-" ++ nth i2 (map snd places_forms_hours.DAY_CHOICES) "")
                         None None None None None None false false None Place.PENDING None)
                      (Z.of_nat w))
                   (if (i1 <=? i2)%nat then (i1 <=? w)%nat && (w <=? i2)%nat
                    else (i1 <=? w)%nat || (w <=? i2)%nat))
              (seq 0 7))
         (seq 0 7))
    (seq 0 7)
  = true.
Proof. vm_compute. reflexivity. Qed.

(** X23: a range of days. For opening days written as two day labels
    joined by a dash, as in Mon-Fri, a place counts as open from the first
    day to the second; when the second day comes before the first in the
    week, the range runs over the weekend: open from the first day to
    Sunday and from Monday to the second. *)
Theorem opening_day_range_wraps_over_the_week (self : Place.t) (first last weekday : nat) :
  (first < 7)%nat -> (last < 7)%nat -> (weekday < 7)%nat ->
  Place.opening_days self
  = (nth first (map snd places_forms_hours.DAY_CHOICES) ""
     ++ "-" ++ nth last (map snd places_forms_hours.DAY_CHOICES) "")%string ->
  places_hours._is_open_today_by_days self (Z.of_nat weekday)
  = if (first <=? last)%nat
    then (first <=? weekday)%nat && (weekday <=? last)%nat
    else (first <=? weekday)%nat || (weekday <=? last)%nat.
Proof.
  intros H1 H2 Hw Hdays.
  pose proof day_ranges_checked as Hall.
  rewrite forallb_forall in Hall. specialize (Hall first).
  rewrite in_seq in Hall. specialize (Hall ltac:(lia)).
  rewrite forallb_forall in Hall. specialize (Hall last).
  rewrite in_seq in Hall. specialize (Hall ltac:(lia)).
  rewrite forallb_forall in Hall. specialize (Hall weekday).
  rewrite in_seq in Hall. specialize (Hall ltac:(lia)).
  apply Bool.eqb_prop in Hall. rewrite <- Hall.
  unfold places_hours._is_open_today_by_days. rewrite Hdays. reflexivity.
Qed.

Lemma opening_day_range_wraps_over_the_week_witness :
  let bar :=
    Place.mk (Some 1) Place.FoodPlace "Night Bar" "Fri-Mon" (Some 1200) (Some 120)
      None None (Some 2) None true false None Place.APPROVED None in
  places_hours._is_open_today_by_days bar 6 = true
  /\ places_hours._is_open_today_by_days bar 2 = false.
Proof.
  cbv zeta. split.
  - apply (opening_day_range_wraps_over_the_week
             (Place.mk (Some 1) Place.FoodPlace "Night Bar" "Fri-Mon" (Some 1200)
                (Some 120) None None (Some 2) None true false None Place.APPROVED None)
             4 0 6); [lia | lia | lia | reflexivity].
  - apply (opening_day_range_wraps_over_the_week
             (Place.mk (Some 1) Place.FoodPlace "Night Bar" "Fri-Mon" (Some 1200)
                (Some 120) None None (Some 2) None true false None Place.APPROVED None)
             4 0 2); [lia | lia | lia | reflexivity].
Defined.

(** ** Likes *)

Section Likes.

Import places_likes.

Lemma filter_negb_none {A} (f : A -> bool) (l : list A) :
  existsb f l = false -> List.filter (fun x => negb (f x)) l = l.
Proof.
  induction l as [|x l IH]; cbn; [reflexivity|].
  destruct (f x); cbn; [discriminate|]. intros H. rewrite (IH H). reflexivity.
Qed.

Lemma existsb_filter_negb {A} (f : A -> bool) (l : list A) :
  existsb f (List.filter (fun x => negb (f x)) l) = false.
Proof.
  induction l as [|x l IH]; cbn; [reflexivity|].
  destruct (f x) eqn:Hx; cbn; [exact IH|]. rewrite Hx. exact IH.
Qed.

(** X24: toggling a like. On a place that is approved and not archived the
    answer's [liked] is the opposite of whether the user liked the place
    before, and the table agrees with it afterwards; the likes of other
    users and of other places are left as they were; a like that was just
    given is taken back by the next toggle, which restores the table
    exactly. The request is answered 404, with nothing written, exactly
    when no approved place that is not archived has the primary key. *)
Theorem toggle_like_flips_and_undoes (s : Store) (likes : list PlaceLike)
    (request_user : user_id) (pk : Z) :
  match post s likes request_user pk with
  | None =>
      find (fun p => Place.has_pk pk p && Place.is_approved p
                     && negb (Place.is_archived p)) (places s) = None
  | Some (liked, count, likes') =>
      find (fun p => Place.has_pk pk p && Place.is_approved p
                     && negb (Place.is_archived p)) (places s) <> None
      /\ liked = negb (existsb (like_qs request_user pk) likes)
      /\ existsb (like_qs request_user pk) likes' = liked
      /\ count = likes_count likes' pk
      /\ List.filter (fun like => negb (like_qs request_user pk like)) likes'
         = List.filter (fun like => negb (like_qs request_user pk like)) likes
      /\ (liked = true ->
          post s likes' request_user pk = Some (false, likes_count likes pk, likes))
  end.
Proof.
  unfold post.
  destruct (find _ (places s)) as [p|] eqn:Hfind; [|reflexivity].
  destruct (existsb (like_qs request_user pk) likes) eqn:Hliked.
  - split; [discriminate|].
    split; [reflexivity|]. split; [apply existsb_filter_negb|]. split; [reflexivity|].
    split; [|discriminate].
    induction likes as [|x l IH]; cbn; [reflexivity|].
    destruct (like_qs request_user pk x) eqn:Hx; cbn; rewrite ?Hx; cbn.
    + destruct (existsb (like_qs request_user pk) l) eqn:Hl; [apply IH; reflexivity|].
      rewrite !(filter_negb_none _ l Hl). reflexivity.
    + f_equal.
      destruct (existsb (like_qs request_user pk) l) eqn:Hl; [apply IH; reflexivity|].
      rewrite !(filter_negb_none _ l Hl). reflexivity.
  - assert (Hnew : like_qs request_user pk (mk request_user pk (clock s)) = true).
    { unfold like_qs. cbn. rewrite !Z.eqb_refl. reflexivity. }
    split; [discriminate|]. split; [reflexivity|]. split.
    { rewrite existsb_app. cbn. rewrite Hnew, orb_true_r. reflexivity. }
    split; [reflexivity|]. split.
    { rewrite List.filter_app. cbn. rewrite Hnew. cbn. apply app_nil_r. }
    intros _. rewrite existsb_app. cbn [existsb]. rewrite Hnew, orb_true_r.
    rewrite List.filter_app. cbn [List.filter]. rewrite Hnew. cbn [negb].
    rewrite app_nil_r, (filter_negb_none _ likes Hliked). reflexivity.
Qed.

Lemma toggle_like_flips_and_undoes_witness :
  let cove :=
    Place.mk (Some 1) Place.BeachPlace "North Cove" "" None None (Some 50200000)
      (Some (-5200000)) (Some 2) None true false None Place.APPROVED None in
  let s := with_places [cove] empty_store in
  post s [mk 3 1 5; mk 4 1 6] 7 1 = Some (true, 3, [mk 3 1 5; mk 4 1 6; mk 7 1 0])
  /\ post s [mk 3 1 5; mk 4 1 6; mk 7 1 0] 7 1 = Some (false, 2, [mk 3 1 5; mk 4 1 6]).
Proof.
  cbv zeta. split; [reflexivity|].
  pose proof (toggle_like_flips_and_undoes
                (with_places
                   [Place.mk (Some 1) Place.BeachPlace "North Cove" "" None None
                      (Some 50200000) (Some (-5200000)) (Some 2) None true false None
                      Place.APPROVED None] empty_store)
                [mk 3 1 5; mk 4 1 6] 7 1) as H.
  change (post _ [mk 3 1 5; mk 4 1 6] 7 1)
    with (Some (true, 3, [mk 3 1 5; mk 4 1 6; mk 7 1 0])) in H.
  destruct H as (_ & _ & _ & _ & _ & Hundo). exact (Hundo eq_refl).
Defined.

End Likes.

(** ** The migration that introduced the status *)

(** X25: the data migration leaves every place with a flag that agrees
    with its status, approved for the places that were approved and pending
    for the others, and changes nothing else: it establishes what
    [Place.save] keeps. *)
Theorem backfill_moderation_status_synchronizes (rows : list Place.t) :
  Forall2
    (fun before after =>
       in_sync after
       /\ after
          = Place.set_moderation_status
              (if Place.is_approved before then Place.APPROVED else Place.PENDING) before)
    rows (places_migration_0009.backfill_moderation_status rows).
Proof.
  unfold places_migration_0009.backfill_moderation_status.
  induction rows as [|p rows IH]; cbn [map]; constructor; [|exact IH].
  unfold in_sync.
  destruct p as [pk cl nm od ot ct la lo cb ab approved arch aat st prev].
  destruct approved; cbn; split; reflexivity.
Qed.

(** ** Query parameters *)

(** X26: whatever a request puts in the query string and however [int]
    reads it, the page size of the review list is 5, 10 or 20 and that of
    the search 6, 12 or 24, a size among these that [int] reads being kept;
    and the rating filter is absent or between 1 and 5, the reviews being
    untouched when it is absent and exactly those with that rating
    otherwise. *)
Theorem query_parameters_are_clamped (int : string -> option Z)
    (raw : option string) (reviews_qs : list Review.t) :
  In (places_views_params.PlaceDetailView_parse_per_page int raw) [5; 10; 20]
  /\ In (places_views_params.SearchPlacesView_parse_per_page int raw) [6; 12; 24]
  /\ (forall text n, raw = Some text -> text <> "" -> int text = Some n ->
      (In n [5; 10; 20] -> places_views_params.PlaceDetailView_parse_per_page int raw = n)
      /\ (In n [6; 12; 24] ->
          places_views_params.SearchPlacesView_parse_per_page int raw = n))
  /\ match places_views_params._apply_rating_filter int reviews_qs raw with
     | (kept, None) => kept = reviews_qs
     | (kept, Some rating) =>
         1 <= rating <= 5
         /\ kept = List.filter (fun r => Review.rating r =? rating) reviews_qs
     end.
Proof.
  unfold places_views_params.PlaceDetailView_parse_per_page,
    places_views_params.SearchPlacesView_parse_per_page,
    places_views_params._apply_rating_filter, places_views_params.ALLOWED_PER_PAGE.
  split; [|split; [|split]].
  - destruct (int _) as [n|]; cbn [existsb]; [|cbn; auto].
    destruct (Z.eqb_spec n 5), (Z.eqb_spec n 10), (Z.eqb_spec n 20); subst; cbn; auto.
  - destruct (int _) as [n|]; cbn [existsb]; [|cbn; auto].
    destruct (Z.eqb_spec n 6), (Z.eqb_spec n 12), (Z.eqb_spec n 24); subst; cbn; auto.
  - intros text n -> Hne Hint. destruct text as [|c rest]; [congruence|].
    cbn [places_views_params.or_default]. rewrite Hint.
    split; intros [<- | [<- | [<- | []]]]; reflexivity.
  - destruct raw as [[|c rest]|]; try reflexivity.
    destruct (int (String c rest)) as [parsed|]; [|reflexivity].
    destruct (Z.leb_spec 1 parsed), (Z.leb_spec parsed 5); cbn [andb]; try reflexivity.
    split; [lia | reflexivity].
Qed.

Lemma query_parameters_are_clamped_witness :
  places_views_params.PlaceDetailView_parse_per_page
    (fun text => if String.eqb text "10" then Some 10 else None) (Some "10") = 10.
Proof.
  destruct (query_parameters_are_clamped
              (fun text => if String.eqb text "10" then Some 10 else None)
              (Some "10") []) as (_ & _ & Hkept & _).
  destruct (Hkept "10" 10 eq_refl) as [Hdetail _]; [discriminate | reflexivity |].
  apply Hdetail. cbn. auto.
Defined.

(** ** The moderation log *)

Lemma keeps_appends {A} (m : M A) : keeps moderation_log m -> appends_to_log m.
Proof. intros H s. exists []. rewrite H, app_nil_r. reflexivity. Qed.

Lemma appends_bind {A B} (m : M A) (k : A -> M B) :
  appends_to_log m -> (forall a, appends_to_log (k a)) -> appends_to_log (bind m k).
Proof.
  intros Hm Hk s. unfold bind. destruct (Hm s) as (e1 & H1).
  destruct (m s) as [a s1 | e s1]; cbn [final] in *.
  - destruct (Hk a s1) as (e2 & H2). exists (e1 ++ e2).
    rewrite H2, H1, app_assoc. reflexivity.
  - exists e1. exact H1.
Qed.

Lemma appends_for_each {A} (body : A -> M unit) (l : list A) :
  (forall x, appends_to_log (body x)) -> appends_to_log (for_each l body).
Proof.
  intros Hbody. induction l as [|x rest IH]; cbn [for_each].
  - apply keeps_appends, keeps_ret.
  - apply appends_bind; auto.
Qed.

Lemma appends_try_except {A} (m handler : M A) (catches : exn -> bool) :
  appends_to_log m -> appends_to_log handler ->
  appends_to_log (try_except m catches handler).
Proof.
  intros Hm Hh s. unfold try_except. destruct (Hm s) as (e1 & H1).
  destruct (m s) as [a s1 | e s1]; cbn [final] in *; [exists e1; exact H1|].
  destruct (catches e); cbn [final]; [|exists e1; exact H1].
  destruct (Hh s1) as (e2 & H2). exists (e1 ++ e2). rewrite H2, H1, app_assoc. reflexivity.
Qed.

Lemma appends_log_action actor action target_type target_pk notes :
  appends_to_log
    (reviews_moderation.log_moderation_action actor action target_type target_pk notes).
Proof.
  intros s. unfold reviews_moderation.log_moderation_action.
  destruct target_pk as [k|]; cbn; [eexists; reflexivity | exists []; symmetry; apply app_nil_r].
Qed.

Ltac appends_step :=
  match goal with
  | |- appends_to_log (bind _ _) => apply appends_bind; [|intros ?]
  | |- appends_to_log (for_each _ _) => apply appends_for_each; intros ?
  | |- appends_to_log (try_except _ _ _) => apply appends_try_except
  | |- appends_to_log (discard _) => apply appends_bind; [|intros ?]
  | |- appends_to_log (reviews_moderation.log_moderation_action _ _ _ _ _) =>
      apply appends_log_action
  | |- appends_to_log (ret _) => apply keeps_appends, keeps_ret
  | |- appends_to_log (raise _) => apply keeps_appends, keeps_raise
  | |- appends_to_log (gets _) => apply keeps_appends, keeps_gets
  | |- appends_to_log timezone_now => apply keeps_appends, keeps_gets
  | |- appends_to_log (modify _) =>
      apply keeps_appends, keeps_modify; intros ?; reflexivity
  | |- appends_to_log (match ?x with _ => _ end) => destruct x
  end.

Lemma place_save_keeps_log update_fields self :
  keeps moderation_log (places_models.save update_fields self).
Proof.
  unfold places_models.save, places_models.Model_save,
    places_signals.stored_moderation_status.
  repeat keeps_step; auto using pre_save_send_keeps.
  all: try (unfold places_models._save_table; keeps_leaf).
  all: apply post_save_send_keeps;
    unfold places_signals._award_points_if_newly_approved;
    repeat keeps_step;
    try (unfold ContributionObjects.get_or_create; keeps_leaf);
    try (unfold ContributionObjects.save; keeps_leaf).
Qed.

Lemma review_save_keeps_log update_fields self :
  keeps moderation_log (reviews_models.save update_fields self).
Proof.
  unfold reviews_models.save, reviews_models._save_table,
    accounts_signals.award_points_for_review.
  repeat keeps_step.
  all: try (unfold reviews_models.update; keeps_leaf).
  all: try (unfold reviews_models.insert; keeps_leaf).
  all: try (unfold ContributionObjects.get_or_create; keeps_leaf).
  all: try (unfold ContributionObjects.save; keeps_leaf).
Qed.

Lemma run_op_appends_to_log (op : Operation) : appends_to_log (run_op op).
Proof.
  destruct op; cbn [run_op];
    unfold accounts_signals.create_contribution, places_views_submit.add_place,
      places_admin.save_model, places_admin.approve_places, places_admin.reject_places,
      places_admin.delete_queryset, places_admin.archive_places,
      places_admin.restore_places, places_admin.delete_model,
      places_forms.PlaceOpeningHoursForm_save,
      reviews_views._save_review, reviews_views.report_review,
      reviews_admin.uphold_reported_reviews, reviews_admin.uphold_review,
      reviews_admin.dismiss_reported_reviews,
      reviews_admin.delete_queryset, reviews_admin.archive_reviews,
      reviews_admin.restore_reviews, reviews_admin.delete_model,
      reviews_admin.mark_upheld, reviews_admin.mark_dismissed, reviews_admin.mark_reports,
      reviews_admin.update_pending_reports;
    repeat appends_step.
  all: apply keeps_appends.
  all: auto using place_save_keeps_log, review_save_keeps_log.
  all: try (unfold ContributionObjects.get_or_create; keeps_leaf).
  all: try (unfold ContributionObjects.save; keeps_leaf).
Qed.

(** X27: the moderation and submission code only appends to the log. No
    sequence of the operations of [Operation], from any database, removes,
    reorders or changes an entry that is in the log: the log afterwards is
    the log before with new entries at its end, also when an operation
    raises half-way. Deleting an account, which sets the [actor] of the
    user's entries to NULL, and the delete page of the log's own admin are
    not among these operations. *)
Theorem moderation_operations_only_append_to_log (ops : list Operation) (s : Store) :
  exists entries, moderation_log (apply_ops ops s) = moderation_log s ++ entries.
Proof.
  unfold apply_ops. revert s. induction ops as [|op ops IH]; intros s; cbn [fold_left].
  - exists []. symmetry. apply app_nil_r.
  - destruct (IH (apply_op op s)) as (later & Hlater).
    destruct (run_op_appends_to_log op s) as (now & Hnow).
    exists (now ++ later). rewrite Hlater. unfold apply_op. rewrite Hnow, app_assoc.
    reflexivity.
Qed.

(** ** One review per user and place *)

Lemma opt_Z_eqb_eq (a b : option Z) : reviews_models.opt_Z_eqb a b = true <-> a = b.
Proof.
  unfold reviews_models.opt_Z_eqb. destruct a as [x|], b as [y|]; split;
    try discriminate; try reflexivity.
  - intros H. apply Z.eqb_eq in H. congruence.
  - intros [= ->]. apply Z.eqb_refl.
Qed.

Lemma no_rival_spec (rows : list Review.t) (row other : Review.t) (u : user_id) :
  reviews_models.violates_unique rows row = false ->
  Review.user row = Some u -> Review.is_archived row = false ->
  In other rows -> Review.is_archived other = false ->
  Review.place other = Review.place row -> Review.user other = Some u ->
  Review.pk other = Review.pk row.
Proof.
  unfold reviews_models.violates_unique. intros Hnone Hu Hlive Hin Hlive' Hplace Hu'.
  rewrite Hu, Hlive in Hnone. cbn [negb andb] in Hnone.
  destruct (reviews_models.opt_Z_eqb (Review.pk other) (Review.pk row)) eqn:Hpk;
    [apply opt_Z_eqb_eq, Hpk|].
  exfalso. assert (Hex : existsb
                           (fun other =>
                              negb (reviews_models.opt_Z_eqb (Review.pk other) (Review.pk row))
                              && negb (Review.is_archived other)
                              && (Review.place other =? Review.place row)
                              && reviews_models.opt_Z_eqb (Review.user other) (Some u))
                           rows = true); [|congruence].
  apply existsb_exists. exists other. split; [exact Hin|].
  rewrite Hpk, Hlive', Hplace, Hu', Z.eqb_refl. cbn. apply Z.eqb_refl.
Qed.

Lemma nodup_pk_injective (rows : list Review.t) (r1 r2 : Review.t) :
  List.NoDup (map Review.pk rows) -> In r1 rows -> In r2 rows ->
  Review.pk r1 = Review.pk r2 -> r1 = r2.
Proof.
  induction rows as [|r rows IH]; cbn [map]; intros Hnd H1 H2 Hpk; [destruct H1|].
  apply List.NoDup_cons_iff in Hnd as [Hnotin Hnd].
  destruct H1 as [<- | H1], H2 as [<- | H2]; auto.
  - exfalso. apply Hnotin. rewrite Hpk. apply in_map, H2.
  - exfalso. apply Hnotin. rewrite <- Hpk. apply in_map, H1.
Qed.

Lemma insert_well_formed (rows : list Review.t) (row : Review.t) (k : Z) :
  reviews_well_formed rows -> Review.pk row = Some k ->
  (forall r, In r rows -> Review.pk r <> Some k) ->
  reviews_models.violates_unique rows row = false ->
  reviews_well_formed (rows ++ [row]).
Proof.
  intros (Hpk & Hnd & Hone) Hk Hfresh Hnone. split; [|split].
  - intros r Hin. apply in_app_or in Hin as [Hin | [<- | []]]; [auto | congruence].
  - rewrite map_app. cbn [map]. apply List.NoDup_app; [exact Hnd | repeat constructor; intros [] |].
    intros key Hin [<- | []]. apply in_map_iff in Hin as (r & Hr & Hin).
    apply (Hfresh r Hin). congruence.
  - intros r1 r2 u H1 H2 L1 L2 Hplace U1 U2.
    apply in_app_or in H1 as [H1 | [<- | []]]; apply in_app_or in H2 as [H2 | [<- | []]].
    + eauto.
    + apply (no_rival_spec rows row r1 u); auto.
    + symmetry. apply (no_rival_spec rows row r2 u); auto.
    + reflexivity.
Qed.

Lemma update_rows_in fields k self rows r' :
  In r' (reviews_models.update_rows fields k self rows) ->
  exists r, In r rows /\ Review.pk r' = Review.pk r
            /\ ((Review.has_pk k r = true /\ r' = Review.update_columns fields self r)
                \/ (Review.has_pk k r = false /\ r' = r)).
Proof.
  unfold reviews_models.update_rows. intros Hin. apply in_map_iff in Hin as (r & <- & Hin).
  exists r. split; [exact Hin|]. destruct (Review.has_pk k r); auto.
Qed.

Lemma update_rows_pks fields k self rows :
  map Review.pk (reviews_models.update_rows fields k self rows) = map Review.pk rows.
Proof.
  unfold reviews_models.update_rows. rewrite map_map. apply map_ext. intros r.
  destruct (Review.has_pk k r); reflexivity.
Qed.

Lemma update_untouched_well_formed fields k self rows :
  reviews_well_formed rows -> reviews_models.touches_constraint fields = false ->
  reviews_well_formed (reviews_models.update_rows fields k self rows).
Proof.
  intros (Hpk & Hnd & Hone) Htouch.
  unfold reviews_models.touches_constraint in Htouch.
  apply orb_false_iff in Htouch as [Htouch Harch].
  apply orb_false_iff in Htouch as [Hplace Huser].
  assert (Hsame : forall r' , In r' (reviews_models.update_rows fields k self rows) ->
            exists r, In r rows /\ Review.pk r' = Review.pk r
                      /\ Review.place r' = Review.place r /\ Review.user r' = Review.user r
                      /\ Review.is_archived r' = Review.is_archived r).
  { intros r' Hin. apply update_rows_in in Hin as (r & Hin & Hk & [[_ ->] | [_ ->]]);
      exists r; repeat split; try assumption;
      cbn [Review.update_columns Review.place Review.user Review.is_archived];
      rewrite ?Hplace, ?Huser, ?Harch; reflexivity. }
  split; [|split].
  - intros r' Hin. destruct (Hsame r' Hin) as (r & Hr & -> & _). auto.
  - rewrite update_rows_pks. exact Hnd.
  - intros r1' r2' u H1 H2 L1 L2 Hpl U1 U2.
    destruct (Hsame r1' H1) as (r1 & Hr1 & -> & P1 & Us1 & A1).
    destruct (Hsame r2' H2) as (r2 & Hr2 & -> & P2 & Us2 & A2).
    apply (Hone r1 r2 u); congruence.
Qed.

Lemma update_checked_well_formed fields k self rows row :
  reviews_well_formed rows -> find (Review.has_pk k) rows = Some row ->
  reviews_models.violates_unique rows (Review.update_columns fields self row) = false ->
  reviews_well_formed (reviews_models.update_rows fields k self rows).
Proof.
  intros (Hpk & Hnd & Hone) Hfind Hnone.
  apply find_some in Hfind as [Hrow Hk]. apply review_has_pk_of_pk in Hk.
  assert (Hthe : forall r, In r rows -> Review.has_pk k r = true -> r = row).
  { intros r Hin Hr. apply review_has_pk_of_pk in Hr.
    apply (nodup_pk_injective rows); auto. congruence. }
  split; [|split].
  - intros r' Hin. apply update_rows_in in Hin as (r & Hin & -> & _). auto.
  - rewrite update_rows_pks. exact Hnd.
  - intros r1' r2' u H1 H2 L1 L2 Hpl U1 U2.
    apply update_rows_in in H1 as (r1 & Hr1 & Hk1 & C1).
    apply update_rows_in in H2 as (r2 & Hr2 & Hk2 & C2).
    rewrite Hk1, Hk2.
    destruct C1 as [[K1 E1] | [K1 E1]], C2 as [[K2 E2] | [K2 E2]].
    + rewrite (Hthe r1 Hr1 K1), (Hthe r2 Hr2 K2). reflexivity.
    + rewrite (Hthe r1 Hr1 K1) in *. subst r1' r2'. symmetry.
      apply (no_rival_spec rows _ r2 u Hnone); auto.
    + rewrite (Hthe r2 Hr2 K2) in *. subst r1' r2'.
      apply (no_rival_spec rows _ r1 u Hnone); auto.
    + subst r1' r2'. apply (Hone r1 r2 u); auto.
Qed.

Lemma review_update_well_formed fields k self s :
  reviews_well_formed (reviews s) ->
  match reviews_models.update fields k self s with
  | Returned None s' => s' = s /\ find (Review.has_pk k) (reviews s) = None
  | Returned (Some _) s' => reviews_well_formed (reviews s')
  | Raised _ s' => s' = s
  end.
Proof.
  intros Hwf. unfold reviews_models.update.
  destruct (find (Review.has_pk k) (reviews s)) as [row|] eqn:Hfind; [|auto].
  destruct (reviews_models.touches_constraint fields) eqn:Htouch; cbn [andb].
  - destruct (reviews_models.violates_unique _ _) eqn:Hnone; [reflexivity|].
    cbn [reviews with_reviews]. eapply update_checked_well_formed; eauto.
  - cbn [reviews with_reviews]. apply update_untouched_well_formed; assumption.
Qed.

Lemma review_insert_well_formed k self s :
  reviews_well_formed (reviews s) ->
  (forall r, In r (reviews s) -> Review.pk r <> Some k) ->
  reviews_well_formed (reviews (final (reviews_models.insert k self s))).
Proof.
  intros Hwf Hfresh. unfold reviews_models.insert.
  destruct (reviews_models.violates_unique _ _) eqn:Hnone; [exact Hwf|].
  cbn [final reviews with_reviews].
  apply (insert_well_formed _ _ k); auto.
Qed.

Lemma review_save_table_well_formed update_fields self :
  preserves (fun s => reviews_well_formed (reviews s))
    (reviews_models._save_table update_fields self).
Proof.
  apply hoare_final. intros s Hwf. unfold reviews_models._save_table.
  destruct update_fields as [fields|], (Review.pk self) as [k|]; try exact Hwf.
  - unfold bind. pose proof (review_update_well_formed fields k self s Hwf) as Hupd.
    destruct (reviews_models.update fields k self s) as [[saved|] s1 | e s1];
      cbn [final ret raise]; [exact Hupd | destruct Hupd as [-> _]; exact Hwf
                             | subst s1; exact Hwf].
  - unfold bind.
    pose proof (review_update_well_formed Review.all_fields k self s Hwf) as Hupd.
    destruct (reviews_models.update Review.all_fields k self s) as [[saved|] s1 | e s1];
      cbn [final ret]; [exact Hupd | | subst s1; exact Hwf].
    destruct Hupd as [-> Hnone]. apply review_insert_well_formed; [exact Hwf|].
    intros r Hin Hpk. apply (find_none _ _ Hnone) in Hin.
    apply review_has_pk_of_pk in Hpk. congruence.
  - unfold bind. cbn [gets]. apply review_insert_well_formed; [exact Hwf|].
    intros r Hin Hpk.
    assert (In (Some (next_pk (map Review.pk (reviews s)))) (map Review.pk (reviews s)))
      as Habove by (rewrite <- Hpk; apply in_map, Hin).
    apply next_pk_above in Habove. lia.
Qed.

Lemma review_save_well_formed update_fields self :
  preserves (fun s => reviews_well_formed (reviews s))
    (reviews_models.save update_fields self).
Proof.
  assert (Hkeep : forall A (m : M A), keeps reviews m ->
            preserves (fun s => reviews_well_formed (reviews s)) m).
  { intros A m. apply keeps_preserves. intros s s' ->. auto. }
  unfold reviews_models.save.
  destruct update_fields as [[|f fields]|]; [apply preserves_ret | |].
  all: apply preserves_bind; [apply review_save_table_well_formed | intros saved].
  all: apply preserves_bind; [|intros; apply preserves_ret].
  all: apply Hkeep; unfold accounts_signals.award_points_for_review;
    repeat keeps_step;
    auto using get_or_create_keeps_reviews, contribution_save_keeps_reviews.
Qed.

Lemma run_op_reviews_well_formed (op : Operation) :
  preserves (fun s => reviews_well_formed (reviews s)) (run_op op).
Proof.
  assert (Hkeep : forall A (m : M A), keeps reviews m ->
            preserves (fun s => reviews_well_formed (reviews s)) m).
  { intros A m. apply keeps_preserves. intros s s' ->. auto. }
  destruct op; cbn [run_op];
    unfold accounts_signals.create_contribution, places_views_submit.add_place,
      places_admin.save_model, places_admin.approve_places, places_admin.reject_places,
      places_admin.delete_queryset, places_admin.archive_places,
      places_admin.restore_places, places_admin.delete_model,
      places_forms.PlaceOpeningHoursForm_save,
      reviews_views._save_review, reviews_views.report_review,
      reviews_admin.uphold_reported_reviews, reviews_admin.uphold_review,
      reviews_admin.dismiss_reported_reviews,
      reviews_admin.delete_queryset, reviews_admin.archive_reviews,
      reviews_admin.restore_reviews, reviews_admin.delete_model,
      reviews_admin.mark_upheld, reviews_admin.mark_dismissed, reviews_admin.mark_reports,
      reviews_admin.update_pending_reports;
    repeat preserves_step.
  all: try apply review_save_well_formed.
  all: try (apply preserves_modify; intros s Hs; exact Hs).
  all: apply Hkeep.
  all: auto using place_save_keeps_reviews, log_keeps_reviews, get_or_create_keeps_reviews,
         contribution_save_keeps_reviews.
Qed.

(** X28: one review per user and place. In every database the
    application can produce, every review has a primary key, no two reviews
    share one, and a signed-in user has at most one review of a place that
    is not archived. *)
Theorem one_live_review_per_user_and_place (s : Store) :
  reachable s ->
  (forall r, In r (reviews s) -> Review.pk r <> None)
  /\ List.NoDup (map Review.pk (reviews s))
  /\ forall r1 r2 u,
       In r1 (reviews s) -> In r2 (reviews s) ->
       Review.is_archived r1 = false -> Review.is_archived r2 = false ->
       Review.place r1 = Review.place r2 ->
       Review.user r1 = Some u -> Review.user r2 = Some u ->
       r1 = r2.
Proof.
  intros Hreach.
  assert (reviews_well_formed (reviews s)) as (Hpk & Hnd & Hone).
  { induction Hreach as [|s op _ IH].
    - split; [intros r [] | split; [constructor | intros r1 r2 u []]].
    - unfold apply_op.
      apply (preserves_final (fun s => reviews_well_formed (reviews s)));
        [apply run_op_reviews_well_formed | exact IH]. }
  split; [exact Hpk|]. split; [exact Hnd|].
  intros r1 r2 u H1 H2 L1 L2 Hplace U1 U2.
  apply (nodup_pk_injective (reviews s)); auto. apply (Hone r1 r2 u); auto.
Qed.

Lemma one_live_review_per_user_and_place_witness :
  let s := apply_ops [SubmitReview (Some 2) 7 "Great views" 5;
                      SubmitReview (Some 2) 7 "Still great" 4;
                      ArchiveReviews 9 (fun _ => true);
                      SubmitReview (Some 2) 7 "Back again" 3] empty_store in
  List.NoDup (map Review.pk (reviews s)) /\ length (reviews s) = 2%nat.
Proof.
  cbv zeta. split; [|vm_compute; reflexivity].
  apply (proj1 (proj2 (one_live_review_per_user_and_place _
           (reachable_step _ (SubmitReview (Some 2) 7 "Back again" 3)
              (reachable_step _ (ArchiveReviews 9 (fun _ => true))
                 (reachable_step _ (SubmitReview (Some 2) 7 "Still great" 4)
                    (reachable_step _ (SubmitReview (Some 2) 7 "Great views" 5)
                       reachable_empty))))))).
Defined.

(** ** Normalized review texts *)

Section NormalForm.

Import reviews_spam.

Lemma all_ascii (P : ascii -> bool) :
  forallb (fun n => P (ascii_of_nat n)) (seq 0 256) = true -> forall c, P c = true.
Proof.
  intros Hall c. rewrite forallb_forall in Hall.
  rewrite <- (ascii_nat_embedding c). apply Hall. apply in_seq.
  pose proof (nat_ascii_bounded c). lia.
Qed.

Lemma lower_char_idempotent (c : ascii) : lower_char (lower_char c) = lower_char c.
Proof.
  apply Ascii.eqb_eq.
  apply (all_ascii (fun c => Ascii.eqb (lower_char (lower_char c)) (lower_char c))).
  vm_compute. reflexivity.
Qed.

Lemma lower_char_classes (c : ascii) :
  is_space (lower_char c) = is_space c
  /\ (is_space c = true -> is_word c = false).
Proof.
  split.
  - apply Bool.eqb_prop.
    apply (all_ascii (fun c => Bool.eqb (is_space (lower_char c)) (is_space c))).
    vm_compute. reflexivity.
  - intros Hs.
    assert (forallb (fun n => negb (is_space (ascii_of_nat n) && is_word (ascii_of_nat n)))
              (seq 0 256) = true) as Hall by (vm_compute; reflexivity).
    pose proof (all_ascii (fun c => negb (is_space c && is_word c)) Hall c) as H.
    cbv beta in H. rewrite Hs in H. destruct (is_word c); [discriminate | reflexivity].
Qed.

Lemma collapsed_is_tidy (in_run : bool) (text : string) :
  tidy in_run (collapse_whitespace in_run (remove_punctuation (lower text))) = true.
Proof.
  revert in_run. induction text as [|c rest IH]; intros in_run; [reflexivity|].
  cbn [lower remove_punctuation].
  destruct (is_word (lower_char c)) eqn:Hw; cbn [orb].
  - cbn [collapse_whitespace].
    destruct (is_space (lower_char c)) eqn:Hs.
    + apply (proj2 (lower_char_classes (lower_char c))) in Hs. congruence.
    + cbn [tidy]. rewrite Hs, Hw, lower_char_idempotent, Ascii.eqb_refl, IH. reflexivity.
  - destruct (is_space (lower_char c)) eqn:Hs; [|apply IH].
    cbn [collapse_whitespace]. rewrite Hs.
    destruct in_run; [apply IH|].
    cbn [tidy]. change (is_space " ") with true. cbn. apply IH.
Qed.

Lemma tidy_is_fixed (after_space : bool) (text : string) :
  tidy after_space text = true ->
  lower text = text /\ remove_punctuation text = text
  /\ collapse_whitespace after_space text = text.
Proof.
  revert after_space. induction text as [|c rest IH]; intros after_space; [auto|].
  cbn [tidy lower remove_punctuation collapse_whitespace].
  destruct (is_space c) eqn:Hs.
  - intros H. apply andb_prop in H as [H Hrest]. apply andb_prop in H as [Hc Hprev].
    apply Ascii.eqb_eq in Hc. subst c. destruct after_space; [discriminate|].
    destruct (IH true Hrest) as (-> & -> & ->).
    change (lower_char " ") with " "%char. rewrite orb_true_r. auto.
  - intros H. apply andb_prop in H as [H Hrest]. apply andb_prop in H as [Hw Hl].
    apply Ascii.eqb_eq in Hl. rewrite Hl, Hw. cbn [orb].
    destruct (IH false Hrest) as (-> & -> & ->). auto.
Qed.

Lemma tidy_lstrip (after_space : bool) (text : string) :
  tidy after_space text = true ->
  tidy false (lstrip text) = true /\ lstrip (lstrip text) = lstrip text.
Proof.
  revert after_space. induction text as [|c rest IH]; intros after_space; [auto|].
  cbn [tidy lstrip]. destruct (is_space c) eqn:Hs.
  - intros H. apply andb_prop in H as [_ Hrest]. apply (IH true Hrest).
  - intros H. cbn [tidy lstrip]. rewrite Hs. auto.
Qed.

Lemma tidy_rstrip (after_space : bool) (text : string) :
  tidy after_space text = true ->
  tidy after_space (rstrip text) = true /\ rstrip (rstrip text) = rstrip text.
Proof.
  revert after_space. induction text as [|c rest IH]; intros after_space; [auto|].
  intros H. cbn [rstrip].
  assert (Hrest : tidy (is_space c) rest = true).
  { cbn [tidy] in H. destruct (is_space c); apply andb_prop in H as [_ H]; exact H. }
  destruct (IH _ Hrest) as [Htidy Hfix].
  destruct (rstrip rest) as [|c2 kept] eqn:Hkept.
  - destruct (is_space c) eqn:Hs; [auto|].
    cbn [tidy] in H |- *. rewrite Hs in H |- *.
    apply andb_prop in H as [H _]. rewrite H. cbn [rstrip]. rewrite Hs. auto.
  - split.
    + cbn [tidy] in H |- *. destruct (is_space c);
        apply andb_prop in H as [H _]; rewrite H; exact Htidy.
    + change (rstrip (String c (String c2 kept)))
        with (match rstrip (String c2 kept) with
              | EmptyString => if is_space c then EmptyString else String c EmptyString
              | String c3 kept3 => String c (String c3 kept3)
              end).
      rewrite Hfix. reflexivity.
Qed.

Lemma rstrip_keeps_head (text : string) :
  lstrip text = text -> lstrip (rstrip text) = rstrip text.
Proof.
  destruct text as [|c rest]; [reflexivity|]. cbn [lstrip rstrip].
  destruct (is_space c) eqn:Hs.
  - intros Habsurd. exfalso.
    assert (String.length (lstrip rest) <= String.length rest)%nat as Hlen.
    { clear. induction rest as [|c rest IH]; cbn [lstrip]; [lia|].
      destruct (is_space c); cbn [String.length]; lia. }
    rewrite Habsurd in Hlen. cbn [String.length] in Hlen. lia.
  - intros _. destruct (rstrip rest); cbn [lstrip]; rewrite Hs; reflexivity.
Qed.

(** X29: normal form. [normalize_text] is idempotent, and its result
    consists of lower-case word characters and single spaces only, with no
    whitespace at either end: normalizing, lower-casing, removing
    punctuation, collapsing whitespace or stripping it again changes
    nothing. *)
Theorem normalize_text_is_idempotent (text : string) :
  let normal := normalize_text text in
  normalize_text normal = normal
  /\ tidy false normal = true
  /\ lower normal = normal
  /\ remove_punctuation normal = normal
  /\ collapse_whitespace false normal = normal
  /\ strip normal = normal.
Proof.
  cbv zeta.
  pose proof (collapsed_is_tidy false text) as Hx.
  destruct (tidy_lstrip false _ Hx) as [Hl Hll].
  destruct (tidy_rstrip false _ Hl) as [Hr Hrr].
  destruct (tidy_is_fixed false _ Hr) as (Hlow & Hrp & Hcol).
  change (rstrip (lstrip (collapse_whitespace false (remove_punctuation (lower text)))))
    with (normalize_text text) in *.
  assert (Hstrip : strip (normalize_text text) = normalize_text text).
  { unfold strip. unfold normalize_text at 1 2, strip.
    rewrite (rstrip_keeps_head _ Hll). exact Hrr. }
  repeat split; try assumption.
  unfold normalize_text at 1. rewrite Hlow, Hrp, Hcol. exact Hstrip.
Qed.

End NormalForm.

(** ** Open now *)

Lemma open_now_passes_the_query (category : string) (self : Place.t)
    (weekday now_time : Z) :
  places_hours.is_open_now category self weekday now_time = Some true ->
  negb (String.eqb category "beach")
  && places_views.has_value (Place.opening_time self)
  && places_views.has_value (Place.closing_time self) = true.
Proof.
  unfold places_hours.is_open_now, places_hours.supports_opening_hours,
    places_hours.has_opening_hours.
  destruct (String.eqb category "beach"); cbn [negb orb]; [discriminate|].
  destruct (Place.opening_time self), (Place.closing_time self); cbn; try discriminate.
  reflexivity.
Qed.

(** X30: whether a place is open now. The answer is missing exactly for a
    beach and for a place without both times. Otherwise the place is open
    when today is one of its days and the time lies between opening and
    closing, or, for hours that end before they begin, from opening on or
    up to closing; in the hours after midnight of such a place it is today's
    weekday that counts, not the day the opening began. The search keeps
    exactly the places that are open: the query that comes before the
    check removes none of them. *)
Theorem open_now_by_day_and_hours (category : string) (self : Place.t)
    (weekday now_time : Z) (places : list (string * Place.t)) :
  (places_hours.is_open_now category self weekday now_time = None
   <-> category = "beach" \/ Place.opening_time self = None
       \/ Place.closing_time self = None)
  /\ (places_hours.is_open_now category self weekday now_time = Some true
      <-> category <> "beach"
          /\ places_hours._is_open_today_by_days self weekday = true
          /\ exists opening closing,
               Place.opening_time self = Some opening
               /\ Place.closing_time self = Some closing
               /\ ((opening <= closing /\ opening <= now_time <= closing)
                   \/ (closing < opening /\ (opening <= now_time \/ now_time <= closing))))
  /\ (forall opening closing,
        category <> "beach" ->
        Place.opening_time self = Some opening ->
        Place.closing_time self = Some closing ->
        closing < opening -> now_time <= closing ->
        places_hours.is_open_now category self weekday now_time
        = Some (places_hours._is_open_today_by_days self weekday))
  /\ places_views_search._apply_open_now_filter places (Some "1") weekday now_time
     = List.filter
         (fun place =>
            match places_hours.is_open_now (fst place) (snd place) weekday now_time with
            | Some true => true
            | _ => false
            end) places.
Proof.
  split; [|split; [|split]].
  - unfold places_hours.is_open_now, places_hours.supports_opening_hours,
      places_hours.has_opening_hours.
    destruct (String.eqb_spec category "beach") as [->|Hcat]; cbn [negb orb]; [tauto|].
    destruct (Place.opening_time self) as [o|], (Place.closing_time self) as [c|];
      cbn [negb]; try tauto.
    destruct (negb _); [|destruct (o <=? c)]; split; try discriminate;
      intros [? | [? | ?]]; congruence.
  - unfold places_hours.is_open_now, places_hours.supports_opening_hours,
      places_hours.has_opening_hours.
    destruct (String.eqb_spec category "beach") as [->|Hcat]; cbn [negb orb].
    { split; [discriminate | intros [H _]; congruence]. }
    destruct (Place.opening_time self) as [o|], (Place.closing_time self) as [c|];
      cbn [negb]; try (split; [discriminate | intros (_ & _ & ? & ? & ? & ? & _);
                                            discriminate]).
    destruct (places_hours._is_open_today_by_days self weekday); cbn [negb].
    + destruct (Z.leb_spec o c), (Z.leb_spec o now_time), (Z.leb_spec now_time c);
        cbn [andb orb]; split;
        try (intros _; split; [exact Hcat|]; split; [reflexivity|]; exists o, c;
             split; [reflexivity|]; split; [reflexivity|]; lia);
        try discriminate;
        intros (_ & _ & o' & c' & [= <-] & [= <-] & Hcase); first [reflexivity | lia].
    + split; [discriminate | intros (_ & Habsurd & _); discriminate].
  - unfold places_hours.is_open_now, places_hours.supports_opening_hours,
      places_hours.has_opening_hours.
    intros opening closing Hcat -> -> Hwrap Hlate.
    destruct (String.eqb_spec category "beach") as [->|_]; [congruence|]. cbn [negb orb].
    destruct (places_hours._is_open_today_by_days self weekday); cbn [negb]; [|reflexivity].
    destruct (Z.leb_spec opening closing); [lia|].
    destruct (Z.leb_spec now_time closing); [|lia]. rewrite orb_true_r. reflexivity.
  - unfold places_views_search._apply_open_now_filter.
    rewrite String.eqb_refl. cbn [negb].
    induction places as [|[cat p] rest IH]; [reflexivity|].
    cbn [List.filter fst snd].
    pose proof (open_now_passes_the_query cat p weekday now_time) as Hquery.
    destruct (places_hours.is_open_now cat p weekday now_time) as [[|]|] eqn:Hopen.
    + rewrite (Hquery eq_refl). cbn [List.filter fst snd]. rewrite Hopen, IH. reflexivity.
    + destruct (_ && _); cbn [List.filter fst snd]; rewrite ?Hopen; exact IH.
    + destruct (_ && _); cbn [List.filter fst snd]; rewrite ?Hopen; exact IH.
Qed.

Lemma open_now_by_day_and_hours_witness :
  let bar :=
    Place.mk (Some 1) Place.FoodPlace "Night Bar" "fri" (Some 1320) (Some 120)
      None None (Some 2) None true false None Place.APPROVED None in
  places_hours.is_open_now "nightlife" bar 5 60 = Some false
  /\ places_hours.is_open_now "nightlife" bar 4 60 = Some true.
Proof.
  cbv zeta.
  pose proof (fun weekday =>
                proj1 (proj2 (proj2 (open_now_by_day_and_hours "nightlife"
                  (Place.mk (Some 1) Place.FoodPlace "Night Bar" "fri" (Some 1320)
                     (Some 120) None None (Some 2) None true false None Place.APPROVED
                     None) weekday 60 []))) 1320 120) as Hlate.
  split.
  - rewrite (Hlate 5); [reflexivity | discriminate | reflexivity | reflexivity | lia | lia].
  - rewrite (Hlate 4); [reflexivity | discriminate | reflexivity | reflexivity | lia | lia].
Defined.
